(** * GoPostal: SMTP to Microsoft Graph relay

    A shallow embedding of the session policy engine
    ([pkg/receiver/session.go]), the authenticators ([pkg/auth/auth.go]),
    the retry primitive ([pkg/utils/utils.go]) and the Graph sender
    ([pkg/sender/graph.go]), with the properties the specification states
    about them.

    Go values are modelled as follows.  [int], [int64] and
    [time.Duration] are [Z] with the two's-complement wrap-around of the
    64-bit operations written out ([wrap64]).  A [string] is a [string],
    a [[]byte] is a [list Byte.byte], a [map[string]string] is a
    [gmap string string].  The wall clock, the random source, the network
    and the state captured by closures live in a [World] that is threaded
    through effectful code; a run either returns or panics ([Result]). *)

From Stdlib Require Import ZArith String List Bool Lia.
From Stdlib Require Strings.Byte.
From stdpp Require Import base gmap strings list.

Import ListNotations.
Local Open Scope string_scope.
Local Open Scope Z_scope.

(** ** Errors *)

(** The error values the code returns or compares against.  [Errorf] and
    [Wrapf] are [fmt.Errorf] with a [%s] and with a [%w] verb. *)
Inductive error : Type :=
  (* github.com/emersion/go-smtp *)
  | ErrAuthRequired | ErrServerClosed | ErrAuthFailed
  | ErrAuthUnsupported | ErrDataTooLarge
  (* pkg/errs/errors.go *)
  | ErrInvalidEmail | ErrFromDisallowed | ErrToDisallowed
  | ErrTooManyRecipients | ErrSourceIPDisallowed | ErrSourceIPInvalid
  (* context *)
  | Canceled | DeadlineExceeded
  (* fmt.Errorf *)
  | Errorf (format arg : string)
  | Errorf2 (format arg1 arg2 : string)
  | Wrapf (format : string) (inner : error)
  (* an error produced inside a library *)
  | ErrLibrary (msg : string).

(** ** 64-bit arithmetic and durations *)

Definition MinInt64 : Z := - 2 ^ 63.
Definition MaxInt64 : Z := 2 ^ 63 - 1.

Definition wrap64 (z : Z) : Z := (z + 2 ^ 63) mod 2 ^ 64 - 2 ^ 63.

Definition add64 (a b : Z) : Z := wrap64 (a + b).
Definition mul64 (a b : Z) : Z := wrap64 (a * b).
(** [a << i] on an [int64]: a shift count of 64 or more gives 0. *)
Definition shl64 (a i : Z) : Z := if 64 <=? i then 0 else wrap64 (Z.shiftl a i).
(** Go's [/] truncates towards zero. *)
Definition div64 (a b : Z) : Z := wrap64 (Z.quot a b).
(** [time.Time.Sub] saturates at the extreme durations. *)
Definition satSub (t u : Z) : Z := Z.max MinInt64 (Z.min MaxInt64 (t - u)).

Definition Nanosecond : Z := 1.
Definition Second : Z := 1000000000.
Definition Minute : Z := 60 * Second.

(** ** The world *)

Record HttpRequest := mkRequest {
  req_method : string;
  req_url : string;
  req_headers : list (string * string);
  req_body : list Byte.byte;
  req_deadline : option Z   (* instant at which the request is abandoned *)
}.

(** An [io.Reader]: the bytes it still holds and how it ends, with
    [io.EOF] ([None]) or with an error. *)
Record Reader := mkReader {
  content : list Byte.byte;
  rerr : option error
}.

Record HttpResponse := mkResponse {
  StatusCode : Z;
  Status : string;
  Body : Reader
}.

(** What the network answers to one request, and after how long. *)
Record HttpOutcome := mkOutcome {
  latency : Z;
  answer : error + HttpResponse
}.

Record World (A : Type) := mkWorld {
  now : Z;                    (* wall clock, nanoseconds *)
  rng : list Z;               (* coming draws of math/rand's source *)
  ties : list bool;           (* the runtime's pick when both cases of a
                                 select are ready: [true] is the timer *)
  net : list HttpOutcome;     (* coming answers of the network *)
  wire : list HttpRequest;    (* requests handed to the network, newest first *)
  slept : list Z;             (* durations given to time.After, newest first *)
  heap : A                    (* state captured by closures and receivers *)
}.
Arguments mkWorld {A}.
Arguments now {A}.
Arguments rng {A}.
Arguments ties {A}.
Arguments net {A}.
Arguments wire {A}.
Arguments slept {A}.
Arguments heap {A}.

Section WorldOps.
Context {A : Type}.

Definition setNow (t : Z) (w : World A) : World A :=
  mkWorld t (rng w) (ties w) (net w) (wire w) (slept w) (heap w).
Definition setRng (r : list Z) (w : World A) : World A :=
  mkWorld (now w) r (ties w) (net w) (wire w) (slept w) (heap w).
Definition setTies (b : list bool) (w : World A) : World A :=
  mkWorld (now w) (rng w) b (net w) (wire w) (slept w) (heap w).
Definition setNet (n : list HttpOutcome) (w : World A) : World A :=
  mkWorld (now w) (rng w) (ties w) n (wire w) (slept w) (heap w).
Definition logRequest (r : HttpRequest) (w : World A) : World A :=
  mkWorld (now w) (rng w) (ties w) (net w) (r :: wire w) (slept w) (heap w).
Definition logSleep (d : Z) (w : World A) : World A :=
  mkWorld (now w) (rng w) (ties w) (net w) (wire w) (d :: slept w) (heap w).
Definition setHeap (h : A) (w : World A) : World A :=
  mkWorld (now w) (rng w) (ties w) (net w) (wire w) (slept w) h.
End WorldOps.

(** A run returns a value or panics; both leave a world behind. *)
Inductive Result (A R : Type) : Type :=
  | Ret (r : R) (w : World A)
  | Panic (msg : string) (w : World A).
Arguments Ret {A R}.
Arguments Panic {A R}.

Definition M (A R : Type) : Type := World A -> Result A R.

Definition ret {A R} (r : R) : M A R := fun w => Ret r w.
Definition bind {A R S} (m : M A R) (k : R -> M A S) : M A S :=
  fun w => match m w with
           | Ret r w' => k r w'
           | Panic msg w' => Panic msg w'
           end.

Notation "'let*' x ':=' m 'in' k" := (bind m (fun x => k))
  (at level 10, x name, m at level 100, k at level 200).

(** ** Contexts *)

(** A [context.Context] is live until some instant and done from then on,
    with a fixed error.  [done_at = None] never ends
    ([context.Background]). *)
Record Context := mkContext {
  done_at : option Z;
  cause : error
}.

Definition Background : Context := mkContext None Canceled.

(** [ctx.Err()] when the clock shows [t]. *)
Definition Err (ctx : Context) (t : Z) : option error :=
  match done_at ctx with
  | Some c => if c <=? t then Some (cause ctx) else None
  | None => None
  end.

(** [context.WithTimeout(ctx, d)] called when the clock shows [t]. *)
Definition WithTimeout (ctx : Context) (d t : Z) : Context :=
  let deadline := t + d in
  match done_at ctx with
  | Some c => if c <=? deadline then ctx else mkContext (Some deadline) DeadlineExceeded
  | None => mkContext (Some deadline) DeadlineExceeded
  end.

(** ** Authenticators (pkg/auth/auth.go) *)

Module auth.

Inductive Authenticator : Type :=
  | AuthenticatorPlaintext (credentials : gmap string string)
  | AuthenticatorHashed (credentials : gmap string string)
  | AuthenticatorAlwaysAllow.

Section Check.
(** [bcrypt.CompareHashAndPassword(hash, password)]: [None] is a match. *)
Variable CompareHashAndPassword : string -> string -> option error.

Definition Check (a : Authenticator) (username password : string) : bool :=
  match a with
  | AuthenticatorPlaintext credentials =>
      match credentials !! username with
      | Some pw => String.eqb password pw
      | None => false
      end
  | AuthenticatorHashed credentials =>
      match credentials !! username with
      | Some pw =>
          match CompareHashAndPassword pw password with
          | None => true
          | Some _ => false
          end
      | None => false
      end
  | AuthenticatorAlwaysAllow => true
  end.
End Check.

Definition NewAuthenticatorPlaintext (creds : gmap string string) : Authenticator :=
  AuthenticatorPlaintext creds.

(** As in the source, the constructor named for the hashed variant
    builds the plaintext one. *)
Definition NewAuthenticatorHashed (creds : gmap string string) : Authenticator :=
  AuthenticatorPlaintext creds.

Definition NewAuthenticatorAlwaysAllow : Authenticator :=
  AuthenticatorAlwaysAllow.

End auth.

(** ** The retry primitive (pkg/utils/utils.go) *)

Module utils.
Section Backoff.
Context {A : Type}.

(** [rand.Int63n(n)]: panics unless [n > 0], else a value in [[0, n)]. *)
Definition Int63n (n : Z) : M A Z := fun w =>
  if n <=? 0 then Panic "invalid argument to Int63n" w
  else match rng w with
       | r :: rs => Ret (r mod n) (setRng rs w)
       | [] => Ret 0 w
       end.

(** [select { case <-time.After(d): ...; case <-ctx.Done(): ... }].
    The result is [true] when the timer case runs.  The timer is ready
    at [now + max d 0], the context at its end; the case that is ready
    first runs, and the runtime picks when both are ready together. *)
Definition selectAfterOrDone (ctx : Context) (d : Z) : M A bool := fun w =>
  let w := logSleep d w in
  let fire := now w + Z.max d 0 in
  match done_at ctx with
  | None => Ret true (setNow fire w)
  | Some c =>
      let ready := Z.max c (now w) in
      if ready <? fire then Ret false (setNow ready w)
      else if fire <? ready then Ret true (setNow fire w)
      else match ties w with
           | b :: bs => Ret b (setNow fire (setTies bs w))
           | [] => Ret false (setNow fire w)
           end
  end.

Definition ctxErr (ctx : Context) : M A (option error) :=
  fun w => Ret (Err ctx (now w)) w.

Section Loop.
Variable ctx : Context.
Variable operation : M A (option error).
Variables attempts backoff : Z.

(** The body of the [for] loop at index [i]; [Some r] leaves the
    function with [r], [None] goes on to [i + 1] with the error in
    the second component. *)
Definition iteration (i : Z) : M A (option (option error) * option error) :=
  let* err := ctxErr ctx in
  match err with
  | Some _ => ret (Some err, err)
  | None =>
      let* err := operation in
      match err with
      | None => ret (Some None, err)
      | Some _ =>
          if i >=? attempts then ret (Some err, err)
          else
            let sleep := mul64 backoff (shl64 1 i) in
            let* jitter := Int63n (div64 backoff 4) in
            let sleep := add64 sleep jitter in
            let* timer := selectAfterOrDone ctx sleep in
            if (timer : bool) then ret (None, err)
            else fun w => Ret (Some (Err ctx (now w)), err) w
      end
  end.

(** [for i := ...; i < attempts; i++]; [n] bounds the iterations
    left and is [attempts - i] in every run of [DoWithBackoff]. *)
Fixpoint loop (n : nat) (i : Z) (err : option error) : M A (option error) :=
  if i <? attempts then
    match n with
    | O => ret err
    | S n' =>
        let* r := iteration i in
        match r with
        | (Some out, _) => ret out
        | (None, err') => loop n' (i + 1) err'
        end
    end
  else ret err.

Definition DoWithBackoff : M A (option error) :=
  loop (Z.to_nat attempts) 0 None.
End Loop.
End Backoff.
End utils.

(** ** Library functions the code calls

    Go's standard library and the packages the repository imports are not
    part of it.  What the code needs from them is collected here; the
    theorems hold for every implementation. *)

(** A parsed [mail.Message]: [Header.Get("Subject")] and the body. *)
Record Message := mkMessage {
  Header_Subject : string;
  msg_Body : Reader
}.

(** The JSON the identity provider answers with. *)
Record AuthTokenResponse := mkAuthTokenResponse {
  AccessToken : string;
  TokenType : string;
  ExpiresIn : Z
}.

Record EmailBody := mkEmailBody {
  ContentType : string;
  Content : string
}.

Record EmailAddress := mkEmailAddress {
  Address : string
}.

Record EmailMessage := mkEmailMessage {
  Subject : string;
  msgBody : EmailBody;
  From : EmailAddress;
  ToRecipients : list EmailAddress
}.

Record SendEmailRequest := mkSendEmailRequest {
  Message_ : EmailMessage
}.

(** [SendEmailErrorResponse.Error]. *)
Record SendEmailErrorResponse := mkSendEmailErrorResponse {
  Code : string;
  ErrMessage : string
}.

Class GoLib := {
  (* strings *)
  strings_EqualFold : string -> string -> bool;
  strings_ToLower : string -> string;
  (* golang.org/x/crypto/bcrypt *)
  bcrypt_CompareHashAndPassword : string -> string -> option error;
  (* net/mail, mime, bytes *)
  mail_ReadMessage : list Byte.byte -> error + Message;
  mime_DecodeHeader : string -> error + string;
  bytes_TrimSpace : list Byte.byte -> list Byte.byte;
  (* regexp, for the pattern (?mi)^Subject:\s*(.+)$ : the first
     submatch of the first match, and the input without the matches *)
  subjectRe_FindSubmatch : list Byte.byte -> option (list Byte.byte);
  subjectRe_ReplaceAll : list Byte.byte -> list Byte.byte;
  (* net/url, net/http *)
  url_Parse : string -> option error;
  url_PathEscape : string -> string;
  url_Encode : list (string * string) -> string;
  (* encoding/json *)
  json_Unmarshal_AuthTokenResponse : list Byte.byte -> error + AuthTokenResponse;
  json_Unmarshal_SendEmailErrorResponse : list Byte.byte -> error + SendEmailErrorResponse;
  json_Marshal_SendEmailRequest : SendEmailRequest -> error + list Byte.byte
}.

(** ** Strings and readers *)

Definition inCutset (cutset : string) (c : Ascii.ascii) : bool :=
  existsb (Ascii.eqb c) (list_ascii_of_string cutset).

Fixpoint TrimLeft (s cutset : string) : string :=
  match s with
  | EmptyString => EmptyString
  | String c rest => if inCutset cutset c then TrimLeft rest cutset else s
  end.

Fixpoint TrimRight (s cutset : string) : string :=
  match s with
  | EmptyString => EmptyString
  | String c rest =>
      match TrimRight rest cutset with
      | EmptyString => if inCutset cutset c then EmptyString else String c EmptyString
      | rest' => String c rest'
      end
  end.

(** [strings.Trim(s, cutset)] for a cut set of ASCII characters, where
    it works byte by byte. *)
Definition Trim (s cutset : string) : string :=
  TrimRight (TrimLeft s cutset) cutset.

(** [strings.HasSuffix]. *)
Definition HasSuffix (s suffix : string) : bool :=
  let n := String.length s in
  let k := String.length suffix in
  (k <=? n)%nat && String.eqb (substring (n - k) k s) suffix.

(** [len] of a string or a slice, as an [int]. *)
Definition len {T} (l : list T) : Z := Z.of_nat (length l).
Definition slen (s : string) : Z := Z.of_nat (String.length s).

(** [io.ReadAll(io.LimitReader(r, n))]: the bytes read, the error, and
    the reader as it is left.  The limited reader reports [io.EOF] once
    [n] bytes are through, without asking [r] again; [n <= 0] reads
    nothing. *)
Definition ReadAllLimit (r : Reader) (n : Z) : list Byte.byte * option error * Reader :=
  if n <=? 0 then ([], None, r)
  else if n <=? len (content r)
       then (take (Z.to_nat n) (content r), None,
             mkReader (drop (Z.to_nat n) (content r)) (rerr r))
       else (content r, rerr r, mkReader [] (rerr r)).

(** [io.ReadAll(r)]. *)
Definition ReadAll (r : Reader) : list Byte.byte * option error :=
  (content r, rerr r).

(** ** The Graph sender (pkg/sender/graph.go) *)

Module sender.

Record AuthToken := mkAuthToken {
  Token : string;
  ExpiresAt : Z
}.

(** The [Sender] interface over a store of type [A]. *)
Record Sender (A : Type) := mkSender {
  SendEmail_ : Context -> string -> list string -> string -> list Byte.byte -> M A (option error);
  Authenticate_ : Context -> M A (option error)
}.
Arguments SendEmail_ {A}.
Arguments Authenticate_ {A}.

(** [mu] orders concurrent writers and has no content here;
    [httpClient] is its [Timeout]. *)
Record GraphSender := mkGraphSender {
  token : option AuthToken;
  mailbox : string;
  tenantID : string;
  clientID : string;
  clientSecret : string;
  httpClient_Timeout : Z;
  retries : Z;
  backoff : Z
}.

Definition NewGraphSender (tenantID clientID clientSecret : string)
    (timeout retries backoff : Z) : GraphSender :=
  mkGraphSender None "" tenantID clientID clientSecret timeout retries backoff.

Definition setToken (t : option AuthToken) (gs : GraphSender) : GraphSender :=
  mkGraphSender t (mailbox gs) (tenantID gs) (clientID gs) (clientSecret gs)
                (httpClient_Timeout gs) (retries gs) (backoff gs).

Section Graph.
Context `{GoLib}.

(** [time.Until(t)]. *)
Definition Until {A} (t : Z) (w : World A) : Z := satSub t (now w).

(** [http.NewRequestWithContext]; the context travels as the instant the
    request is abandoned at. *)
Definition NewRequestWithContext (ctx : Context) (method url : string)
    (body : list Byte.byte) : error + HttpRequest :=
  match url_Parse url with
  | Some err => inl err
  | None => inr (mkRequest method url [] body (done_at ctx))
  end.

Definition Header_Set (k v : string) (req : HttpRequest) : HttpRequest :=
  mkRequest (req_method req) (req_url req)
            ((k, v) :: filter (fun kv => negb (String.eqb (fst kv) k)) (req_headers req))
            (req_body req) (req_deadline req).

(** [client.Do(req)] for a request built under [ctx]: the request goes
    out, and the next answer of the network comes back after its latency
    unless the context, or the client's own [Timeout], ends first. *)
Definition Do {A} (timeout : Z) (ctx : Context) (req : HttpRequest)
    : M A (error + HttpResponse) := fun w =>
  let ctx' := if 0 <? timeout then WithTimeout ctx timeout (now w) else ctx in
  let w := logRequest (mkRequest (req_method req) (req_url req) (req_headers req)
                                 (req_body req) (done_at ctx')) w in
  match net w with
  | [] => Ret (inl (ErrLibrary "no answer")) w
  | o :: os =>
      let w := setNet os w in
      let arrive := now w + Z.max 0 (latency o) in
      match done_at ctx' with
      | Some c =>
          if c <=? arrive then Ret (inl (cause ctx')) (setNow (Z.max c (now w)) w)
          else Ret (answer o) (setNow arrive w)
      | None => Ret (answer o) (setNow arrive w)
      end
  end.

Definition getAuthToken (ctx : Context) : M GraphSender (error + AuthToken) := fun w =>
  let gs := heap w in
  let apiUrl := "https://login.microsoftonline.com/" ++ tenantID gs ++ "/oauth2/v2.0/token" in
  let form := [ ("grant_type", "client_credentials");
                ("scope", "https://graph.microsoft.com/.default");
                ("client_id", clientID gs);
                ("client_secret", clientSecret gs) ] in
  match NewRequestWithContext ctx "POST" apiUrl (list_byte_of_string (url_Encode form)) with
  | inl err => Ret (inl err) w
  | inr req =>
      let req := Header_Set "Content-Type" "application/x-www-form-urlencoded" req in
      (let* resp := Do (httpClient_Timeout gs) ctx req in
       match resp with
       | inl err => ret (inl err)
       | inr resp =>
           if negb (StatusCode resp =? 200)
           then ret (inl (Errorf "failed to get access token: %s" (Status resp)))
           else
             match ReadAllLimit (Body resp) (Z.shiftl 1 20) with
             | (_, Some err, _) => ret (inl err)
             | (body, None, _) =>
                 match json_Unmarshal_AuthTokenResponse body with
                 | inl err => ret (inl err)
                 | inr tokenResp =>
                     fun w => Ret (inr (mkAuthToken (AccessToken tokenResp)
                                          (now w + mul64 (ExpiresIn tokenResp) Second))) w
                 end
             end
       end) w
  end.

Definition getAuthTokenWithTimeout (ctx : Context) (timeout : Z)
    : M GraphSender (error + AuthToken) := fun w =>
  let ctxWithTimeout := WithTimeout ctx timeout (now w) in
  getAuthToken ctxWithTimeout w.

Definition Authenticate (ctx : Context) : M GraphSender (option error) := fun w =>
  let gs := heap w in
  if match token gs with
     | Some tok => 1 * Minute <? Until (ExpiresAt tok) w
     | None => false
     end
  then Ret None w
  else
    (let* r := getAuthTokenWithTimeout ctx (10 * Second) in
     match r with
     | inl err => ret (Some (Wrapf "authentication failed: %w" err))
     | inr tok => fun w => Ret None (setHeap (setToken (Some tok) (heap w)) w)
     end) w.

Definition makeEmailRequest (from : string) (to : list string) (subject : string)
    (body : list Byte.byte) : SendEmailRequest :=
  mkSendEmailRequest
    (mkEmailMessage subject
       (mkEmailBody "HTML" (string_of_list_byte body))
       (mkEmailAddress from)
       (map mkEmailAddress to)).

Definition sendEmailOnce (ctx : Context) (from : string) (to : list string)
    (subject : string) (body : list Byte.byte) : M GraphSender (option error) :=
  let* err := Authenticate ctx in
  match err with
  | Some err => ret (Some (Wrapf "authentication failed: %w" err))
  | None => fun w =>
      let gs := heap w in
      let from := if negb (String.eqb (mailbox gs) "") then mailbox gs else from in
      let apiUrl := "https://graph.microsoft.com/v1.0/users/" ++ url_PathEscape from ++ "/sendMail" in
      let emailReq := makeEmailRequest from to subject body in
      match json_Marshal_SendEmailRequest emailReq with
      | inl err => Ret (Some (Wrapf "failed to marshal email request: %w" err)) w
      | inr emailReqData =>
          match NewRequestWithContext ctx "POST" apiUrl emailReqData with
          | inl err => Ret (Some err) w
          | inr req =>
              match token gs with
              | None => Panic "invalid memory address or nil pointer dereference" w
              | Some tok =>
                  let req := Header_Set "Authorization" ("Bearer " ++ Token tok) req in
                  let req := Header_Set "Content-Type" "application/json" req in
                  (let* resp := Do (httpClient_Timeout gs) ctx req in
                   match resp with
                   | inl err => ret (Some (Wrapf "failed to send email: %w" err))
                   | inr resp =>
                       match ReadAllLimit (Body resp) (Z.shiftl 10 20) with
                       | (_, Some err, _) =>
                           ret (Some (Wrapf "failed to read email send response: %w" err))
                       | (respData, None, _) =>
                           if negb (StatusCode resp =? 202) then
                             match json_Unmarshal_SendEmailErrorResponse respData with
                             | inl _ => ret (Some (Errorf "failed to send email: %s" (Status resp)))
                             | inr errorResp =>
                                 ret (Some (Errorf2 "failed to send email (%s): %s"
                                              (Code errorResp) (ErrMessage errorResp)))
                             end
                           else ret None
                       end
                   end) w
              end
          end
      end
  end.

Definition SendEmail (ctx : Context) (from : string) (to : list string)
    (subject : string) (body : list Byte.byte) : M GraphSender (option error) := fun w =>
  utils.DoWithBackoff ctx (sendEmailOnce ctx from to subject body)
    (retries (heap w)) (backoff (heap w)) w.

(** [*GraphSender] as a [Sender]. *)
Definition GraphSender_Sender : Sender GraphSender :=
  mkSender GraphSender SendEmail Authenticate.

End Graph.
End sender.

(** ** Configuration (pkg/config) *)

Module config.

Definition AuthMode : Type := string.
Definition AuthDisabled : AuthMode := "disabled".
Definition AuthAnonymous : AuthMode := "anonymous".
Definition AuthPlain : AuthMode := "plain".
Definition AuthPlainAny : AuthMode := "plain-any".

Record Credential := mkCredential {
  Username : string;
  Password : string
}.

Record AuthRule := mkAuthRule {
  Mode : AuthMode;
  Credentials : list Credential
}.

Record MailPolicy := mkMailPolicy {
  Addresses : list string;
  Domains : list string
}.

Record RecvLimits := mkRecvLimits {
  MaxSize : Z;
  MaxRecipients : Z;
  Timeout : Z
}.

(** The fields the session reads; the allow-list of networks is used by
    the listener only. *)
Record RecvGlobalConfig := mkRecvGlobalConfig {
  Domain : string;
  Auth : AuthRule;
  Authenticator : auth.Authenticator;
  ValidFrom : MailPolicy;
  ValidTo : MailPolicy;
  Limits : RecvLimits
}.

Record ListenerConfig := mkListenerConfig {
  Name : string;
  Port : Z;
  Type_ : string;
  RequireAuth : bool
}.

Record SendConfig (A : Type) := mkSendConfig {
  Sender : sender.Sender A
}.
Arguments Sender {A}.

End config.

(** ** The session (pkg/receiver/session.go) *)

Module receiver.

Definition sasl_Plain : string := "PLAIN".
Definition sasl_Anonymous : string := "ANONYMOUS".

(** The [sasl.Server] that [Auth] hands back: it calls [authAnonymous]
    or [authPlain] once the client has sent its response. *)
Inductive saslServer : Type :=
  | AnonymousServer
  | PlainServer.

Record Session (A : Type) := mkSession {
  ctx : Context;
  id : string;
  configListener : config.ListenerConfig;
  configSender : config.SendConfig A;
  configGlobal : config.RecvGlobalConfig;
  remote : string;
  authenticated : bool;
  emailSubject : string;
  emailFrom : string;
  emailTo : list string;
  emailBody : list Byte.byte
}.
Arguments mkSession {A}.
Arguments ctx {A}.
Arguments id {A}.
Arguments configListener {A}.
Arguments configSender {A}.
Arguments configGlobal {A}.
Arguments remote {A}.
Arguments authenticated {A}.
Arguments emailSubject {A}.
Arguments emailFrom {A}.
Arguments emailTo {A}.
Arguments emailBody {A}.

Section Session.
Context `{GoLib}.
Context {A : Type}.

Definition setAuthenticated (b : bool) (s : Session A) : Session A :=
  mkSession (ctx s) (id s) (configListener s) (configSender s) (configGlobal s)
            (remote s) b (emailSubject s) (emailFrom s) (emailTo s) (emailBody s).
Definition setEmailSubject (v : string) (s : Session A) : Session A :=
  mkSession (ctx s) (id s) (configListener s) (configSender s) (configGlobal s)
            (remote s) (authenticated s) v (emailFrom s) (emailTo s) (emailBody s).
Definition setEmailFrom (v : string) (s : Session A) : Session A :=
  mkSession (ctx s) (id s) (configListener s) (configSender s) (configGlobal s)
            (remote s) (authenticated s) (emailSubject s) v (emailTo s) (emailBody s).
Definition setEmailTo (v : list string) (s : Session A) : Session A :=
  mkSession (ctx s) (id s) (configListener s) (configSender s) (configGlobal s)
            (remote s) (authenticated s) (emailSubject s) (emailFrom s) v (emailBody s).
Definition setEmailBody (v : list Byte.byte) (s : Session A) : Session A :=
  mkSession (ctx s) (id s) (configListener s) (configSender s) (configGlobal s)
            (remote s) (authenticated s) (emailSubject s) (emailFrom s) (emailTo s) v.

(** The [Session] literal that [Listener.NewSession] returns for an
    admitted connection. *)
Definition newSession (lctx : Context) (id remote : string)
    (cl : config.ListenerConfig) (cs : config.SendConfig A)
    (cg : config.RecvGlobalConfig) : Session A :=
  mkSession lctx id cl cs cg remote false "" "" [] [].

Definition AuthMechanisms (s : Session A) : list string :=
  if negb (config.RequireAuth (configListener s)) then []
  else
    let mode := config.Mode (config.Auth (configGlobal s)) in
    if String.eqb mode config.AuthDisabled then []
    else if String.eqb mode config.AuthPlainAny then [sasl_Plain]
    else if String.eqb mode config.AuthPlain then [sasl_Plain]
    else if String.eqb mode config.AuthAnonymous then [sasl_Anonymous]
    else [].

Definition authPlain (s : Session A) (identity username password : string)
    : option error * Session A :=
  if auth.Check bcrypt_CompareHashAndPassword
       (config.Authenticator (configGlobal s)) username password
  then (None, setAuthenticated true s)
  else (Some ErrAuthFailed, s).

Definition authAnonymous (s : Session A) (identity : string)
    : option error * Session A :=
  (None, setAuthenticated true s).

Definition Auth (s : Session A) (mech : string) (w : World A)
    : option saslServer * option error :=
  match Err (ctx s) (now w) with
  | Some _ => (None, Some ErrServerClosed)
  | None =>
      let mechs := AuthMechanisms s in
      if negb (existsb (String.eqb mech) mechs) then (None, Some ErrAuthUnsupported)
      else if String.eqb mech sasl_Anonymous then (Some AnonymousServer, None)
      else if String.eqb mech sasl_Plain then (Some PlainServer, None)
      else (None, Some ErrAuthUnsupported)
  end.

(** The two loops over a policy's addresses and domains; each [break]s
    at its first hit. *)
Definition policyValid (p : config.MailPolicy) (addr : string) : bool :=
  existsb (fun a => strings_EqualFold addr a) (config.Addresses p)
  || existsb (fun dom => HasSuffix (strings_ToLower addr) ("@" ++ strings_ToLower dom))
             (config.Domains p).

Definition policySet (p : config.MailPolicy) : bool :=
  (0 <? len (config.Addresses p)) || (0 <? len (config.Domains p)).

Definition Mail (s : Session A) (from : string) (w : World A)
    : option error * Session A :=
  if config.RequireAuth (configListener s) && negb (authenticated s)
  then (Some ErrAuthRequired, s)
  else
    match Err (ctx s) (now w) with
    | Some _ => (Some ErrServerClosed, s)
    | None =>
        let from := Trim from "<>" in
        if slen from =? 0 then (Some ErrInvalidEmail, s)
        else if policySet (config.ValidFrom (configGlobal s))
                && negb (policyValid (config.ValidFrom (configGlobal s)) from)
        then (Some ErrFromDisallowed, s)
        else (None, setEmailFrom from s)
    end.

Definition Rcpt (s : Session A) (to : string) (w : World A)
    : option error * Session A :=
  if config.RequireAuth (configListener s) && negb (authenticated s)
  then (Some ErrAuthRequired, s)
  else
    match Err (ctx s) (now w) with
    | Some _ => (Some ErrServerClosed, s)
    | None =>
        let to := Trim to "<>" in
        if slen to =? 0 then (Some ErrInvalidEmail, s)
        else if policySet (config.ValidTo (configGlobal s))
                && negb (policyValid (config.ValidTo (configGlobal s)) to)
        then (Some ErrToDisallowed, s)
        else if len (emailTo s) >=? config.MaxRecipients (config.Limits (configGlobal s))
        then (Some ErrTooManyRecipients, s)
        else (None, setEmailTo (emailTo s ++ [to]) s)
    end.

(** The part of [Data] after the size check: subject and body are taken
    from the message, which is then handed to the sender. *)
Definition deliver (s : Session A) (data : list Byte.byte)
    : M A (option error * Session A) :=
  let s :=
    match mail_ReadMessage data with
    | inl _ =>
        match subjectRe_FindSubmatch data with
        | Some m1 =>
            let subject := string_of_list_byte (bytes_TrimSpace m1) in
            let subject := match mime_DecodeHeader subject with
                           | inr decoded => decoded
                           | inl _ => subject
                           end in
            setEmailBody (subjectRe_ReplaceAll data) (setEmailSubject subject s)
        | None => setEmailBody data (setEmailSubject "(no subject)" s)
        end
    | inr msg =>
        let subject := Header_Subject msg in
        let subject :=
          if negb (String.eqb subject "") then
            match mime_DecodeHeader subject with
            | inr decoded => decoded
            | inl _ => subject
            end
          else "(no subject)" in
        let s := match ReadAll (msg_Body msg) with
                 | (_, Some _) => setEmailBody data s
                 | (bodyBytes, None) => setEmailBody bodyBytes s
                 end in
        setEmailSubject subject s
    end in
  let* err := sender.SendEmail_ (config.Sender (configSender s))
                (ctx s) (emailFrom s) (emailTo s) (emailSubject s) (emailBody s) in
  ret (err, s).

(** [Data] also gives back the reader as it leaves it. *)
Definition Data (s : Session A) (r : Reader) : M A (option error * Session A * Reader) :=
  fun w =>
  if config.RequireAuth (configListener s) && negb (authenticated s)
  then Ret (Some ErrAuthRequired, s, r) w
  else
    match Err (ctx s) (now w) with
    | Some _ => Ret (Some ErrServerClosed, s, r) w
    | None =>
        let maxSize := config.MaxSize (config.Limits (configGlobal s)) in
        match ReadAllLimit r (add64 maxSize 1) with
        | (_, Some err, r') => Ret (Some err, s, r') w
        | (data, None, r') =>
            if len data >? maxSize then Ret (Some ErrDataTooLarge, s, r') w
            else (let* res := deliver s data in ret (res, r')) w
        end
    end.

Definition Reset (s : Session A) : Session A :=
  setEmailBody [] (setEmailTo [] (setEmailFrom "" s)).

Definition Logout (s : Session A) : option error := None.

(** The commands of a connection, and the session after a run of them.
    [CAuth] stands for [Auth] followed by the client's response to the
    server it got. *)
Inductive command : Type :=
  | CAuth (mech identity username password : string)
  | CMail (from : string)
  | CRcpt (to : string)
  | CReset.

Definition step (s : Session A) (c : command) (w : World A) : Session A :=
  match c with
  | CAuth mech identity username password =>
      match Auth s mech w with
      | (Some AnonymousServer, _) => snd (authAnonymous s identity)
      | (Some PlainServer, _) => snd (authPlain s identity username password)
      | (None, _) => s
      end
  | CMail from => snd (Mail s from w)
  | CRcpt to => snd (Rcpt s to w)
  | CReset => Reset s
  end.

(** Each command runs at its own instant of the world. *)
Fixpoint run (s : Session A) (cs : list (command * World A)) : Session A :=
  match cs with
  | [] => s
  | (c, w) :: cs' => run (step s c w) cs'
  end.

(** A recipient that [Rcpt] lets through to the limit check. *)
Definition admissible (s : Session A) (to : string) (w : World A) : bool :=
  negb (config.RequireAuth (configListener s) && negb (authenticated s))
  && match Err (ctx s) (now w) with Some _ => false | None => true end
  && negb (slen (Trim to "<>") =? 0)
  && negb (policySet (config.ValidTo (configGlobal s))
           && negb (policyValid (config.ValidTo (configGlobal s)) (Trim to "<>"))).

(** [Rcpt] for each of the addresses in turn: the errors and the session
    at the end. *)
Fixpoint RcptAll (s : Session A) (tos : list (string * World A))
    : list (option error) * Session A :=
  match tos with
  | [] => ([], s)
  | (to, w) :: rest =>
      let '(e, s') := Rcpt s to w in
      let '(es, s'') := RcptAll s' rest in
      (e :: es, s'')
  end.

End Session.
End receiver.

(** ** Instances to run the model on *)

Module scenario.

Definition lowerAscii (c : Ascii.ascii) : Ascii.ascii :=
  let n := Ascii.nat_of_ascii c in
  if (65 <=? n)%nat && (n <=? 90)%nat then Ascii.ascii_of_nat (n + 32) else c.

Fixpoint lower (s : string) : string :=
  match s with
  | EmptyString => EmptyString
  | String c rest => String (lowerAscii c) (lower rest)
  end.

(** A small implementation of the library interface: case folding on
    ASCII letters, a password check against a fixed prefix, no message
    parser, no JSON. *)
Definition lib : GoLib := {|
  strings_EqualFold := fun a b => String.eqb (lower a) (lower b);
  strings_ToLower := lower;
  bcrypt_CompareHashAndPassword := fun hash password =>
    if String.eqb hash ("$2a$" ++ password) then None
    else Some (ErrLibrary "hashedPassword is not the hash of the given password");
  mail_ReadMessage := fun _ => inl (ErrLibrary "malformed header");
  mime_DecodeHeader := fun s => inr s;
  bytes_TrimSpace := fun b => b;
  subjectRe_FindSubmatch := fun _ => None;
  subjectRe_ReplaceAll := fun b => b;
  url_Parse := fun _ => None;
  url_PathEscape := fun s => s;
  url_Encode := fun kvs => String.concat "&" (map (fun kv => fst kv ++ "=" ++ snd kv) kvs);
  json_Unmarshal_AuthTokenResponse := fun _ => inl (ErrLibrary "unexpected end of JSON input");
  json_Unmarshal_SendEmailErrorResponse := fun _ => inl (ErrLibrary "unexpected end of JSON input");
  json_Marshal_SendEmailRequest := fun _ => inr []
|}.

(** An operation as a test writes it: a closure over a counter of its
    calls, whose [k]-th call (from 0) returns [script k] and takes no
    time. *)
Definition counting (script : nat -> option error) : M nat (option error) :=
  fun w => Ret (script (heap w)) (setHeap (S (heap w)) w).

Definition boom : error := ErrLibrary "boom".

Definition alwaysFails : nat -> option error := fun _ => Some boom.

Definition failsTwice : nat -> option error :=
  fun k => match k with
           | 0%nat | 1%nat => Some boom
           | _ => None
           end.

(** A world at instant [t] with nothing scheduled. *)
Definition quiet {A} (t : Z) (h : A) : World A := mkWorld t [] [] [] [] [] h.

(** A sender that accepts every message at once. *)
Definition nullSender : sender.Sender unit :=
  sender.mkSender unit (fun _ _ _ _ _ => ret None) (fun _ => ret None).

Definition listener (requireAuth : bool) : config.ListenerConfig :=
  config.mkListenerConfig "server-587" 587 "starttls" requireAuth.

Definition global (maxSize maxRecipients : Z) : config.RecvGlobalConfig :=
  config.mkRecvGlobalConfig "mail.example.local"
    (config.mkAuthRule config.AuthPlain [config.mkCredential "alice" "Passw0rd1"])
    (auth.NewAuthenticatorPlaintext {[ "alice" := "Passw0rd1" ]})
    (config.mkMailPolicy [] []) (config.mkMailPolicy [] [])
    (config.mkRecvLimits maxSize maxRecipients (10 * Second)).

(** A session as the listener creates it. *)
Definition session (lctx : Context) (requireAuth : bool) (maxSize maxRecipients : Z)
    : receiver.Session unit :=
  receiver.newSession lctx "6f1c" "192.0.2.7:50211" (listener requireAuth)
    (config.mkSendConfig unit nullSender) (global maxSize maxRecipients).

Definition graph : sender.GraphSender :=
  sender.NewGraphSender "tenant" "client" "secret" (10 * Second) 3 (5 * Second).

End scenario.

(** ** Networks (package net) *)

Module net.

(** [net.IP] and [net.IPMask] are byte slices. *)
Definition IP : Type := list Byte.byte.
Definition IPMask : Type := list Byte.byte.

Record IPNet := mkIPNet {
  IP_ : IP;
  Mask : IPMask
}.

(** A [net.Addr]: a [*net.TCPAddr], or an address of another kind. *)
Inductive Addr : Type :=
  | TCPAddr (ip : IP) (port : Z)
  | OtherAddr (text : string).

End net.

(** What the code needs from package [net], and [strings.TrimSpace]. *)
Class NetLib := {
  net_ParseIP : string -> option net.IP;
  net_To4 : net.IP -> option net.IP;
  net_CIDRMask : Z -> Z -> net.IPMask;
  net_IP_Mask : net.IP -> net.IPMask -> net.IP;
  net_ParseCIDR : string -> error + (net.IP * net.IPNet);
  net_Contains : net.IPNet -> net.IP -> bool;
  net_IPv4zero : net.IP;
  net_IPv6zero : net.IP;
  net_Addr_String : net.Addr -> string;
  strings_TrimSpace : string -> string
}.

(** ** Parsing (pkg/config/parse.go) *)

Module parse.

(** [strings.Index(s, substr)]: where [substr] first starts in [s], or -1. *)
Fixpoint Index (s substr : string) : Z :=
  if String.prefix substr s then 0
  else match s with
       | EmptyString => -1
       | String _ rest =>
           let k := Index rest substr in
           if k =? -1 then -1 else k + 1
       end.

(** [strings.Contains]. *)
Definition Contains (s substr : string) : bool := 0 <=? Index s substr.

Definition isValidEmail (email : string) : bool :=
  if (slen email <? 3) || (slen email >? 254) then false
  else
    let at_ := Index email "@" in
    if (at_ =? -1) || (at_ =? 0) || (at_ =? slen email - 1) then false
    else true.

Definition isValidDomain (domain : string) : bool :=
  if (slen domain <? 1) || (slen domain >? 253) then false
  else if negb (Contains domain ".") then false
  else true.

Section ParseNet.
Context `{NetLib}.

Definition ParseNet (s : string) : error + net.IPNet :=
  let s := strings_TrimSpace s in
  if String.eqb s "" then inl (Errorf "empty address or CIDR" "")
  else
    match net_ParseIP s with
    | Some ip =>
        match net_To4 ip with
        | Some ip4 =>
            let mask := net_CIDRMask 32 32 in
            inr (net.mkIPNet (net_IP_Mask ip4 mask) mask)
        | None =>
            let mask := net_CIDRMask 128 128 in
            inr (net.mkIPNet (net_IP_Mask ip mask) mask)
        end
    | None =>
        match net_ParseCIDR s with
        | inl err => inl err
        | inr (ip, ipnet) =>
            inr (net.mkIPNet (net_IP_Mask ip (net.Mask ipnet)) (net.Mask ipnet))
        end
    end.

End ParseNet.
End parse.

(** ** Validation (pkg/config/config.go) *)

Module validate.

Definition ListenerSMTP : string := "smtp".
Definition ListenerSMTPS : string := "smtps".
Definition ListenerSTARTTLS : string := "starttls".

Record TLSConfig := mkTLSConfig {
  CertFile : string;
  KeyFile : string
}.

(** A [ListenerConfig] with its [TLS] field. *)
Record Listener := mkListener {
  base : config.ListenerConfig;
  TLS : option TLSConfig
}.

(** [RecvConfig]: the global part, its allow-list as written and as
    parsed, and the listeners.  [Validate] reads and writes nothing else
    of a [Config]. *)
Record RecvConfig := mkRecvConfig {
  Global : config.RecvGlobalConfig;
  AllowedIPs : list string;
  AllowedNets : list net.IPNet;
  Listeners : list Listener
}.

(** The errors of [Validate], one constructor for each message, with the
    values the message prints. *)
Inductive verror : Type :=
  | NoListeners
  | NameMissing (i : nat)
  | NameDuplicate (i : nat) (name : string) (other : nat)
  | PortInvalid (i : nat) (port : Z)
  | PortDuplicate (i : nat) (port : Z) (other : string)
  | TLSMissing (i : nat) (type : string)
  | TypeInvalid (i : nat) (type : string)
  | CredentialsMissing
  | CredentialIncomplete (i : nat)
  | ModeInvalid (mode : string)
  | EntryEmpty (field : string) (i : nat)
  | EntryInvalid (field : string) (i : nat) (entry : string)
  | AllowedIPEmpty (i : nat)
  | AllowedIPInvalid (i : nat) (ip : string) (err : error)
  | MaxSizeNegative (v : Z)
  | MaxRecipientsNegative (v : Z)
  | TimeoutNegative (v : Z).

Definition setAuthenticator (a : auth.Authenticator) (g : config.RecvGlobalConfig)
    : config.RecvGlobalConfig :=
  config.mkRecvGlobalConfig (config.Domain g) (config.Auth g) a
    (config.ValidFrom g) (config.ValidTo g) (config.Limits g).

Definition setLimits (l : config.RecvLimits) (g : config.RecvGlobalConfig)
    : config.RecvGlobalConfig :=
  config.mkRecvGlobalConfig (config.Domain g) (config.Auth g) (config.Authenticator g)
    (config.ValidFrom g) (config.ValidTo g) l.

Definition setGlobal (g : config.RecvGlobalConfig) (c : RecvConfig) : RecvConfig :=
  mkRecvConfig g (AllowedIPs c) (AllowedNets c) (Listeners c).

Definition setAllowedNets (n : list net.IPNet) (c : RecvConfig) : RecvConfig :=
  mkRecvConfig (Global c) (AllowedIPs c) n (Listeners c).

(** The loop over the listeners, from index [i] on. *)
Fixpoint checkListeners (ls : list Listener) (i : nat)
    (seenNames : gmap string nat) (seenPorts : gmap Z string) : option verror :=
  match ls with
  | [] => None
  | listener :: rest =>
      let name := config.Name (base listener) in
      let port := config.Port (base listener) in
      let type := config.Type_ (base listener) in
      if String.eqb name "" then Some (NameMissing i)
      else
        match seenNames !! name with
        | Some other => Some (NameDuplicate i name other)
        | None =>
            let seenNames := <[name := i]> seenNames in
            if port =? 0 then Some (PortInvalid i port)
            else
              match seenPorts !! port with
              | Some other => Some (PortDuplicate i port other)
              | None =>
                  let seenPorts := <[port := name]> seenPorts in
                  if String.eqb type ListenerSMTP
                  then checkListeners rest (S i) seenNames seenPorts
                  else if String.eqb type ListenerSMTPS || String.eqb type ListenerSTARTTLS
                  then
                    match TLS listener with
                    | None => Some (TLSMissing i type)
                    | Some tls =>
                        if String.eqb (CertFile tls) "" || String.eqb (KeyFile tls) ""
                        then Some (TLSMissing i type)
                        else checkListeners rest (S i) seenNames seenPorts
                    end
                  else Some (TypeInvalid i type)
              end
        end
  end.

(** The loop that fills the credentials map. *)
Fixpoint fillCreds (cs : list config.Credential) (i : nat) (creds : gmap string string)
    : verror + gmap string string :=
  match cs with
  | [] => inr creds
  | cred :: rest =>
      if String.eqb (config.Username cred) "" || String.eqb (config.Password cred) ""
      then inl (CredentialIncomplete i)
      else fillCreds rest (S i) (<[config.Username cred := config.Password cred]> creds)
  end.

(** One of the four loops over the entries of a mail policy. *)
Fixpoint checkEntries (field : string) (valid : string -> bool)
    (entries : list string) (i : nat) : option verror :=
  match entries with
  | [] => None
  | entry :: rest =>
      if String.eqb entry "" then Some (EntryEmpty field i)
      else if negb (valid entry) then Some (EntryInvalid field i entry)
      else checkEntries field valid rest (S i)
  end.

Section Validate.
Context `{NetLib}.

(** The loop over [AllowedIPs]; each network is appended as it is
    parsed. *)
Fixpoint parseAllowed (ips : list string) (i : nat) (nets : list net.IPNet)
    : option verror * list net.IPNet :=
  match ips with
  | [] => (None, nets)
  | ip :: rest =>
      if String.eqb ip "" then (Some (AllowedIPEmpty i), nets)
      else
        match parse.ParseNet ip with
        | inl err => (Some (AllowedIPInvalid i ip err), nets)
        | inr n => parseAllowed rest (S i) (nets ++ [n])
        end
  end.

Definition validateAuth (c : RecvConfig) : option verror * RecvConfig :=
  let mode := config.Mode (config.Auth (Global c)) in
  if String.eqb mode config.AuthDisabled || String.eqb mode config.AuthAnonymous
     || String.eqb mode config.AuthPlainAny
  then (None, setGlobal (setAuthenticator auth.NewAuthenticatorAlwaysAllow (Global c)) c)
  else if String.eqb mode config.AuthPlain then
    if len (config.Credentials (config.Auth (Global c))) =? 0
    then (Some CredentialsMissing, c)
    else
      match fillCreds (config.Credentials (config.Auth (Global c))) 0 ∅ with
      | inl e => (Some e, c)
      | inr creds =>
          (None, setGlobal (setAuthenticator (auth.NewAuthenticatorPlaintext creds) (Global c)) c)
      end
  else (Some (ModeInvalid mode), c).

Definition validatePolicy (c : RecvConfig) : option verror :=
  let g := Global c in
  match checkEntries "recv.valid_from.addresses" parse.isValidEmail
          (config.Addresses (config.ValidFrom g)) 0 with
  | Some e => Some e
  | None =>
  match checkEntries "recv.valid_from.domains" parse.isValidDomain
          (config.Domains (config.ValidFrom g)) 0 with
  | Some e => Some e
  | None =>
  match checkEntries "recv.valid_to.addresses" parse.isValidEmail
          (config.Addresses (config.ValidTo g)) 0 with
  | Some e => Some e
  | None =>
      checkEntries "recv.valid_to.domains" parse.isValidDomain
        (config.Domains (config.ValidTo g)) 0
  end end end.

Definition validateAllowed (c : RecvConfig) : option verror * RecvConfig :=
  if 0 <? len (AllowedIPs c) then
    let '(e, nets) := parseAllowed (AllowedIPs c) 0 (AllowedNets c) in
    (e, setAllowedNets nets c)
  else
    (None, setAllowedNets
             [ net.mkIPNet net_IPv4zero (net_CIDRMask 0 32);
               net.mkIPNet net_IPv6zero (net_CIDRMask 0 128) ] c).

Definition validateLimits (c : RecvConfig) : option verror * RecvConfig :=
  let l := config.Limits (Global c) in
  if config.MaxSize l <? 0 then (Some (MaxSizeNegative (config.MaxSize l)), c)
  else
    let maxSize := if config.MaxSize l =? 0 then 25 * 1024 * 1024 else config.MaxSize l in
    let l := config.mkRecvLimits maxSize (config.MaxRecipients l) (config.Timeout l) in
    let c := setGlobal (setLimits l (Global c)) c in
    if config.MaxRecipients l <? 0
    then (Some (MaxRecipientsNegative (config.MaxRecipients l)), c)
    else
      let maxRecipients := if config.MaxRecipients l =? 0 then 100 else config.MaxRecipients l in
      let l := config.mkRecvLimits (config.MaxSize l) maxRecipients (config.Timeout l) in
      let c := setGlobal (setLimits l (Global c)) c in
      if config.Timeout l <? 0 then (Some (TimeoutNegative (config.Timeout l)), c)
      else
        let timeout := if config.Timeout l =? 0 then 10 * Second else config.Timeout l in
        let l := config.mkRecvLimits (config.MaxSize l) (config.MaxRecipients l) timeout in
        (None, setGlobal (setLimits l (Global c)) c).

(** [Config.Validate]: the error, and the configuration as the call
    leaves it. *)
Definition Validate (c : RecvConfig) : option verror * RecvConfig :=
  if len (Listeners c) =? 0 then (Some NoListeners, c)
  else
    match checkListeners (Listeners c) 0 ∅ ∅ with
    | Some e => (Some e, c)
    | None =>
        match validateAuth c with
        | (Some e, c) => (Some e, c)
        | (None, c) =>
            match validatePolicy c with
            | Some e => (Some e, c)
            | None =>
                match validateAllowed c with
                | (Some e, c) => (Some e, c)
                | (None, c) => validateLimits c
                end
            end
        end
    end.

End Validate.
End validate.

(** ** The listener (pkg/receiver/listener.go) *)

Module listener.

(** The allow-list is [configGlobal.AllowedNets] in the source. *)
Record Listener (A : Type) := mkListener {
  ctx : Context;
  configListener : config.ListenerConfig;
  configSender : config.SendConfig A;
  configGlobal : config.RecvGlobalConfig;
  AllowedNets : list net.IPNet
}.
Arguments mkListener {A}.
Arguments ctx {A}.
Arguments configListener {A}.
Arguments configSender {A}.
Arguments configGlobal {A}.
Arguments AllowedNets {A}.

Section NewSession.
Context `{NetLib}.
Context {A : Type}.

Definition NewListener (lctx : Context) (cl : config.ListenerConfig)
    (cs : config.SendConfig A) (v : validate.RecvConfig) : Listener A :=
  mkListener lctx cl cs (validate.Global v) (validate.AllowedNets v).

(** [NewSession] for a connection from [raddr]; [newRandom] is what
    [uuid.NewRandom()] gives if it is called. *)
Definition NewSession (l : Listener A) (raddr : net.Addr) (newRandom : error + string)
    : error + receiver.Session A :=
  match raddr with
  | net.OtherAddr _ => inl ErrSourceIPInvalid
  | net.TCPAddr ip _ =>
      let allowed :=
        if 0 <? len (AllowedNets l)
        then existsb (fun a => net_Contains a ip) (AllowedNets l)
        else true in
      if negb allowed then inl ErrSourceIPDisallowed
      else
        match newRandom with
        | inl err => inl err
        | inr id =>
            inr (receiver.newSession (ctx l) id (net_Addr_String raddr)
                   (configListener l) (configSender l) (configGlobal l))
        end
  end.

End NewSession.
End listener.

(** ** More instances to run the model on *)

Module fixtures.

Definition digit (b : Byte.byte) : option Z :=
  let n := Z.of_N (Byte.to_N b) in
  if (48 <=? n) && (n <=? 57) then Some (n - 48) else None.

(** The number a body spells in decimal digits, other bytes skipped. *)
Definition decimal (body : list Byte.byte) : Z :=
  fold_left (fun acc b => match digit b with
                          | Some d => 10 * acc + d
                          | None => acc
                          end) body 0.

(** [scenario.lib] with a token decoder: the token is ["tok"], its
    lifetime the number in the body. *)
Definition web : GoLib := {|
  strings_EqualFold := @strings_EqualFold scenario.lib;
  strings_ToLower := @strings_ToLower scenario.lib;
  bcrypt_CompareHashAndPassword := @bcrypt_CompareHashAndPassword scenario.lib;
  mail_ReadMessage := @mail_ReadMessage scenario.lib;
  mime_DecodeHeader := @mime_DecodeHeader scenario.lib;
  bytes_TrimSpace := @bytes_TrimSpace scenario.lib;
  subjectRe_FindSubmatch := @subjectRe_FindSubmatch scenario.lib;
  subjectRe_ReplaceAll := @subjectRe_ReplaceAll scenario.lib;
  url_Parse := @url_Parse scenario.lib;
  url_PathEscape := @url_PathEscape scenario.lib;
  url_Encode := @url_Encode scenario.lib;
  json_Unmarshal_AuthTokenResponse :=
    fun body => inr (mkAuthTokenResponse "tok" "Bearer" (decimal body));
  json_Unmarshal_SendEmailErrorResponse := @json_Unmarshal_SendEmailErrorResponse scenario.lib;
  json_Marshal_SendEmailRequest := @json_Marshal_SendEmailRequest scenario.lib
|}.

(** An answer of the network after 5ns. *)
Definition answered (status : Z) (text : string) (body : string) : HttpOutcome :=
  mkOutcome 5 (inr (mkResponse status text (mkReader (list_byte_of_string body) None))).

(** A sender that holds a token. *)
Definition withToken (expiresAt : Z) : sender.GraphSender :=
  sender.setToken (Some (sender.mkAuthToken "cached" expiresAt)) scenario.graph.

(** A world at instant [t] in which the network has [answers] coming. *)
Definition online {A} (t : Z) (answers : list HttpOutcome) (h : A) : World A :=
  mkWorld t [] [] answers [] [] h.

(** The world a run leaves. *)
Definition after {A R} (r : Result A R) : World A :=
  match r with
  | Ret _ w => w
  | Panic _ w => w
  end.

Definition byteEq (a b : Byte.byte) : bool := N.eqb (Byte.to_N a) (Byte.to_N b).

(** A [NetLib] that parses nothing and takes a network to contain the
    one address it is written with. *)
Definition netlib : NetLib := {|
  net_ParseIP := fun _ => None;
  net_To4 := fun ip => if (length ip =? 4)%nat then Some ip else None;
  net_CIDRMask := fun ones bits => (repeat Byte.xff (Z.to_nat (ones / 8))
                                    ++ repeat Byte.x00 (Z.to_nat ((bits - ones) / 8)))%list;
  net_IP_Mask := fun ip _ => ip;
  net_ParseCIDR := fun _ => inl (ErrLibrary "invalid CIDR address");
  net_Contains := fun n ip =>
    (length (net.IP_ n) =? length ip)%nat
    && forallb (fun p => byteEq (fst p) (snd p)) (combine (net.IP_ n) ip);
  net_IPv4zero := repeat Byte.x00 4;
  net_IPv6zero := repeat Byte.x00 16;
  net_Addr_String := fun a => match a with
                              | net.TCPAddr _ _ => "tcp"
                              | net.OtherAddr text => text
                              end;
  strings_TrimSpace := fun s => s
|}.

(** A configuration as the README gives it, before validation. *)
Definition recv : validate.RecvConfig :=
  validate.mkRecvConfig
    (config.mkRecvGlobalConfig "mail.example.local"
       (config.mkAuthRule config.AuthPlain
          [ config.mkCredential "alice" "Passw0rd1";
            config.mkCredential "bob" "Passw0rd2";
            config.mkCredential "alice" "Passw0rd3" ])
       auth.NewAuthenticatorAlwaysAllow
       (config.mkMailPolicy ["user@example.com"] ["example.org"])
       (config.mkMailPolicy [] [])
       (config.mkRecvLimits 0 0 0))
    [] []
    [ validate.mkListener (config.mkListenerConfig "server-25" 25 "smtp" false) None;
      validate.mkListener (config.mkListenerConfig "server-587" 587 "starttls" true)
        (Some (validate.mkTLSConfig "/path/to/cert.pem" "/path/to/key.pem")) ].

(** The same, as [Validate] leaves it. *)
Definition validated : validate.RecvConfig := snd (validate.Validate (H := netlib) recv).

End fixtures.

(** * Properties *)

(** ** 64-bit arithmetic *)

Lemma wrap64_small z : MinInt64 <= z <= MaxInt64 -> wrap64 z = z.
Proof.
  unfold wrap64, MinInt64, MaxInt64. intros Hz.
  rewrite Z.mod_small; lia.
Qed.

Lemma div64_small_backoff b : MinInt64 <= b < 4 -> div64 b 4 <= 0.
Proof.
  intros Hb. unfold div64.
  assert (Hq : MinInt64 <= Z.quot b 4 <= 0).
  { unfold MinInt64 in *. Z.to_euclidean_division_equations. lia. }
  rewrite wrap64_small; unfold MinInt64, MaxInt64 in *; lia.
Qed.

Lemma div64_large_backoff b : 4 <= b <= MaxInt64 -> 0 < div64 b 4.
Proof.
  intros Hb. unfold div64.
  assert (Hq : 1 <= Z.quot b 4 <= b).
  { Z.to_euclidean_division_equations. lia. }
  rewrite wrap64_small; unfold MinInt64, MaxInt64 in *; lia.
Qed.

Lemma satSub_gt_minute t u : Minute < satSub t u <-> Minute < t - u.
Proof. unfold satSub, Minute, Second, MinInt64, MaxInt64. lia. Qed.

(** ** The retry loop, one iteration at a time *)

Section BackoffFacts.
Context {A : Type}.
Variable ctx : Context.
Variable operation : M A (option error).
Variables attempts backoff : Z.

Local Abbreviation loop := (utils.loop ctx operation attempts backoff).

Lemma loop_exit n i err w : attempts <= i -> loop n i err w = Ret err w.
Proof.
  intros Hi. destruct n; simpl; destruct (Z.ltb_spec i attempts); try lia; reflexivity.
Qed.

Lemma loop_cancelled n i err w e :
  i < attempts -> Err ctx (now w) = Some e -> loop (S n) i err w = Ret (Some e) w.
Proof.
  intros Hi He. simpl. destruct (Z.ltb_spec i attempts); [| lia].
  unfold bind, utils.iteration, utils.ctxErr, bind. rewrite He. reflexivity.
Qed.

Lemma loop_success n i err w w1 :
  i < attempts -> Err ctx (now w) = None -> operation w = Ret None w1 ->
  loop (S n) i err w = Ret None w1.
Proof.
  intros Hi He Hop. simpl. destruct (Z.ltb_spec i attempts); [| lia].
  unfold bind, utils.iteration, utils.ctxErr, bind. rewrite He, Hop. reflexivity.
Qed.

Lemma loop_op_panics n i err w msg w1 :
  i < attempts -> Err ctx (now w) = None -> operation w = Panic msg w1 ->
  loop (S n) i err w = Panic msg w1.
Proof.
  intros Hi He Hop. simpl. destruct (Z.ltb_spec i attempts); [| lia].
  unfold bind, utils.iteration, utils.ctxErr, bind. rewrite He, Hop. reflexivity.
Qed.

(** After a failed attempt the guard [i >= attempts] is never taken:
    the jitter is drawn and the timer is set, whatever [i] is. *)
Lemma loop_failure n i err w e w1 :
  i < attempts -> Err ctx (now w) = None -> operation w = Ret (Some e) w1 ->
  loop (S n) i err w =
    match utils.Int63n (div64 backoff 4) w1 with
    | Panic msg w2 => Panic msg w2
    | Ret jitter w2 =>
        match utils.selectAfterOrDone ctx (add64 (mul64 backoff (shl64 1 i)) jitter) w2 with
        | Panic msg w3 => Panic msg w3
        | Ret true w3 => loop n (i + 1) (Some e) w3
        | Ret false w3 => Ret (Err ctx (now w3)) w3
        end
    end.
Proof.
  intros Hi He Hop. simpl. destruct (Z.ltb_spec i attempts); [| lia].
  unfold bind, utils.iteration, utils.ctxErr, bind. rewrite He, Hop.
  rewrite Z.geb_leb. destruct (Z.leb_spec attempts i); [lia |].
  destruct (utils.Int63n _ w1) as [jitter w2 | msg w2]; [| reflexivity].
  destruct (utils.selectAfterOrDone _ _ w2) as [[|] w3 | msg w3]; reflexivity.
Qed.

(** The bound on the iterations is enough: more of it changes nothing. *)
Lemma loop_fuel n i err w :
  attempts - i <= Z.of_nat n ->
  loop n i err w = loop (Z.to_nat (attempts - i)) i err w.
Proof.
  revert i err w. induction n as [| n IH]; intros i err w Hn.
  - rewrite !loop_exit by lia. reflexivity.
  - destruct (Z_lt_le_dec i attempts) as [Hlt | Hge].
    + replace (Z.to_nat (attempts - i)) with (S (Z.to_nat (attempts - (i + 1)))) by lia.
      simpl. destruct (Z.ltb_spec i attempts); [| lia].
      unfold bind. destruct (utils.iteration _ _ _ _ i w) as [[[out |] err'] w' | msg w'];
        try reflexivity.
      apply IH. lia.
    + rewrite !loop_exit by lia. reflexivity.
Qed.

Lemma Int63n_positive n (w : World A) :
  0 < n -> exists j w', utils.Int63n n w = Ret j w' /\ 0 <= j < n /\
                        now w' = now w /\ heap w' = heap w /\ slept w' = slept w /\
                        ties w' = ties w /\ net w' = net w /\ wire w' = wire w.
Proof.
  intros Hn. unfold utils.Int63n. destruct (Z.leb_spec n 0); [lia |].
  destruct (rng w) as [| r rs].
  - exists 0, w. repeat split; lia.
  - exists (r mod n), (setRng rs w). repeat split; try reflexivity;
      apply Z.mod_pos_bound; lia.
Qed.

Lemma Int63n_panics n (w : World A) :
  n <= 0 -> utils.Int63n n w = Panic "invalid argument to Int63n" w.
Proof.
  intros Hn. unfold utils.Int63n. destruct (Z.leb_spec n 0); [reflexivity | lia].
Qed.

Lemma select_never_done d (w : World A) :
  done_at ctx = None ->
  utils.selectAfterOrDone ctx d w = Ret true (setNow (now w + Z.max d 0) (logSleep d w)).
Proof. intros Hc. unfold utils.selectAfterOrDone. rewrite Hc. reflexivity. Qed.

Lemma select_done_first d c (w : World A) :
  done_at ctx = Some c -> Z.max c (now w) < now w + Z.max d 0 ->
  utils.selectAfterOrDone ctx d w = Ret false (setNow (Z.max c (now w)) (logSleep d w)).
Proof.
  intros Hc Hlt. unfold utils.selectAfterOrDone. rewrite Hc. simpl.
  destruct (Z.ltb_spec (Z.max c (now w)) (now w + Z.max d 0)); [reflexivity | lia].
Qed.

End BackoffFacts.

(** ** The retry primitive *)

(** C3.  With [attempts <= 0], [DoWithBackoff] returns nil in the world
    it was called in, for every context, operation and backoff: the
    operation is not run.  Hence [GraphSender.SendEmail] with
    [retries = 0] reports success and the network sees no request. *)
Theorem DoWithBackoff_no_attempts :
  (forall (A : Type) (ctx : Context) (operation : M A (option error))
          (attempts backoff : Z) (w : World A),
      attempts <= 0 ->
      utils.DoWithBackoff ctx operation attempts backoff w = Ret None w)
  /\
  (forall (L : GoLib) (ctx : Context) (from : string) (to : list string)
          (subject : string) (body : list Byte.byte) (w : World sender.GraphSender),
      sender.retries (heap w) = 0 ->
      sender.SendEmail ctx from to subject body w = Ret None w).
Proof.
  assert (H0 : forall (A : Type) (ctx : Context) (operation : M A (option error))
                      (attempts backoff : Z) (w : World A),
             attempts <= 0 ->
             utils.DoWithBackoff ctx operation attempts backoff w = Ret None w).
  { intros A ctx operation attempts backoff w Hle.
    unfold utils.DoWithBackoff. apply loop_exit. lia. }
  split; [exact H0 |].
  intros L ctx from to subject body w Hr.
  unfold sender.SendEmail. apply H0. lia.
Qed.

Lemma DoWithBackoff_no_attempts_witness :
  utils.DoWithBackoff Background (scenario.counting scenario.alwaysFails)
    0 (5 * Second) (scenario.quiet 0 0%nat)
  = Ret None (scenario.quiet 0 0%nat)
  /\
  sender.SendEmail (H := scenario.lib) Background "a@x.com" ["b@y.com"] "hello" []
    (scenario.quiet 0 (sender.NewGraphSender "tenant" "client" "secret" (10 * Second) 0 (5 * Second)))
  = Ret None
      (scenario.quiet 0 (sender.NewGraphSender "tenant" "client" "secret" (10 * Second) 0 (5 * Second))).
Proof.
  split.
  - apply (proj1 DoWithBackoff_no_attempts). lia.
  - apply (proj2 DoWithBackoff_no_attempts). reflexivity.
Defined.

(** C4.  With [attempts >= 1] and a backoff under 4 nanoseconds, a failed
    attempt makes [DoWithBackoff] panic in [rand.Int63n], whose bound
    [backoff / 4] is then not positive: at the first attempt of a call,
    and at whatever index [i] the loop runs an attempt. *)
Theorem DoWithBackoff_small_backoff_panics :
  forall (A : Type) (ctx : Context) (operation : M A (option error))
         (attempts backoff : Z),
    1 <= attempts -> MinInt64 <= backoff < 4 * Nanosecond ->
    (forall (w w1 : World A) (e : error),
        Err ctx (now w) = None -> operation w = Ret (Some e) w1 ->
        utils.DoWithBackoff ctx operation attempts backoff w
        = Panic "invalid argument to Int63n" w1)
    /\
    (forall (n : nat) (i : Z) (err : option error) (w w1 : World A) (e : error),
        i < attempts ->
        Err ctx (now w) = None -> operation w = Ret (Some e) w1 ->
        utils.loop ctx operation attempts backoff (S n) i err w
        = Panic "invalid argument to Int63n" w1).
Proof.
  intros A ctx operation attempts backoff Ha Hb.
  assert (Hloop : forall (n : nat) (i : Z) (err : option error) (w w1 : World A) (e : error),
             i < attempts ->
             Err ctx (now w) = None -> operation w = Ret (Some e) w1 ->
             utils.loop ctx operation attempts backoff (S n) i err w
             = Panic "invalid argument to Int63n" w1).
  { intros n i err w w1 e Hi He Hop.
    rewrite (loop_failure _ _ _ _ n i err w e w1 Hi He Hop).
    rewrite Int63n_panics; [reflexivity |].
    apply div64_small_backoff. unfold Nanosecond in Hb. lia. }
  split; [| exact Hloop].
  intros w w1 e He Hop. unfold utils.DoWithBackoff.
  destruct (Z.to_nat attempts) as [| n] eqn:Hn; [lia |].
  apply (Hloop n 0 None w w1 e); [lia | exact He | exact Hop].
Qed.

Lemma DoWithBackoff_small_backoff_panics_witness :
  utils.DoWithBackoff Background (scenario.counting scenario.alwaysFails)
    3 3 (scenario.quiet 0 0%nat)
  = Panic "invalid argument to Int63n" (scenario.quiet 0 1%nat).
Proof.
  apply (proj1 (DoWithBackoff_small_backoff_panics nat Background
                  (scenario.counting scenario.alwaysFails) 3 3
                  ltac:(lia) ltac:(unfold MinInt64, Nanosecond; lia))
               (scenario.quiet 0 0%nat) (scenario.quiet 0 1%nat) scenario.boom);
    reflexivity.
Defined.

(** C5 (the code departs from it).  One attempt that fails, under a live
    context and a backoff of one second: the loop still draws the jitter
    and sleeps [1s * 2^0 + 7ns] after this last attempt, and only then
    returns the error.  When the context ends during that sleep, the
    caller gets the context's error in place of the operation's. *)
Theorem DoWithBackoff_sleeps_after_last_attempt :
  utils.DoWithBackoff Background (scenario.counting scenario.alwaysFails)
    1 Second (mkWorld 0 [7] [] [] [] [] 0%nat)
  = Ret (Some scenario.boom) (mkWorld (Second + 7) [] [] [] [] [Second + 7] 1%nat)
  /\
  utils.DoWithBackoff (mkContext (Some 5) Canceled)
    (scenario.counting scenario.alwaysFails)
    1 Second (mkWorld 0 [7] [] [] [] [] 0%nat)
  = Ret (Some Canceled) (mkWorld 5 [] [] [] [] [Second + 7] 1%nat).
Proof. split; vm_compute; reflexivity. Qed.

Lemma Err_never (ctx : Context) (t : Z) : done_at ctx = None -> Err ctx t = None.
Proof. intros Hc. unfold Err. rewrite Hc. reflexivity. Qed.

Lemma Err_done (ctx : Context) (c t : Z) :
  done_at ctx = Some c -> c <= t -> Err ctx t = Some (cause ctx).
Proof.
  intros Hc Hle. unfold Err. rewrite Hc.
  destruct (Z.leb_spec c t); [reflexivity | lia].
Qed.

(** A failed call of a counting operation under a context that never
    ends: the loop goes on to the next index, one call further. *)
Lemma counting_failed_step (ctx : Context) (script : nat -> option error)
    (attempts backoff : Z) (n : nat) (i : Z) (err : option error)
    (w : World nat) (e : error) :
  4 <= backoff <= MaxInt64 -> done_at ctx = None -> i < attempts ->
  script (heap w) = Some e ->
  exists w', utils.loop ctx (scenario.counting script) attempts backoff (S n) i err w
             = utils.loop ctx (scenario.counting script) attempts backoff n (i + 1) (Some e) w'
             /\ heap w' = S (heap w).
Proof.
  intros Hb Hc Hi Hs.
  assert (Hop : scenario.counting script w = Ret (Some e) (setHeap (S (heap w)) w)).
  { unfold scenario.counting. rewrite Hs. reflexivity. }
  rewrite (loop_failure _ _ _ _ n i err w e _ Hi (Err_never ctx _ Hc) Hop).
  destruct (Int63n_positive (div64 backoff 4) (setHeap (S (heap w)) w)
              (div64_large_backoff backoff Hb))
    as (j & w2 & Hj & _ & _ & Hheap & _).
  rewrite Hj, (select_never_done ctx _ w2 Hc).
  eexists. split; [reflexivity |]. simpl. rewrite Hheap. reflexivity.
Qed.

Lemma counting_success_step (ctx : Context) (script : nat -> option error)
    (attempts backoff : Z) (n : nat) (i : Z) (err : option error) (w : World nat) :
  done_at ctx = None -> i < attempts -> script (heap w) = None ->
  utils.loop ctx (scenario.counting script) attempts backoff (S n) i err w
  = Ret None (setHeap (S (heap w)) w).
Proof.
  intros Hc Hi Hs. apply loop_success; [exact Hi | apply Err_never, Hc |].
  unfold scenario.counting. rewrite Hs. reflexivity.
Qed.

(** C10.  Under a context that does not end and a backoff of at least
    4ns: an operation that fails twice and then succeeds, retried with
    [attempts = 3], is called 3 times and the result is nil; an operation
    that always fails, retried with [attempts = 2], is called twice and
    the result is the error of its second call.  And when the context
    ends during the sleep that follows a failed attempt, the loop returns
    the context's error, at the instant the context ended, in the state
    the operation left: it is not called again. *)
Theorem DoWithBackoff_invocation_counts :
  forall backoff : Z,
    4 <= backoff <= MaxInt64 ->
    (forall (ctx : Context) (script : nat -> option error) (w : World nat) (e1 e2 : error),
        done_at ctx = None -> heap w = 0%nat ->
        script 0%nat = Some e1 -> script 1%nat = Some e2 -> script 2%nat = None ->
        exists w', utils.DoWithBackoff ctx (scenario.counting script) 3 backoff w = Ret None w'
                   /\ heap w' = 3%nat)
    /\
    (forall (ctx : Context) (script : nat -> option error) (w : World nat) (e1 e2 : error),
        done_at ctx = None -> heap w = 0%nat ->
        script 0%nat = Some e1 -> script 1%nat = Some e2 ->
        exists w', utils.DoWithBackoff ctx (scenario.counting script) 2 backoff w
                   = Ret (Some e2) w'
                   /\ heap w' = 2%nat)
    /\
    (forall (A : Type) (ctx : Context) (operation : M A (option error)) (attempts : Z)
            (n : nat) (i : Z) (err : option error) (w w1 w2 : World A)
            (e : error) (c jitter : Z),
        i + 1 < attempts ->
        Err ctx (now w) = None -> operation w = Ret (Some e) w1 ->
        utils.Int63n (div64 backoff 4) w1 = Ret jitter w2 ->
        done_at ctx = Some c ->
        Z.max c (now w1) < now w1 + Z.max (add64 (mul64 backoff (shl64 1 i)) jitter) 0 ->
        exists w3, utils.loop ctx operation attempts backoff (S n) i err w
                   = Ret (Some (cause ctx)) w3
                   /\ heap w3 = heap w1 /\ now w3 = Z.max c (now w1)).
Proof.
  intros backoff Hb. split; [| split].
  - intros ctx script w e1 e2 Hc Hw H0 H1 H2.
    unfold utils.DoWithBackoff. change (Z.to_nat 3) with 3%nat.
    destruct (counting_failed_step ctx script 3 backoff 2 0 None w e1 Hb Hc)
      as (wa & -> & Ha); [lia | rewrite Hw; exact H0 |].
    rewrite Hw in Ha.
    destruct (counting_failed_step ctx script 3 backoff 1 (0 + 1) (Some e1) wa e2 Hb Hc)
      as (wb & -> & Hwb); [lia | rewrite Ha; exact H1 |].
    rewrite Ha in Hwb.
    rewrite counting_success_step; [| exact Hc | lia | rewrite Hwb; exact H2].
    eexists. split; [reflexivity |]. simpl. rewrite Hwb. reflexivity.
  - intros ctx script w e1 e2 Hc Hw H0 H1.
    unfold utils.DoWithBackoff. change (Z.to_nat 2) with 2%nat.
    destruct (counting_failed_step ctx script 2 backoff 1 0 None w e1 Hb Hc)
      as (wa & -> & Ha); [lia | rewrite Hw; exact H0 |].
    rewrite Hw in Ha.
    destruct (counting_failed_step ctx script 2 backoff 0 (0 + 1) (Some e1) wa e2 Hb Hc)
      as (wb & -> & Hwb); [lia | rewrite Ha; exact H1 |].
    rewrite Ha in Hwb.
    rewrite loop_exit by lia. eexists. split; [reflexivity | exact Hwb].
  - intros A ctx operation attempts n i err w w1 w2 e c jitter Hi He Hop Hj Hc Hlt.
    assert (Hi' : i < attempts) by lia.
    rewrite (loop_failure _ _ _ _ n i err w e w1 Hi' He Hop), Hj.
    destruct (Int63n_positive (div64 backoff 4) w1 (div64_large_backoff backoff Hb))
      as (j' & w2' & Hj' & _ & Hnow & Hheap & _).
    rewrite Hj in Hj'. injection Hj' as <- <-.
    rewrite (select_done_first ctx _ c w2 Hc) by (rewrite Hnow; exact Hlt).
    exists (setNow (Z.max c (now w2)) (logSleep (add64 (mul64 backoff (shl64 1 i)) jitter) w2)).
    split; [| split].
    + rewrite (Err_done ctx c); [reflexivity | exact Hc | simpl; lia].
    + simpl. exact Hheap.
    + simpl. rewrite Hnow. reflexivity.
Qed.

Lemma DoWithBackoff_invocation_counts_witness :
  (exists w', utils.DoWithBackoff Background (scenario.counting scenario.failsTwice)
                3 (5 * Second) (scenario.quiet 0 0%nat) = Ret None w'
              /\ heap w' = 3%nat)
  /\
  (exists w', utils.DoWithBackoff Background (scenario.counting scenario.alwaysFails)
                2 (5 * Second) (scenario.quiet 0 0%nat) = Ret (Some scenario.boom) w'
              /\ heap w' = 2%nat)
  /\
  (exists w3, utils.loop (mkContext (Some 2) Canceled) (scenario.counting scenario.alwaysFails)
                3 (5 * Second) 3 0 None (scenario.quiet 0 0%nat) = Ret (Some Canceled) w3
              /\ heap w3 = 1%nat /\ now w3 = 2).
Proof.
  assert (Hb : 4 <= 5 * Second <= MaxInt64) by (unfold Second, MaxInt64; lia).
  destruct (DoWithBackoff_invocation_counts (5 * Second) Hb) as (T1 & T2 & T3).
  split; [| split].
  - apply (T1 Background scenario.failsTwice (scenario.quiet 0 0%nat)
              scenario.boom scenario.boom); reflexivity.
  - apply (T2 Background scenario.alwaysFails (scenario.quiet 0 0%nat)
              scenario.boom scenario.boom); reflexivity.
  - apply (T3 nat (mkContext (Some 2) Canceled) (scenario.counting scenario.alwaysFails)
              3 2%nat 0 None (scenario.quiet 0 0%nat) (scenario.quiet 0 1%nat)
              (scenario.quiet 0 1%nat) scenario.boom 2 0);
      try reflexivity; lia.
Defined.

(** ** Authenticators *)

(** C6 (the code departs from it).  [NewAuthenticatorHashed] builds the
    plaintext authenticator: its [Check] compares the secret with the
    stored string and never asks bcrypt.  With the digest of
    ["Passw0rd1"] stored for alice, the password is refused and the
    digest itself is accepted, while [AuthenticatorHashed.Check] accepts
    the password. *)
Theorem NewAuthenticatorHashed_checks_plaintext :
  (forall (cmp : string -> string -> option error) (creds : gmap string string)
          (username password : string),
      auth.Check cmp (auth.NewAuthenticatorHashed creds) username password
      = match creds !! username with
        | Some pw => String.eqb password pw
        | None => false
        end)
  /\
  (let cmp := @bcrypt_CompareHashAndPassword scenario.lib in
   let creds : gmap string string := {[ "alice" := "$2a$Passw0rd1" ]} in
   auth.Check cmp (auth.NewAuthenticatorHashed creds) "alice" "Passw0rd1" = false
   /\ auth.Check cmp (auth.NewAuthenticatorHashed creds) "alice" "$2a$Passw0rd1" = true
   /\ auth.Check cmp (auth.AuthenticatorHashed creds) "alice" "Passw0rd1" = true).
Proof.
  split.
  - intros cmp creds username password. reflexivity.
  - simpl. rewrite !lookup_singleton_eq. repeat split; reflexivity.
Qed.

(** ** The token cache *)

Section GraphFacts.
Context {L : GoLib}.

Lemma WithTimeout_deadline (ctx : Context) (d t : Z) :
  exists c, done_at (WithTimeout ctx d t) = Some c /\ c <= t + d.
Proof.
  unfold WithTimeout. destruct (done_at ctx) as [c0 |] eqn:Hc.
  - destruct (Z.leb_spec c0 (t + d)).
    + exists c0. split; [exact Hc | lia].
    + exists (t + d). split; [reflexivity | lia].
  - exists (t + d). split; [reflexivity | lia].
Qed.

Lemma WithTimeout_earlier (ctx : Context) (c0 d t : Z) :
  done_at ctx = Some c0 ->
  exists c, done_at (WithTimeout ctx d t) = Some c /\ c <= c0.
Proof.
  intros Hc. unfold WithTimeout. rewrite Hc.
  destruct (Z.leb_spec c0 (t + d)).
  - exists c0. split; [exact Hc | lia].
  - exists (t + d). split; [reflexivity | lia].
Qed.

(** A request under a context that ends at [c0]: it is handed to the
    network once, as it was built and with a deadline no later than
    [c0], and [Do] is back by [c0]; the store is not touched. *)
Lemma Do_under_deadline {A} (timeout : Z) (ctx : Context) (req : HttpRequest)
    (w : World A) (c0 : Z) :
  done_at ctx = Some c0 ->
  exists r w' d, sender.Do timeout ctx req w = Ret r w'
    /\ heap w' = heap w
    /\ now w <= now w' <= Z.max (now w) c0
    /\ wire w' = mkRequest (req_method req) (req_url req) (req_headers req)
                           (req_body req) (Some d) :: wire w
    /\ d <= c0.
Proof.
  intros Hc. unfold sender.Do.
  set (ctx' := if 0 <? timeout then WithTimeout ctx timeout (now w) else ctx).
  assert (Hc' : exists c, done_at ctx' = Some c /\ c <= c0).
  { subst ctx'. destruct (0 <? timeout).
    - apply WithTimeout_earlier, Hc.
    - exists c0. split; [exact Hc | lia]. }
  destruct Hc' as (c & Hdone & Hle). rewrite Hdone. simpl.
  destruct (net w) as [| o os]; simpl;
    [| destruct (Z.leb_spec c (now w + Z.max 0 (latency o)))];
    (eexists _, _, c; split; [reflexivity |]; simpl;
     split; [reflexivity |]; split; [lia |];
     split; [reflexivity | exact Hle]).
Qed.

(** The token request: when the URL does not parse nothing happens and
    the parse error comes back; otherwise one POST of the client
    credentials goes out, form-encoded, to the tenant's token endpoint. *)
Lemma getAuthToken_under_deadline (ctx : Context) (w : World sender.GraphSender) (c0 : Z) :
  done_at ctx = Some c0 ->
  exists r w', sender.getAuthToken ctx w = Ret r w'
    /\ heap w' = heap w
    /\ now w <= now w' <= Z.max (now w) c0
    /\ match url_Parse ("https://login.microsoftonline.com/"
                        ++ sender.tenantID (heap w) ++ "/oauth2/v2.0/token") with
       | Some err => r = inl err /\ w' = w
       | None =>
           exists d,
             wire w' = mkRequest "POST"
                         ("https://login.microsoftonline.com/"
                          ++ sender.tenantID (heap w) ++ "/oauth2/v2.0/token")
                         [ ("Content-Type", "application/x-www-form-urlencoded") ]
                         (list_byte_of_string
                            (url_Encode [ ("grant_type", "client_credentials");
                                          ("scope", "https://graph.microsoft.com/.default");
                                          ("client_id", sender.clientID (heap w));
                                          ("client_secret", sender.clientSecret (heap w)) ]))
                         (Some d) :: wire w
             /\ d <= c0
       end.
Proof.
  intros Hc. unfold sender.getAuthToken, sender.NewRequestWithContext.
  destruct (url_Parse _) as [err |].
  - eexists _, w. split; [reflexivity |]. repeat split; lia.
  - unfold bind.
    destruct (Do_under_deadline (sender.httpClient_Timeout (heap w)) ctx
                (sender.Header_Set "Content-Type" "application/x-www-form-urlencoded"
                   (mkRequest "POST"
                      ("https://login.microsoftonline.com/"
                       ++ sender.tenantID (heap w) ++ "/oauth2/v2.0/token") []
                      (list_byte_of_string
                         (url_Encode [ ("grant_type", "client_credentials");
                                       ("scope", "https://graph.microsoft.com/.default");
                                       ("client_id", sender.clientID (heap w));
                                       ("client_secret", sender.clientSecret (heap w)) ]))
                      (done_at ctx)))
                w c0 Hc) as (r & w' & d & HDo & Hheap & Hnow & Hwire & Hd).
    rewrite HDo.
    assert (Hsent : exists d0,
              wire w' = mkRequest "POST"
                          ("https://login.microsoftonline.com/"
                           ++ sender.tenantID (heap w) ++ "/oauth2/v2.0/token")
                          [ ("Content-Type", "application/x-www-form-urlencoded") ]
                          (list_byte_of_string
                             (url_Encode [ ("grant_type", "client_credentials");
                                           ("scope", "https://graph.microsoft.com/.default");
                                           ("client_id", sender.clientID (heap w));
                                           ("client_secret", sender.clientSecret (heap w)) ]))
                          (Some d0) :: wire w
              /\ d0 <= c0)
      by (exists d; split; [exact Hwire | exact Hd]).
    destruct r as [err | resp]; [eexists _, w'; split; [reflexivity | auto] |].
    destruct (negb (StatusCode resp =? 200));
      [eexists _, w'; split; [reflexivity | auto] |].
    destruct (ReadAllLimit (Body resp) (Z.shiftl 1 20)) as [[body [err |]] r'];
      [eexists _, w'; split; [reflexivity | auto] |].
    destruct (json_Unmarshal_AuthTokenResponse body) as [err | tokenResp];
      eexists _, w'; (split; [reflexivity | auto]).
Qed.

(** [Do] hands back a response only when the network answered with it. *)
Lemma Do_response {A} (timeout : Z) (ctx : Context) (req : HttpRequest)
    (w w' : World A) (resp : HttpResponse) :
  sender.Do timeout ctx req w = Ret (inr resp) w' ->
  exists o os, net w = o :: os /\ answer o = inr resp.
Proof.
  unfold sender.Do. simpl. destruct (net w) as [| o os]; [discriminate |].
  intros HDo. exists o, os. split; [reflexivity |]. revert HDo.
  destruct (done_at _) as [c |]; [destruct (_ <=? _); [discriminate |] |];
    intros Heq; injection Heq as -> _; reflexivity.
Qed.

(** A token comes out of [getAuthToken] only when the network answered
    200 with a body that reads and decodes; its expiry is the instant of
    the answer plus the lifetime the provider reports. *)
Lemma getAuthToken_success (ctx : Context) (w w' : World sender.GraphSender)
    (tok : sender.AuthToken) :
  sender.getAuthToken ctx w = Ret (inr tok) w' ->
  exists o os resp body rest tokenResp,
    net w = o :: os /\ answer o = inr resp /\ StatusCode resp = 200
    /\ ReadAllLimit (Body resp) (Z.shiftl 1 20) = (body, None, rest)
    /\ json_Unmarshal_AuthTokenResponse body = inr tokenResp
    /\ tok = sender.mkAuthToken (AccessToken tokenResp)
                               (now w' + mul64 (ExpiresIn tokenResp) Second).
Proof.
  unfold sender.getAuthToken.
  destruct (sender.NewRequestWithContext _ _ _ _) as [err | req]; [discriminate |].
  unfold bind.
  destruct (sender.Do _ _ _ w) as [[err | resp] w1 | msg w1] eqn:HDo; try discriminate.
  destruct (Do_response _ _ _ _ _ _ HDo) as (o & os & Hnet & Hans).
  destruct (Z.eqb_spec (StatusCode resp) 200) as [Hst | Hst]; simpl; [| discriminate].
  destruct (ReadAllLimit (Body resp) (Z.shiftl 1 20)) as [[body [err |]] rest] eqn:Hread;
    [discriminate |].
  destruct (json_Unmarshal_AuthTokenResponse body) as [err | tokenResp] eqn:Hjson;
    [discriminate |].
  intros Heq. injection Heq as <- <-.
  exists o, os, resp, body, rest, tokenResp. repeat split; assumption.
Qed.

End GraphFacts.



(** ** The session *)

(** Case analysis on every test a command makes on its way out. *)
Ltac break_branches :=
  repeat match goal with
         | |- context [if ?b then _ else _] => destruct b
         | |- context [match ?o with Some _ => _ | None => _ end] => destruct o
         end.

Section SessionFacts.
Context {L : GoLib}.
Context {A : Type}.

Lemma len_app_one {T} (l : list T) (x : T) : len (l ++ [x]) = len l + 1.
Proof. unfold len. rewrite length_app. simpl. lia. Qed.

Lemma Rcpt_keeps_config (s : receiver.Session A) (to : string) (w : World A) :
  receiver.configGlobal (snd (receiver.Rcpt s to w)) = receiver.configGlobal s.
Proof.
  unfold receiver.Rcpt.
  break_branches; reflexivity.
Qed.

Lemma Rcpt_within_limit (s : receiver.Session A) (to : string) (w : World A) (N : Z) :
  config.MaxRecipients (config.Limits (receiver.configGlobal s)) = N ->
  len (receiver.emailTo s) <= N ->
  len (receiver.emailTo (snd (receiver.Rcpt s to w))) <= N.
Proof.
  intros HN Hle. unfold receiver.Rcpt. rewrite HN.
  destruct (_ && _); [exact Hle |].
  destruct (Err _ _); [exact Hle |].
  destruct (_ =? 0); [exact Hle |].
  destruct (_ && _); [exact Hle |].
  rewrite Z.geb_leb.
  destruct (Z.leb_spec N (len (receiver.emailTo s))); [exact Hle |].
  simpl. rewrite len_app_one. lia.
Qed.

Lemma step_keeps_config (s : receiver.Session A) (c : receiver.command) (w : World A) :
  receiver.configGlobal (receiver.step s c w) = receiver.configGlobal s.
Proof.
  destruct c as [mech identity username password | from | to |]; simpl.
  - destruct (receiver.Auth s mech w) as [[[|] |] e]; [reflexivity | | reflexivity].
    unfold receiver.authPlain. destruct (auth.Check _ _ _ _); reflexivity.
  - unfold receiver.Mail.
    break_branches; reflexivity.
  - apply Rcpt_keeps_config.
  - reflexivity.
Qed.

Lemma step_within_limit (s : receiver.Session A) (c : receiver.command) (w : World A) (N : Z) :
  0 <= N ->
  config.MaxRecipients (config.Limits (receiver.configGlobal s)) = N ->
  len (receiver.emailTo s) <= N ->
  len (receiver.emailTo (receiver.step s c w)) <= N.
Proof.
  intros H0 HN Hle.
  destruct c as [mech identity username password | from | to |]; simpl.
  - destruct (receiver.Auth s mech w) as [[[|] |] e]; [exact Hle | | exact Hle].
    unfold receiver.authPlain. destruct (auth.Check _ _ _ _); exact Hle.
  - unfold receiver.Mail.
    break_branches; exact Hle.
  - apply Rcpt_within_limit; assumption.
  - exact H0.
Qed.

Lemma run_within_limit (cs : list (receiver.command * World A)) :
  forall (s : receiver.Session A) (N : Z),
    0 <= N ->
    config.MaxRecipients (config.Limits (receiver.configGlobal s)) = N ->
    len (receiver.emailTo s) <= N ->
    len (receiver.emailTo (receiver.run s cs)) <= N.
Proof.
  induction cs as [| [c w] cs IH]; intros s N H0 HN Hle; simpl.
  - exact Hle.
  - apply IH; [exact H0 | rewrite step_keeps_config; exact HN |].
    apply step_within_limit; assumption.
Qed.

Lemma admissible_true (s : receiver.Session A) (to : string) (w : World A) :
  receiver.admissible s to w = true ->
  config.RequireAuth (receiver.configListener s) && negb (receiver.authenticated s) = false
  /\ Err (receiver.ctx s) (now w) = None
  /\ (slen (Trim to "<>") =? 0) = false
  /\ receiver.policySet (config.ValidTo (receiver.configGlobal s))
     && negb (receiver.policyValid (config.ValidTo (receiver.configGlobal s)) (Trim to "<>"))
     = false.
Proof.
  unfold receiver.admissible. rewrite !andb_true_iff, !negb_true_iff.
  intros [[[H1 H2] H3] H4]. repeat split; try assumption.
  destruct (Err _ _); [discriminate | reflexivity].
Qed.

Lemma Rcpt_admitted (s : receiver.Session A) (to : string) (w : World A) :
  receiver.admissible s to w = true ->
  len (receiver.emailTo s) < config.MaxRecipients (config.Limits (receiver.configGlobal s)) ->
  receiver.Rcpt s to w
  = (None, receiver.setEmailTo (receiver.emailTo s ++ [Trim to "<>"]) s).
Proof.
  intros Hadm Hlt. destruct (admissible_true s to w Hadm) as (H1 & H2 & H3 & H4).
  unfold receiver.Rcpt. rewrite H1, H2, H3, H4, Z.geb_leb.
  destruct (Z.leb_spec (config.MaxRecipients (config.Limits (receiver.configGlobal s)))
                       (len (receiver.emailTo s))); [lia | reflexivity].
Qed.

Lemma Rcpt_full (s : receiver.Session A) (to : string) (w : World A) :
  receiver.admissible s to w = true ->
  config.MaxRecipients (config.Limits (receiver.configGlobal s)) <= len (receiver.emailTo s) ->
  receiver.Rcpt s to w = (Some ErrTooManyRecipients, s).
Proof.
  intros Hadm Hle. destruct (admissible_true s to w Hadm) as (H1 & H2 & H3 & H4).
  unfold receiver.Rcpt. rewrite H1, H2, H3, H4, Z.geb_leb.
  destruct (Z.leb_spec (config.MaxRecipients (config.Limits (receiver.configGlobal s)))
                       (len (receiver.emailTo s))); [reflexivity | lia].
Qed.

Lemma RcptAll_admitted (tos : list (string * World A)) :
  forall s : receiver.Session A,
    Forall (fun tw => receiver.admissible s (fst tw) (snd tw) = true) tos ->
    len (receiver.emailTo s) + len tos
      <= config.MaxRecipients (config.Limits (receiver.configGlobal s)) ->
    receiver.RcptAll s tos
    = (map (fun _ => None) tos,
       receiver.setEmailTo
         (receiver.emailTo s ++ map (fun tw => Trim (fst tw) "<>") tos) s).
Proof.
  induction tos as [| [to w] rest IH]; intros s Hadm Hle.
  - simpl. rewrite app_nil_r. destruct s; reflexivity.
  - inversion Hadm as [| ? ? Hto Hrest]; subst. simpl in Hto.
    assert (Hlen : len ((to, w) :: rest) = len rest + 1)
      by (unfold len; simpl; lia).
    assert (Hpos : 0 <= len rest) by (unfold len; lia).
    simpl. rewrite (Rcpt_admitted s to w Hto) by lia.
    rewrite (IH (receiver.setEmailTo (receiver.emailTo s ++ [Trim to "<>"]) s)).
    + simpl. rewrite <- app_assoc. reflexivity.
    + exact Hrest.
    + simpl. rewrite len_app_one. lia.
Qed.

End SessionFacts.

(** C1 (amended).  When the session's context has ended, [Auth] fails
    with [ErrServerClosed] whatever the mechanism.  [Mail], [Rcpt] and
    [Data] look at the authentication gate first: on a listener that
    requires authentication they fail with [ErrAuthRequired] while the
    session is not authenticated, and with [ErrServerClosed] otherwise,
    before the address, the policy, the limits or the reader are looked
    at; the session, the reader and the world are left as they were. *)
Theorem Session_cancelled_context :
  forall (L : GoLib) (A : Type) (s : receiver.Session A) (w : World A),
    Err (receiver.ctx s) (now w) <> None ->
    (forall mech : string, receiver.Auth s mech w = (None, Some ErrServerClosed))
    /\
    (forall from : string,
        receiver.Mail s from w
        = (Some (if config.RequireAuth (receiver.configListener s)
                    && negb (receiver.authenticated s)
                 then ErrAuthRequired else ErrServerClosed), s))
    /\
    (forall to : string,
        receiver.Rcpt s to w
        = (Some (if config.RequireAuth (receiver.configListener s)
                    && negb (receiver.authenticated s)
                 then ErrAuthRequired else ErrServerClosed), s))
    /\
    (forall r : Reader,
        receiver.Data s r w
        = Ret (Some (if config.RequireAuth (receiver.configListener s)
                        && negb (receiver.authenticated s)
                     then ErrAuthRequired else ErrServerClosed), s, r) w).
Proof.
  intros L A s w Hdone.
  destruct (Err (receiver.ctx s) (now w)) as [e |] eqn:He; [| contradiction].
  repeat split.
  - intros mech. unfold receiver.Auth. rewrite He. reflexivity.
  - intros from. unfold receiver.Mail. rewrite He. destruct (_ && _); reflexivity.
  - intros to. unfold receiver.Rcpt. rewrite He. destruct (_ && _); reflexivity.
  - intros r. unfold receiver.Data. rewrite He. destruct (_ && _); reflexivity.
Qed.

Lemma Session_cancelled_context_witness :
  receiver.Auth
    (scenario.session (mkContext (Some 0) Canceled) true 1024 100) "PLAIN"
    (scenario.quiet 5 tt)
  = (None, Some ErrServerClosed)
  /\
  receiver.Mail (H := scenario.lib)
    (scenario.session (mkContext (Some 0) Canceled) false 1024 100) "<a@x.com>"
    (scenario.quiet 5 tt)
  = (Some ErrServerClosed, scenario.session (mkContext (Some 0) Canceled) false 1024 100).
Proof.
  split.
  - apply (proj1 (Session_cancelled_context scenario.lib unit
                    (scenario.session (mkContext (Some 0) Canceled) true 1024 100)
                    (scenario.quiet 5 tt) ltac:(discriminate))).
  - apply (proj1 (proj2 (Session_cancelled_context scenario.lib unit
                    (scenario.session (mkContext (Some 0) Canceled) false 1024 100)
                    (scenario.quiet 5 tt) ltac:(discriminate)))).
Defined.

(** C1 as stated fails: on a listener that requires authentication, an
    unauthenticated session whose context has ended answers [MAIL],
    [RCPT] and [DATA] with [ErrAuthRequired]. *)
Lemma Session_cancelled_unauthenticated_counterexample :
  Err (receiver.ctx (scenario.session (mkContext (Some 0) Canceled) true 1024 100))
      (now (scenario.quiet 5 tt)) = Some Canceled
  /\ fst (receiver.Mail (H := scenario.lib)
            (scenario.session (mkContext (Some 0) Canceled) true 1024 100) "<a@x.com>"
            (scenario.quiet 5 tt)) = Some ErrAuthRequired
  /\ fst (receiver.Rcpt (H := scenario.lib)
            (scenario.session (mkContext (Some 0) Canceled) true 1024 100) "<b@y.com>"
            (scenario.quiet 5 tt)) = Some ErrAuthRequired
  /\ receiver.Data (H := scenario.lib)
       (scenario.session (mkContext (Some 0) Canceled) true 1024 100)
       (mkReader [] None) (scenario.quiet 5 tt)
     = Ret (Some ErrAuthRequired,
            scenario.session (mkContext (Some 0) Canceled) true 1024 100,
            mkReader [] None) (scenario.quiet 5 tt)
  /\ ErrAuthRequired <> ErrServerClosed.
Proof. repeat split; try reflexivity. discriminate. Qed.

(** ** Who touches the recipients *)

Section RecipientFacts.
Context {L : GoLib}.
Context {A : Type}.

(** [AUTH] leaves the envelope alone, whatever its outcome. *)
Lemma CAuth_keeps_recipients (s : receiver.Session A)
    (mech identity username password : string) (w : World A) :
  receiver.emailTo (receiver.step s (receiver.CAuth mech identity username password) w)
  = receiver.emailTo s.
Proof.
  unfold receiver.step, receiver.authAnonymous, receiver.authPlain.
  destruct (receiver.Auth s mech w) as [[[|] |] e]; try reflexivity.
  destruct (auth.Check _ _ _ _); reflexivity.
Qed.

(** [MAIL] leaves the recipients alone, whatever its outcome. *)
Lemma Mail_leaves_recipients (s : receiver.Session A) (from : string) (w : World A) :
  receiver.emailTo (snd (receiver.Mail s from w)) = receiver.emailTo s.
Proof. unfold receiver.Mail. break_branches; reflexivity. Qed.

(** [RCPT] leaves the recipients alone or appends the one it was given. *)
Lemma Rcpt_extends_recipients (s : receiver.Session A) (to : string) (w : World A) :
  (fst (receiver.Rcpt s to w) <> None
   /\ receiver.emailTo (snd (receiver.Rcpt s to w)) = receiver.emailTo s)
  \/ (fst (receiver.Rcpt s to w) = None
      /\ receiver.emailTo (snd (receiver.Rcpt s to w))
         = (receiver.emailTo s ++ [Trim to "<>"])%list).
Proof.
  unfold receiver.Rcpt. break_branches; simpl;
    solve [left; split; [discriminate | reflexivity]
          | right; split; reflexivity].
Qed.

(** [DATA] sets the subject and the body; the recipients it hands to the
    sender are still the session's when it returns. *)
Lemma Data_keeps_recipients (s s' : receiver.Session A) (r r' : Reader)
    (w w' : World A) (e : option error) :
  receiver.Data s r w = Ret (e, s', r') w' ->
  receiver.emailTo s' = receiver.emailTo s.
Proof.
  unfold receiver.Data.
  destruct (_ && negb _); [intros Heq; injection Heq as _ <- _ _; reflexivity |].
  destruct (Err _ _); [intros Heq; injection Heq as _ <- _ _; reflexivity |].
  destruct (ReadAllLimit r _) as [[data [err |]] r1];
    [intros Heq; injection Heq as _ <- _ _; reflexivity |].
  destruct (len data >? _); [intros Heq; injection Heq as _ <- _ _; reflexivity |].
  unfold receiver.deliver, bind, ret.
  match goal with
  | |- context [sender.SendEmail_ ?sd ?c ?f ?t ?sj ?b w] =>
      destruct (sender.SendEmail_ sd c f t sj b w) as [err w1 | msg w1]
  end; [| discriminate].
  intros Heq. injection Heq as _ <- _ _.
  destruct (mail_ReadMessage data) as [err' | msg].
  - destruct (subjectRe_FindSubmatch data); reflexivity.
  - unfold ReadAll. destruct (rerr (msg_Body msg)); reflexivity.
Qed.

Lemma step_extends_recipients (s : receiver.Session A) (c : receiver.command) (w : World A) :
  c <> receiver.CReset ->
  exists more, receiver.emailTo (receiver.step s c w) = (receiver.emailTo s ++ more)%list.
Proof.
  intros Hc. destruct c as [mech identity username password | from | to |].
  - exists []. rewrite CAuth_keeps_recipients, app_nil_r. reflexivity.
  - exists []. simpl. rewrite Mail_leaves_recipients, app_nil_r. reflexivity.
  - simpl. destruct (Rcpt_extends_recipients s to w) as [(_ & ->) | (_ & ->)].
    + exists []. rewrite app_nil_r. reflexivity.
    + eexists. reflexivity.
  - contradiction.
Qed.

(** A run without [RSET] only adds to the recipients. *)
Lemma run_extends_recipients (cs : list (receiver.command * World A)) :
  forall s : receiver.Session A,
    Forall (fun cw => fst cw <> receiver.CReset) cs ->
    exists more, receiver.emailTo (receiver.run s cs) = (receiver.emailTo s ++ more)%list.
Proof.
  induction cs as [| [c w] cs IH]; intros s Hcs.
  - exists []. simpl. rewrite app_nil_r. reflexivity.
  - inversion Hcs as [| ? ? Hc Hrest]; subst. simpl in Hc.
    destruct (step_extends_recipients s c w Hc) as (m1 & H1).
    destruct (IH (receiver.step s c w) Hrest) as (m2 & H2).
    exists (m1 ++ m2)%list. simpl. rewrite H2, H1, app_assoc. reflexivity.
Qed.

End RecipientFacts.

(** C2 (amended).  When [Mail] succeeds, the session it leaves is the
    one it found with [emailFrom] set to the address without its angle
    brackets: the recipients recorded before the call are still there.
    No command but [Reset] takes a recipient away: [AUTH] and [MAIL]
    leave the list as it is whatever their outcome, [RCPT] leaves it
    when it fails and appends its address when it succeeds, [DATA]
    leaves it, and so a run of commands without a reset only adds to
    it; [Reset] empties it. *)
Theorem Mail_success_records_sender :
  forall (L : GoLib) (A : Type) (s : receiver.Session A),
    (forall (s' : receiver.Session A) (from : string) (w : World A),
        receiver.Mail s from w = (None, s') ->
        s' = receiver.setEmailFrom (Trim from "<>") s
        /\ receiver.emailFrom s' = Trim from "<>"
        /\ receiver.emailTo s' = receiver.emailTo s)
    /\ (forall (mech identity username password : string) (w : World A),
          receiver.emailTo
            (receiver.step s (receiver.CAuth mech identity username password) w)
          = receiver.emailTo s)
    /\ (forall (from : string) (w : World A),
          receiver.emailTo (snd (receiver.Mail s from w)) = receiver.emailTo s)
    /\ (forall (to : string) (w : World A),
          (fst (receiver.Rcpt s to w) <> None
           /\ receiver.emailTo (snd (receiver.Rcpt s to w)) = receiver.emailTo s)
          \/ (fst (receiver.Rcpt s to w) = None
              /\ receiver.emailTo (snd (receiver.Rcpt s to w))
                 = (receiver.emailTo s ++ [Trim to "<>"])%list))
    /\ (forall (r r' : Reader) (w w' : World A) (e : option error) (s' : receiver.Session A),
          receiver.Data s r w = Ret (e, s', r') w' ->
          receiver.emailTo s' = receiver.emailTo s)
    /\ (forall cs : list (receiver.command * World A),
          Forall (fun cw => fst cw <> receiver.CReset) cs ->
          exists more,
            receiver.emailTo (receiver.run s cs) = (receiver.emailTo s ++ more)%list)
    /\ receiver.emailTo (receiver.Reset s) = [].
Proof.
  intros L A s.
  split; [| split; [| split; [| split; [| split; [| split]]]]].
  - intros s' from w. unfold receiver.Mail.
    destruct (_ && negb _); [discriminate |].
    destruct (Err _ _); [discriminate |].
    destruct (_ =? 0); [discriminate |].
    destruct (_ && negb _); [discriminate |].
    intros Heq. injection Heq as <-. repeat split; reflexivity.
  - intros mech identity username password w. apply CAuth_keeps_recipients.
  - intros from w. apply Mail_leaves_recipients.
  - intros to w. apply Rcpt_extends_recipients.
  - intros r r' w w' e s' Hdata. exact (Data_keeps_recipients s s' r r' w w' e Hdata).
  - intros cs Hcs. apply run_extends_recipients, Hcs.
  - reflexivity.
Qed.

Lemma Mail_success_records_sender_witness :
  receiver.emailFrom
    (snd (receiver.Mail (H := scenario.lib)
            (receiver.setEmailTo ["b@y.com"] (scenario.session Background false 1024 100))
            "<a@x.com>" (scenario.quiet 0 tt))) = "a@x.com"
  /\ receiver.emailTo
       (snd (receiver.Mail (H := scenario.lib)
               (receiver.setEmailTo ["b@y.com"] (scenario.session Background false 1024 100))
               "<a@x.com>" (scenario.quiet 0 tt))) = ["b@y.com"]
  /\ (exists more,
        receiver.emailTo
          (receiver.run (H := scenario.lib)
             (receiver.setEmailTo ["b@y.com"] (scenario.session Background false 1024 100))
             [ (receiver.CMail "<a@x.com>", scenario.quiet 0 tt);
               (receiver.CRcpt "<c@z.com>", scenario.quiet 1 tt);
               (receiver.CMail "<d@x.com>", scenario.quiet 2 tt) ])
        = ("b@y.com" :: more)%list).
Proof.
  destruct (Mail_success_records_sender scenario.lib unit
              (receiver.setEmailTo ["b@y.com"] (scenario.session Background false 1024 100)))
    as (Hmail & _ & _ & _ & _ & Hrun & _).
  destruct (Hmail
              (snd (receiver.Mail (H := scenario.lib)
                      (receiver.setEmailTo ["b@y.com"]
                         (scenario.session Background false 1024 100))
                      "<a@x.com>" (scenario.quiet 0 tt)))
              "<a@x.com>" (scenario.quiet 0 tt) eq_refl) as (_ & Hfrom & Hto).
  split; [exact Hfrom |]. split; [exact Hto |].
  apply (Hrun [ (receiver.CMail "<a@x.com>", scenario.quiet 0 tt);
                (receiver.CRcpt "<c@z.com>", scenario.quiet 1 tt);
                (receiver.CMail "<d@x.com>", scenario.quiet 2 tt) ]).
  repeat constructor; discriminate.
Defined.

(** C2 as stated fails: a session that holds the recipient [b@y.com]
    still holds it after a successful [MAIL FROM:<a@x.com>]. *)
Lemma Mail_keeps_recipients_counterexample :
  fst (receiver.Mail (H := scenario.lib)
         (receiver.setEmailTo ["b@y.com"] (scenario.session Background false 1024 100))
         "<a@x.com>" (scenario.quiet 0 tt)) = None
  /\ receiver.emailTo
       (snd (receiver.Mail (H := scenario.lib)
               (receiver.setEmailTo ["b@y.com"] (scenario.session Background false 1024 100))
               "<a@x.com>" (scenario.quiet 0 tt))) = ["b@y.com"]
  /\ receiver.emailTo
       (snd (receiver.Mail (H := scenario.lib)
               (receiver.setEmailTo ["b@y.com"] (scenario.session Background false 1024 100))
               "<a@x.com>" (scenario.quiet 0 tt))) <> [].
Proof. repeat split; try reflexivity. discriminate. Qed.

(** C7.  With [MaxRecipients = N], [N >= 0]: whatever commands a session
    runs, recipients included, it never holds more than [N] recipients
    if it did not before.  From a session without recipients, [N]
    admissible recipients are all accepted and recorded in order; one
    more admissible recipient fails with [ErrTooManyRecipients] and
    leaves the session, with its [N] recipients, as it was. *)
Theorem Rcpt_max_recipients :
  forall (L : GoLib) (A : Type) (s : receiver.Session A) (N : Z),
    config.MaxRecipients (config.Limits (receiver.configGlobal s)) = N ->
    0 <= N ->
    (forall cs : list (receiver.command * World A),
        len (receiver.emailTo s) <= N ->
        len (receiver.emailTo (receiver.run s cs)) <= N)
    /\
    (forall (tos : list (string * World A)) (to : string) (w : World A),
        receiver.emailTo s = [] ->
        len tos = N ->
        Forall (fun tw => receiver.admissible s (fst tw) (snd tw) = true) tos ->
        receiver.admissible s to w = true ->
        exists sN : receiver.Session A,
          receiver.RcptAll s tos = (map (fun _ => None) tos, sN)
          /\ receiver.emailTo sN = map (fun tw => Trim (fst tw) "<>") tos
          /\ len (receiver.emailTo sN) = N
          /\ receiver.Rcpt sN to w = (Some ErrTooManyRecipients, sN)).
Proof.
  intros L A s N HN H0. split.
  - intros cs Hle. apply run_within_limit; assumption.
  - intros tos to w Hempty Hlen Hadm Hto.
    exists (receiver.setEmailTo (map (fun tw => Trim (fst tw) "<>") tos) s).
    assert (Hsize : len (map (fun tw : string * World A => Trim (fst tw) "<>") tos) = N).
    { unfold len in *. rewrite length_map. exact Hlen. }
    split; [| split; [reflexivity | split; [exact Hsize |]]].
    + rewrite (RcptAll_admitted tos s Hadm).
      * rewrite Hempty. reflexivity.
      * rewrite Hempty, HN. unfold len at 1. simpl. lia.
    + apply Rcpt_full; [exact Hto |]. simpl. rewrite HN. lia.
Qed.

Lemma Rcpt_max_recipients_witness :
  len (receiver.emailTo
         (receiver.run (H := scenario.lib) (scenario.session Background false 1024 2)
            [ (receiver.CRcpt "<a@x.com>", scenario.quiet 0 tt);
              (receiver.CRcpt "<b@y.com>", scenario.quiet 1 tt);
              (receiver.CRcpt "<c@z.com>", scenario.quiet 2 tt) ])) <= 2
  /\
  exists sN : receiver.Session unit,
    receiver.RcptAll (H := scenario.lib) (scenario.session Background false 1024 2)
      [ ("<a@x.com>", scenario.quiet 0 tt); ("<b@y.com>", scenario.quiet 1 tt) ]
    = ([None; None], sN)
    /\ receiver.emailTo sN = ["a@x.com"; "b@y.com"]
    /\ len (receiver.emailTo sN) = 2
    /\ receiver.Rcpt (H := scenario.lib) sN "<c@z.com>" (scenario.quiet 2 tt)
       = (Some ErrTooManyRecipients, sN).
Proof.
  destruct (Rcpt_max_recipients scenario.lib unit
              (scenario.session Background false 1024 2) 2 eq_refl ltac:(lia))
    as [Hinv Hfull].
  split.
  - apply Hinv. unfold len. simpl. lia.
  - apply (Hfull [ ("<a@x.com>", scenario.quiet 0 tt); ("<b@y.com>", scenario.quiet 1 tt) ]
                 "<c@z.com>" (scenario.quiet 2 tt)).
    + reflexivity.
    + reflexivity.
    + repeat constructor.
    + reflexivity.
Defined.

(** ** Reading the message *)

Lemma add64_succ (m : Z) : 0 <= m < MaxInt64 -> add64 m 1 = m + 1.
Proof.
  intros Hm. unfold add64. apply wrap64_small. unfold MinInt64, MaxInt64 in *. lia.
Qed.

(** What a limited read takes is a prefix of what the reader held, of
    at most [n] bytes. *)
Lemma ReadAllLimit_prefix (r : Reader) (n : Z) :
  content r = (fst (fst (ReadAllLimit r n)) ++ content (snd (ReadAllLimit r n)))%list
  /\ len (fst (fst (ReadAllLimit r n))) <= Z.max n 0.
Proof.
  unfold ReadAllLimit. destruct (Z.leb_spec n 0).
  - simpl. split; [reflexivity | unfold len; simpl; lia].
  - destruct (Z.leb_spec n (len (content r))); simpl.
    + split; [symmetry; apply take_drop |].
      unfold len in *. rewrite length_take. lia.
    + split; [symmetry; apply app_nil_r | lia].
Qed.

(** C8.  With [MaxSize = M] below the largest [int64]: whenever [Data]
    returns, what it took from the reader is a prefix of at most [M + 1]
    bytes.  Past the authentication gate and under a live context, a
    payload of exactly [M] bytes goes on to be parsed and handed to the
    sender, whose result is the result of [Data]; a reader that holds
    [M + 1] bytes or more makes [Data] fail with [ErrDataTooLarge], the
    session and the world being left as they were. *)
Theorem Data_max_size :
  forall (L : GoLib) (A : Type) (s : receiver.Session A) (M : Z) (w : World A),
    config.MaxSize (config.Limits (receiver.configGlobal s)) = M ->
    0 <= M < MaxInt64 ->
    (forall (r : Reader) (res : option error * receiver.Session A * Reader) (w' : World A),
        receiver.Data s r w = Ret res w' ->
        exists consumed : list Byte.byte,
          content r = (consumed ++ content (snd res))%list /\ len consumed <= M + 1)
    /\
    (config.RequireAuth (receiver.configListener s) && negb (receiver.authenticated s) = false ->
     Err (receiver.ctx s) (now w) = None ->
     (forall r : Reader,
         len (content r) = M -> rerr r = None ->
         receiver.Data s r w
         = bind (receiver.deliver s (content r)) (fun res => ret (res, mkReader [] None)) w)
     /\
     (forall r : Reader,
         M + 1 <= len (content r) ->
         receiver.Data s r w
         = Ret (Some ErrDataTooLarge, s,
                mkReader (drop (Z.to_nat (M + 1)) (content r)) (rerr r)) w)).
Proof.
  intros L A s M w HM Hrange. split.
  - intros r res w'. unfold receiver.Data. rewrite HM, (add64_succ M Hrange).
    destruct (_ && negb _).
    { intros Heq. injection Heq as <- <-. exists []. split; [reflexivity |].
      unfold len. simpl. lia. }
    destruct (Err _ _).
    { intros Heq. injection Heq as <- <-. exists []. split; [reflexivity |].
      unfold len. simpl. lia. }
    pose proof (ReadAllLimit_prefix r (M + 1)) as [Hsplit Hlen].
    destruct (ReadAllLimit r (M + 1)) as [[data e] r']. simpl in Hsplit, Hlen.
    assert (Hbound : len data <= M + 1) by lia.
    destruct e as [err |].
    { intros Heq. injection Heq as <- <-. exists data. split; assumption. }
    destruct (len data >? M).
    { intros Heq. injection Heq as <- <-. exists data. split; assumption. }
    unfold bind. destruct (receiver.deliver s data w) as [res' w2 | msg w2];
      [| discriminate].
    unfold ret. intros Heq. injection Heq as <- <-. exists data. split; assumption.
  - intros Hgate Hlive. split.
    + intros r Hlen Hok. unfold receiver.Data.
      rewrite Hgate, Hlive, HM, (add64_succ M Hrange). unfold ReadAllLimit.
      destruct (Z.leb_spec (M + 1) 0); [lia |].
      destruct (Z.leb_spec (M + 1) (len (content r))); [lia |].
      rewrite Hok, Hlen, Z.gtb_ltb, Z.ltb_irrefl. reflexivity.
    + intros r Hlen. unfold receiver.Data.
      rewrite Hgate, Hlive, HM, (add64_succ M Hrange). unfold ReadAllLimit.
      destruct (Z.leb_spec (M + 1) 0); [lia |].
      destruct (Z.leb_spec (M + 1) (len (content r))); [| lia].
      assert (Htake : len (take (Z.to_nat (M + 1)) (content r)) = M + 1).
      { unfold len in *. rewrite length_take. lia. }
      rewrite Htake, Z.gtb_ltb.
      destruct (Z.ltb_spec M (M + 1)); [reflexivity | lia].
Qed.

Lemma Data_max_size_witness :
  receiver.Data (H := scenario.lib) (scenario.session Background false 2 100)
    (mkReader [Byte.x68; Byte.x69] None) (scenario.quiet 0 tt)
  = bind (receiver.deliver (H := scenario.lib) (scenario.session Background false 2 100)
            [Byte.x68; Byte.x69])
         (fun res => ret (res, mkReader [] None)) (scenario.quiet 0 tt)
  /\
  receiver.Data (H := scenario.lib) (scenario.session Background false 2 100)
    (mkReader [Byte.x68; Byte.x69; Byte.x21; Byte.x21] None) (scenario.quiet 0 tt)
  = Ret (Some ErrDataTooLarge, scenario.session Background false 2 100,
         mkReader [Byte.x21] None) (scenario.quiet 0 tt).
Proof.
  destruct (Data_max_size scenario.lib unit (scenario.session Background false 2 100) 2
              (scenario.quiet 0 tt) eq_refl ltac:(unfold MaxInt64; lia))
    as [_ Hdata].
  destruct (Hdata eq_refl eq_refl) as [Hexact Hover].
  split.
  - apply (Hexact (mkReader [Byte.x68; Byte.x69] None)); reflexivity.
  - apply (Hover (mkReader [Byte.x68; Byte.x69; Byte.x21; Byte.x21] None)).
    unfold len. simpl. lia.
Defined.

(** * Further properties *)

(** ** The retry loop: where its result comes from *)

Lemma Err_cause (ctx : Context) (t : Z) (e : error) :
  Err ctx t = Some e -> e = cause ctx.
Proof.
  unfold Err. destruct (done_at ctx) as [c |]; [| discriminate].
  destruct (c <=? t); [| discriminate]. intros Heq. injection Heq as <-. reflexivity.
Qed.

Section LoopOrigin.
Context {A : Type}.
Variable ctx : Context.
Variable operation : M A (option error).
Variables attempts backoff : Z.

(** A property of worlds that the clock, the random source, the timers
    and the runtime's picks do not disturb. *)
Variable Inv : World A -> Prop.
Hypothesis Inv_now : forall w t, Inv w -> Inv (setNow t w).
Hypothesis Inv_rng : forall w r, Inv w -> Inv (setRng r w).
Hypothesis Inv_ties : forall w b, Inv w -> Inv (setTies b w).
Hypothesis Inv_sleep : forall w d, Inv w -> Inv (logSleep d w).
Hypothesis Inv_operation :
  forall w r w1, Inv w -> operation w = Ret r w1 -> Inv w1.

Lemma Int63n_keeps n (w w' : World A) j :
  utils.Int63n n w = Ret j w' -> Inv w -> Inv w'.
Proof.
  unfold utils.Int63n. destruct (n <=? 0); [discriminate |].
  destruct (rng w) as [| r rs]; intros Heq; injection Heq as _ <-; auto.
Qed.

Lemma select_keeps d (w w' : World A) b :
  utils.selectAfterOrDone ctx d w = Ret b w' -> Inv w -> Inv w'.
Proof.
  unfold utils.selectAfterOrDone. intros Heq Hw. revert Heq.
  destruct (done_at ctx) as [c |]; simpl.
  - destruct (_ <? _).
    + intros Heq. injection Heq as _ <-. auto.
    + destruct (_ <? _).
      * intros Heq. injection Heq as _ <-. auto.
      * destruct (ties w) as [| b0 bs]; intros Heq; injection Heq as _ <-; auto.
  - intros Heq. injection Heq as _ <-. auto.
Qed.

(** When the [ctx.Done()] case of the select runs, [ctx.Err()] is set. *)
Lemma select_done_Err d (w w' : World A) :
  utils.selectAfterOrDone ctx d w = Ret false w' ->
  Err ctx (now w') = Some (cause ctx).
Proof.
  unfold utils.selectAfterOrDone. destruct (done_at ctx) as [c |] eqn:Hc; simpl;
    [| discriminate].
  destruct (Z.ltb_spec (Z.max c (now w)) (now w + Z.max d 0)).
  - intros Heq. injection Heq as <-. apply (Err_done ctx c); [exact Hc | simpl; lia].
  - destruct (Z.ltb_spec (now w + Z.max d 0) (Z.max c (now w))); [discriminate |].
    destruct (ties w) as [| b0 bs]; intros Heq;
      [injection Heq as <- | injection Heq as _ <-];
      apply (Err_done ctx c); try exact Hc; simpl; lia.
Qed.

(** Where a result of the loop comes from: no iteration ran, or the
    operation returned nil, or the context was done, or the operation
    returned that error. *)
Lemma loop_origin (n : nat) :
  forall (i : Z) (err : option error) (w : World A) (r : option error) (w' : World A),
    Inv w ->
    utils.loop ctx operation attempts backoff n i err w = Ret r w' ->
    Inv w' /\
    ((r = err /\ w' = w /\ (attempts <= i \/ n = 0%nat))
     \/ (r = None /\ exists w0, Inv w0 /\ operation w0 = Ret None w')
     \/ (r = Some (cause ctx) /\ Err ctx (now w') = Some (cause ctx))
     \/ (exists e w0 w1, r = Some e /\ Inv w0 /\ operation w0 = Ret (Some e) w1)).
Proof.
  induction n as [| n IH]; intros i err w r w' Hw Hrun.
  - simpl in Hrun. destruct (Z.ltb_spec i attempts);
      injection Hrun as <- <-; (split; [exact Hw |]); left; auto.
  - destruct (Z_lt_le_dec i attempts) as [Hi | Hi].
    2:{ rewrite loop_exit in Hrun by lia. injection Hrun as <- <-.
        split; [exact Hw |]. left. auto. }
    destruct (Err ctx (now w)) as [e |] eqn:He.
    { rewrite (loop_cancelled _ _ _ _ n i err w e Hi He) in Hrun.
      injection Hrun as <- <-. split; [exact Hw |].
      pose proof (Err_cause _ _ _ He) as ->. right. right. left. auto. }
    destruct (operation w) as [[e |] w1 | msg w1] eqn:Hop.
    + rewrite (loop_failure _ _ _ _ n i err w e w1 Hi He Hop) in Hrun.
      pose proof (Inv_operation w _ w1 Hw Hop) as Hw1.
      destruct (utils.Int63n (div64 backoff 4) w1) as [j w2 | msg w2] eqn:Hj;
        [| discriminate].
      pose proof (Int63n_keeps _ _ _ _ Hj Hw1) as Hw2.
      destruct (utils.selectAfterOrDone ctx _ w2) as [[|] w3 | msg w3] eqn:Hsel;
        [| | discriminate].
      * pose proof (select_keeps _ _ _ _ Hsel Hw2) as Hw3.
        destruct (IH (i + 1) (Some e) w3 r w' Hw3 Hrun) as [Hw' Ho].
        split; [exact Hw' |].
        destruct Ho as [(Hr & Hww & _) | [Hnil | [Hd | Hfail]]].
        -- subst. right. right. right. exists e, w, w1. auto.
        -- right. left. exact Hnil.
        -- right. right. left. exact Hd.
        -- right. right. right. exact Hfail.
      * injection Hrun as <- <-.
        split; [apply (select_keeps _ _ _ _ Hsel Hw2) |].
        right. right. left. rewrite (select_done_Err _ _ _ Hsel). auto.
    + rewrite (loop_success _ _ _ _ n i err w w1 Hi He Hop) in Hrun.
      injection Hrun as <- <-. split; [apply (Inv_operation w _ _ Hw Hop) |].
      right. left. split; [reflexivity |]. exists w. auto.
    + rewrite (loop_op_panics _ _ _ _ n i err w msg w1 Hi He Hop) in Hrun. discriminate.
Qed.

End LoopOrigin.

(** X1.  What [DoWithBackoff] returns is never of its own making: nil
    means that no attempt was allowed ([attempts <= 0], nothing ran) or
    that the last call of the operation returned nil; an error is the
    error of the context, which is then done, or an error that a call of
    the operation returned. *)
Theorem DoWithBackoff_result_origin :
  forall (A : Type) (ctx : Context) (operation : M A (option error))
         (attempts backoff : Z) (w w' : World A) (r : option error),
    utils.DoWithBackoff ctx operation attempts backoff w = Ret r w' ->
    (r = None /\ attempts <= 0 /\ w' = w)
    \/ (r = None /\ exists w0, operation w0 = Ret None w')
    \/ (r = Some (cause ctx) /\ Err ctx (now w') = Some (cause ctx))
    \/ (exists e w0 w1, r = Some e /\ operation w0 = Ret (Some e) w1).
Proof.
  intros A ctx operation attempts backoff w w' r Hrun.
  unfold utils.DoWithBackoff in Hrun.
  destruct (loop_origin ctx operation attempts backoff (fun _ => True)
              ltac:(auto) ltac:(auto) ltac:(auto) ltac:(auto) ltac:(auto)
              _ 0 None w r w' I Hrun) as [_ Ho].
  destruct Ho as [(Hr & Hw & Hexit) | [(Hr & w0 & _ & Hnil) | [Hd | (e & w0 & w1 & Hr & _ & Hfail)]]].
  - left. repeat split; [exact Hr | lia | exact Hw].
  - right. left. split; [exact Hr | exists w0; exact Hnil].
  - right. right. left. exact Hd.
  - right. right. right. exists e, w0, w1. split; assumption.
Qed.

Lemma DoWithBackoff_result_origin_witness :
  (@None error = None /\ 3 <= 0 /\ scenario.quiet 0 1%nat = scenario.quiet 0 0%nat)
  \/ (@None error = None /\
      exists w0, scenario.counting (fun _ => None) w0 = Ret None (scenario.quiet 0 1%nat))
  \/ (None = Some (cause Background)
      /\ Err Background (now (scenario.quiet 0 1%nat)) = Some (cause Background))
  \/ (exists e w0 w1, None = Some e
                      /\ scenario.counting (fun _ : nat => @None error) w0 = Ret (Some e) w1).
Proof.
  apply (DoWithBackoff_result_origin nat Background (scenario.counting (fun _ => None))
           3 (5 * Second) (scenario.quiet 0 0%nat) (scenario.quiet 0 1%nat) None).
  reflexivity.
Defined.

(** ** The retry loop: every attempt fails *)

Lemma counting_failed_step_sleeps (ctx : Context) (script : nat -> option error)
    (attempts backoff : Z) (n : nat) (i : Z) (err : option error)
    (w : World nat) (e : error) :
  4 <= backoff <= MaxInt64 -> done_at ctx = None -> i < attempts ->
  script (heap w) = Some e ->
  exists j w',
    utils.loop ctx (scenario.counting script) attempts backoff (S n) i err w
    = utils.loop ctx (scenario.counting script) attempts backoff n (i + 1) (Some e) w'
    /\ heap w' = S (heap w)
    /\ 0 <= j < div64 backoff 4
    /\ slept w' = add64 (mul64 backoff (shl64 1 i)) j :: slept w.
Proof.
  intros Hb Hc Hi Hs.
  assert (Hop : scenario.counting script w = Ret (Some e) (setHeap (S (heap w)) w)).
  { unfold scenario.counting. rewrite Hs. reflexivity. }
  rewrite (loop_failure _ _ _ _ n i err w e _ Hi (Err_never ctx _ Hc) Hop).
  destruct (Int63n_positive (div64 backoff 4) (setHeap (S (heap w)) w)
              (div64_large_backoff backoff Hb))
    as (j & w2 & Hj & Hrange & _ & Hheap & Hslept & _).
  rewrite Hj, (select_never_done ctx _ w2 Hc).
  exists j. eexists. split; [reflexivity |]. simpl.
  rewrite Hheap, Hslept. auto.
Qed.

Lemma counting_all_fail (ctx : Context) (script : nat -> option error)
    (attempts backoff : Z) :
  4 <= backoff <= MaxInt64 -> done_at ctx = None ->
  (forall k, script k <> None) ->
  forall (n : nat) (i : Z) (err : option error) (w : World nat),
    Z.of_nat n = attempts - i ->
    exists js w',
      utils.loop ctx (scenario.counting script) attempts backoff n i err w
      = Ret (match n with O => err | S m => script (heap w + m)%nat end) w'
      /\ heap w' = (heap w + n)%nat
      /\ length js = n
      /\ Forall (fun j => 0 <= j < div64 backoff 4) js
      /\ slept w'
         = (rev (imap (fun k j => add64 (mul64 backoff (shl64 1 (i + Z.of_nat k))) j) js)
            ++ slept w)%list.
Proof.
  intros Hb Hc Hfail. induction n as [| n IH]; intros i err w Hn.
  - exists [], w. rewrite loop_exit by lia. repeat split; auto.
  - destruct (script (heap w)) as [e |] eqn:Hs; [| destruct (Hfail _ Hs)].
    destruct (counting_failed_step_sleeps ctx script attempts backoff n i err w e
                Hb Hc ltac:(lia) Hs) as (j & w1 & -> & Hheap & Hj & Hslept).
    destruct (IH (i + 1) (Some e) w1 ltac:(lia)) as (js & w' & -> & Hheap' & Hlen & Hjs & Hsl).
    exists (j :: js), w'. split; [| split; [| split; [| split]]].
    + f_equal. destruct n as [| m].
      * rewrite <- Hs. f_equal. lia.
      * f_equal. lia.
    + lia.
    + simpl. lia.
    + constructor; assumption.
    + rewrite Hsl, Hslept. simpl. rewrite Z.add_0_r, <- app_assoc. simpl.
      f_equal. f_equal. apply imap_ext. intros k x _. simpl.
      f_equal. f_equal. f_equal. lia.
Qed.

(** X2.  Under a context that never ends and a backoff of at least 4ns,
    an operation that fails at every call is called exactly [attempts]
    times; the result is the error of its last call; and the timer is
    set once after every call, the last one included. *)
Theorem DoWithBackoff_all_fail :
  forall (ctx : Context) (script : nat -> option error) (attempts backoff : Z)
         (w : World nat),
    4 <= backoff <= MaxInt64 -> done_at ctx = None ->
    (forall k, script k <> None) ->
    1 <= attempts -> heap w = 0%nat ->
    exists w',
      utils.DoWithBackoff ctx (scenario.counting script) attempts backoff w
      = Ret (script (Z.to_nat attempts - 1)%nat) w'
      /\ heap w' = Z.to_nat attempts
      /\ length (slept w') = (length (slept w) + Z.to_nat attempts)%nat.
Proof.
  intros ctx script attempts backoff w Hb Hc Hfail Ha Hw.
  destruct (counting_all_fail ctx script attempts backoff Hb Hc Hfail
              (Z.to_nat attempts) 0 None w ltac:(lia))
    as (js & w' & Hrun & Hheap & Hlen & _ & Hsl).
  exists w'. unfold utils.DoWithBackoff. rewrite Hrun. split; [| split].
  - f_equal. destruct (Z.to_nat attempts) as [| m] eqn:Hn; [lia |].
    rewrite Hw. f_equal. lia.
  - lia.
  - rewrite Hsl, length_app, length_rev, length_imap. lia.
Qed.

Lemma DoWithBackoff_all_fail_witness :
  exists w',
    utils.DoWithBackoff Background (scenario.counting scenario.alwaysFails) 4 (5 * Second)
      (scenario.quiet 0 0%nat)
    = Ret (scenario.alwaysFails (Z.to_nat 4 - 1)%nat) w'
    /\ heap w' = Z.to_nat 4
    /\ length (slept w') = (length (slept (scenario.quiet 0 0%nat)) + Z.to_nat 4)%nat.
Proof.
  apply (DoWithBackoff_all_fail Background scenario.alwaysFails 4 (5 * Second)
           (scenario.quiet 0 0%nat)).
  - unfold Second, MaxInt64. lia.
  - reflexivity.
  - intros k. discriminate.
  - lia.
  - reflexivity.
Defined.

Lemma sleep_no_overflow (backoff i j : Z) :
  4 <= backoff -> 0 <= i -> 0 <= j < div64 backoff 4 ->
  backoff * 2 ^ i + Z.quot backoff 4 <= MaxInt64 ->
  add64 (mul64 backoff (shl64 1 i)) j = backoff * 2 ^ i + j /\ j < Z.quot backoff 4.
Proof.
  intros Hb Hi Hj Hmax.
  assert (Hq : 1 <= Z.quot backoff 4 <= backoff)
    by (Z.to_euclidean_division_equations; lia).
  assert (Hp : 0 < 2 ^ i) by (apply Z.pow_pos_nonneg; lia).
  assert (Hbp : 2 ^ i <= backoff * 2 ^ i) by nia.
  assert (Hi63 : i < 63).
  { apply (Z.pow_lt_mono_r_iff 2); [lia | lia |]. unfold MaxInt64 in Hmax. lia. }
  assert (Hdiv : div64 backoff 4 = Z.quot backoff 4).
  { unfold div64. apply wrap64_small. unfold MinInt64, MaxInt64 in *. lia. }
  rewrite Hdiv in Hj.
  unfold shl64. destruct (Z.leb_spec 64 i); [lia |].
  rewrite Z.shiftl_mul_pow2, Z.mul_1_l by lia.
  rewrite (wrap64_small (2 ^ i)) by (unfold MinInt64, MaxInt64 in *; lia).
  unfold mul64. rewrite wrap64_small by (unfold MinInt64, MaxInt64 in *; nia).
  unfold add64. rewrite wrap64_small by (unfold MinInt64, MaxInt64 in *; nia).
  split; [reflexivity | lia].
Qed.

(** X3.  In such a run, as long as the durations fit in an [int64], the
    timer set after attempt [k] (from 0) is [backoff * 2^k] plus a
    jitter in [[0, backoff/4)]. *)
Theorem DoWithBackoff_sleep_schedule :
  forall (ctx : Context) (script : nat -> option error) (attempts backoff : Z)
         (w : World nat),
    4 <= backoff -> done_at ctx = None ->
    (forall k, script k <> None) ->
    1 <= attempts ->
    backoff * 2 ^ (attempts - 1) + Z.quot backoff 4 <= MaxInt64 ->
    exists js w',
      utils.DoWithBackoff ctx (scenario.counting script) attempts backoff w
      = Ret (script (heap w + (Z.to_nat attempts - 1))%nat) w'
      /\ length js = Z.to_nat attempts
      /\ Forall (fun j => 0 <= j < Z.quot backoff 4) js
      /\ slept w' = (rev (imap (fun k j => backoff * 2 ^ Z.of_nat k + j) js) ++ slept w)%list.
Proof.
  intros ctx script attempts backoff w Hb Hc Hfail Ha Hmax.
  assert (Hp : 0 < 2 ^ (attempts - 1)) by (apply Z.pow_pos_nonneg; lia).
  assert (Hb' : 4 <= backoff <= MaxInt64).
  { split; [exact Hb |].
    assert (0 <= Z.quot backoff 4) by (Z.to_euclidean_division_equations; lia). nia. }
  destruct (counting_all_fail ctx script attempts backoff Hb' Hc Hfail
              (Z.to_nat attempts) 0 None w ltac:(lia))
    as (js & w' & Hrun & Hheap & Hlen & Hjs & Hsl).
  exists js, w'. unfold utils.DoWithBackoff. rewrite Hrun.
  split; [| split; [exact Hlen | split]].
  - f_equal. destruct (Z.to_nat attempts) as [| m] eqn:Hn; [lia |]. f_equal. lia.
  - rewrite Forall_forall in *. intros j Hin.
    assert (Hq : div64 backoff 4 = Z.quot backoff 4).
    { unfold div64. apply wrap64_small.
      assert (1 <= Z.quot backoff 4 <= backoff)
        by (Z.to_euclidean_division_equations; lia).
      unfold MinInt64, MaxInt64 in *. lia. }
    rewrite <- Hq. apply Hjs, Hin.
  - rewrite Hsl. f_equal. f_equal. apply imap_ext. intros k j Hk. simpl.
    assert (Hklt : (k < Z.to_nat attempts)%nat).
    { rewrite <- Hlen. apply lookup_lt_Some in Hk. exact Hk. }
    assert (Hjr : 0 <= j < div64 backoff 4).
    { rewrite Forall_forall in Hjs. apply Hjs.
      apply list_elem_of_lookup. exists k. exact Hk. }
    apply sleep_no_overflow; try lia.
    assert (Hmono : 2 ^ Z.of_nat k <= 2 ^ (attempts - 1))
      by (apply Z.pow_le_mono_r; lia).
    nia.
Qed.

Lemma DoWithBackoff_sleep_schedule_witness :
  exists js w',
    utils.DoWithBackoff Background (scenario.counting scenario.alwaysFails) 3 (5 * Second)
      (scenario.quiet 0 0%nat)
    = Ret (scenario.alwaysFails (heap (scenario.quiet 0 0%nat) + (Z.to_nat 3 - 1))%nat) w'
    /\ length js = Z.to_nat 3
    /\ Forall (fun j => 0 <= j < Z.quot (5 * Second) 4) js
    /\ slept w' = (rev (imap (fun k j => 5 * Second * 2 ^ Z.of_nat k + j) js)
                   ++ slept (scenario.quiet 0 0%nat))%list.
Proof.
  apply (DoWithBackoff_sleep_schedule Background scenario.alwaysFails 3 (5 * Second)
           (scenario.quiet 0 0%nat)).
  - unfold Second. lia.
  - reflexivity.
  - intros k. discriminate.
  - lia.
  - vm_compute. discriminate.
Defined.

(** ** The Graph sender: requests and answers *)

Section SenderFacts.
Context {L : GoLib}.

(** [Do] always returns; it hands one request to the network, takes at
    most one answer from it, and what it returns as a response is that
    answer. *)
Lemma Do_shape {A} (timeout : Z) (ctx : Context) (req : HttpRequest) (w : World A) :
  exists r w',
    sender.Do timeout ctx req w = Ret r w'
    /\ heap w' = heap w
    /\ suffix (net w') (net w)
    /\ (forall resp, r = inr resp -> exists o, net w = o :: net w' /\ answer o = inr resp)
    /\ exists d, wire w' = mkRequest (req_method req) (req_url req) (req_headers req)
                                     (req_body req) d :: wire w.
Proof.
  unfold sender.Do. simpl.
  set (ctx' := if 0 <? timeout then WithTimeout ctx timeout (now w) else ctx).
  destruct (net w) as [| o os] eqn:Hnet.
  - eexists _, _. split; [reflexivity |]. simpl. rewrite Hnet.
    repeat split; [reflexivity | discriminate | eexists; reflexivity].
  - simpl. destruct (done_at ctx') as [c |].
    + destruct (c <=? now w + Z.max 0 (latency o)).
      * eexists _, _. split; [reflexivity |]. simpl.
        repeat split; [apply suffix_cons_r; reflexivity | discriminate
                      | eexists; reflexivity].
      * eexists _, _. split; [reflexivity |]. simpl.
        repeat split; [apply suffix_cons_r; reflexivity | | eexists; reflexivity].
        intros resp Hr. exists o. split; [reflexivity | exact Hr].
    + eexists _, _. split; [reflexivity |]. simpl.
      repeat split; [apply suffix_cons_r; reflexivity | | eexists; reflexivity].
      intros resp Hr. exists o. split; [reflexivity | exact Hr].
Qed.

(** [getAuthToken] always returns, leaves the sender as it is, and
    stamps a token with the instant of the answer plus its lifetime. *)
Lemma getAuthToken_shape (ctx : Context) (w : World sender.GraphSender) :
  exists r w',
    sender.getAuthToken ctx w = Ret r w'
    /\ heap w' = heap w
    /\ suffix (net w') (net w)
    /\ forall tok, r = inr tok ->
         exists tokenResp,
           tok = sender.mkAuthToken (AccessToken tokenResp)
                                    (now w' + mul64 (ExpiresIn tokenResp) Second).
Proof.
  unfold sender.getAuthToken.
  destruct (sender.NewRequestWithContext _ _ _ _) as [err | req].
  - eexists _, w. split; [reflexivity |]. repeat split; [reflexivity | discriminate].
  - unfold bind.
    destruct (Do_shape (sender.httpClient_Timeout (heap w)) ctx
                (sender.Header_Set "Content-Type" "application/x-www-form-urlencoded" req) w)
      as (r & w' & -> & Hheap & Hsuf & _).
    destruct r as [err | resp];
      [eexists _, w'; split; [reflexivity |]; repeat split; auto; discriminate |].
    destruct (negb (StatusCode resp =? 200));
      [eexists _, w'; split; [reflexivity |]; repeat split; auto; discriminate |].
    destruct (ReadAllLimit (Body resp) (Z.shiftl 1 20)) as [[body [err |]] r'];
      [eexists _, w'; split; [reflexivity |]; repeat split; auto; discriminate |].
    destruct (json_Unmarshal_AuthTokenResponse body) as [err | tokenResp];
      eexists _, w'; (split; [reflexivity |]); repeat split; auto; try discriminate.
    intros tok Heq. injection Heq as <-. exists tokenResp. reflexivity.
Qed.

(** The three ways [Authenticate] ends: the cached token is fresh and
    nothing happens; the request fails and the sender is as it was; the
    request succeeds and the new token is stored. *)
Lemma Authenticate_cases (ctx : Context) (w : World sender.GraphSender) :
  exists r w',
    sender.Authenticate ctx w = Ret r w'
    /\ suffix (net w') (net w)
    /\ ((r = None /\ w' = w
         /\ exists tok, sender.token (heap w) = Some tok
                        /\ 1 * Minute < sender.ExpiresAt tok - now w)
        \/ (exists err, r = Some (Wrapf "authentication failed: %w" err)
                        /\ heap w' = heap w)
        \/ (r = None
            /\ exists tokenResp,
                 heap w' = sender.setToken
                             (Some (sender.mkAuthToken (AccessToken tokenResp)
                                      (now w' + mul64 (ExpiresIn tokenResp) Second)))
                             (heap w))).
Proof.
  unfold sender.Authenticate.
  assert (Hrefresh :
    exists r w',
      bind (sender.getAuthTokenWithTimeout ctx (10 * Second))
           (fun r => match r with
                     | inl err => ret (Some (Wrapf "authentication failed: %w" err))
                     | inr tok => fun w => Ret None (setHeap (sender.setToken (Some tok) (heap w)) w)
                     end) w = Ret r w'
      /\ suffix (net w') (net w)
      /\ ((exists err, r = Some (Wrapf "authentication failed: %w" err)
                       /\ heap w' = heap w)
          \/ (r = None
              /\ exists tokenResp,
                   heap w' = sender.setToken
                               (Some (sender.mkAuthToken (AccessToken tokenResp)
                                        (now w' + mul64 (ExpiresIn tokenResp) Second)))
                               (heap w)))).
  { unfold bind, sender.getAuthTokenWithTimeout.
    destruct (getAuthToken_shape (WithTimeout ctx (10 * Second) (now w)) w)
      as (r & w1 & -> & Hheap & Hsuf & Htok).
    destruct r as [err | tok].
    - eexists _, w1. split; [reflexivity |]. split; [exact Hsuf |].
      left. exists err. auto.
    - eexists _, _. split; [reflexivity |]. simpl. split; [exact Hsuf |].
      right. split; [reflexivity |].
      destruct (Htok tok eq_refl) as (tokenResp & ->).
      exists tokenResp. rewrite Hheap. reflexivity. }
  destruct (sender.token (heap w)) as [tok |] eqn:Htok.
  - unfold sender.Until.
    destruct (Z.ltb_spec (1 * Minute) (satSub (sender.ExpiresAt tok) (now w))) as [Hf | _].
    + exists None, w. split; [reflexivity |]. split; [reflexivity |].
      left. repeat split. exists tok. split; [reflexivity |].
      rewrite Z.mul_1_l in *. apply satSub_gt_minute. exact Hf.
    + destruct Hrefresh as (r & w' & Hrun & Hsuf & Hcases).
      exists r, w'. split; [exact Hrun |]. split; [exact Hsuf |]. right. exact Hcases.
  - destruct Hrefresh as (r & w' & Hrun & Hsuf & Hcases).
    exists r, w'. split; [exact Hrun |]. split; [exact Hsuf |]. right. exact Hcases.
Qed.

(** Once [Authenticate] has returned nil with a token in the sender, the
    rest of [sendEmailOnce] always returns; it returns nil only for an
    answer 202; and when the request can be built, it is the one request
    that goes out. *)
Lemma sendEmailOnce_authenticated (ctx : Context) (from : string) (to : list string)
    (subject : string) (body : list Byte.byte)
    (w w1 : World sender.GraphSender) (tok : sender.AuthToken) :
  sender.Authenticate ctx w = Ret None w1 ->
  sender.token (heap w1) = Some tok ->
  exists r w',
    sender.sendEmailOnce ctx from to subject body w = Ret r w'
    /\ heap w' = heap w1
    /\ suffix (net w') (net w1)
    /\ (r = None ->
        exists o resp, net w1 = o :: net w' /\ answer o = inr resp /\ StatusCode resp = 202)
    /\ (forall data,
          let sender_ := if negb (String.eqb (sender.mailbox (heap w1)) "")
                         then sender.mailbox (heap w1) else from in
          let apiUrl := "https://graph.microsoft.com/v1.0/users/"
                        ++ url_PathEscape sender_ ++ "/sendMail" in
          url_Parse apiUrl = None ->
          json_Marshal_SendEmailRequest (sender.makeEmailRequest sender_ to subject body)
          = inr data ->
          exists d,
            wire w' = mkRequest "POST" apiUrl
                        [ ("Content-Type", "application/json");
                          ("Authorization", "Bearer " ++ sender.Token tok) ]
                        data d :: wire w1).
Proof.
  intros Hauth Htok. unfold sender.sendEmailOnce, bind. rewrite Hauth.
  set (sender_ := if negb (String.eqb (sender.mailbox (heap w1)) "")
                  then sender.mailbox (heap w1) else from).
  destruct (json_Marshal_SendEmailRequest (sender.makeEmailRequest sender_ to subject body))
    as [err | data] eqn:Hmarshal.
  { eexists _, w1. split; [reflexivity |].
    repeat split; [reflexivity | discriminate | discriminate]. }
  unfold sender.NewRequestWithContext.
  destruct (url_Parse _) as [err |] eqn:Hurl.
  { eexists _, w1. split; [reflexivity |].
    repeat split; [reflexivity | discriminate | discriminate]. }
  rewrite Htok.
  match goal with
  | |- context [sender.Do ?t ?c ?rq w1] =>
      destruct (Do_shape t c rq w1) as (r & w' & -> & Hheap & Hsuf & Hresp & d & Hwire)
  end.
  assert (Hshape : forall data0 : list Byte.byte,
             @None error = None -> @inr error (list Byte.byte) data = inr data0 ->
             exists d0,
               wire w' = mkRequest "POST"
                           ("https://graph.microsoft.com/v1.0/users/"
                            ++ url_PathEscape sender_ ++ "/sendMail")
                           [ ("Content-Type", "application/json");
                             ("Authorization", "Bearer " ++ sender.Token tok) ]
                           data0 d0 :: wire w1).
  { intros data0 _ Heq. injection Heq as <-. exists d. exact Hwire. }
  destruct r as [err | resp].
  { eexists _, w'. split; [reflexivity |].
    repeat split; [exact Hheap | exact Hsuf | discriminate | exact Hshape]. }
  destruct (ReadAllLimit (Body resp) (Z.shiftl 10 20)) as [[respData [err |]] r'].
  { eexists _, w'. split; [reflexivity |].
    repeat split; [exact Hheap | exact Hsuf | discriminate | exact Hshape]. }
  destruct (Z.eqb_spec (StatusCode resp) 202) as [Hst | Hst]; simpl.
  - eexists _, w'. split; [reflexivity |].
    repeat split; [exact Hheap | exact Hsuf | | exact Hshape].
    intros _. destruct (Hresp resp eq_refl) as (o & Hnet & Hans).
    exists o, resp. auto.
  - destruct (json_Unmarshal_SendEmailErrorResponse respData) as [err | errorResp];
      (eexists _, w'; split; [reflexivity |];
       repeat split; [exact Hheap | exact Hsuf | discriminate | exact Hshape]).
Qed.

(** [sendEmailOnce] always returns: the token it reads is there whenever
    it reads it.  It only takes answers off the network, and it returns
    nil only if one of them was a 202. *)
Lemma sendEmailOnce_shape (ctx : Context) (from : string) (to : list string)
    (subject : string) (body : list Byte.byte) (w : World sender.GraphSender) :
  exists r w',
    sender.sendEmailOnce ctx from to subject body w = Ret r w'
    /\ suffix (net w') (net w)
    /\ sender.backoff (heap w') = sender.backoff (heap w)
    /\ (r = None ->
        exists o resp, In o (net w) /\ answer o = inr resp /\ StatusCode resp = 202).
Proof.
  destruct (Authenticate_cases ctx w) as (r & w1 & Hauth & Hsuf & Hcases).
  assert (Hgo : forall tok, r = None -> sender.token (heap w1) = Some tok ->
                            sender.backoff (heap w1) = sender.backoff (heap w) ->
            exists r' w',
              sender.sendEmailOnce ctx from to subject body w = Ret r' w'
              /\ suffix (net w') (net w)
              /\ sender.backoff (heap w') = sender.backoff (heap w)
              /\ (r' = None ->
                  exists o resp, In o (net w) /\ answer o = inr resp /\ StatusCode resp = 202)).
  { intros tok -> Htok Hback.
    destruct (sendEmailOnce_authenticated ctx from to subject body w w1 tok Hauth Htok)
      as (r' & w' & Hrun & Hheap & Hsuf' & Hnil & _).
    exists r', w'. split; [exact Hrun |]. split; [etrans; eassumption |].
    split; [rewrite Hheap; exact Hback |].
    intros Hr. destruct (Hnil Hr) as (o & resp & Hnet & Hans & Hst).
    exists o, resp. split; [| auto].
    destruct Hsuf as [k ->]. apply in_or_app. right. rewrite Hnet. left. reflexivity. }
  destruct Hcases as [(Hr & -> & tok & Htok & _) | [(err & -> & Hheap) | (Hr & tokenResp & Hheap)]].
  - apply (Hgo tok Hr Htok eq_refl).
  - exists (Some (Wrapf "authentication failed: %w"
                    (Wrapf "authentication failed: %w" err))), w1.
    split; [unfold sender.sendEmailOnce, bind; rewrite Hauth; reflexivity |].
    split; [exact Hsuf |]. split; [rewrite Hheap; reflexivity | discriminate].
  - apply (Hgo (sender.mkAuthToken (AccessToken tokenResp)
                  (now w1 + mul64 (ExpiresIn tokenResp) Second)) Hr);
      rewrite Hheap; reflexivity.
Qed.

End SenderFacts.

Section LoopReturns.
Context {A : Type}.
Variable ctx : Context.
Variable operation : M A (option error).
Variables attempts backoff : Z.
Hypothesis operation_returns : forall w, exists r w', operation w = Ret r w'.
Hypothesis jitter_bound : 0 < div64 backoff 4.

Lemma select_returns d (w : World A) :
  exists b w', utils.selectAfterOrDone ctx d w = Ret b w'.
Proof.
  unfold utils.selectAfterOrDone. destruct (done_at ctx) as [c |]; simpl.
  - destruct (_ <? _); [eexists _, _; reflexivity |].
    destruct (_ <? _); [eexists _, _; reflexivity |].
    destruct (ties w); eexists _, _; reflexivity.
  - eexists _, _. reflexivity.
Qed.

(** With an operation that always returns and a positive bound for the
    jitter, the loop always returns. *)
Lemma loop_returns (n : nat) :
  forall (i : Z) (err : option error) (w : World A),
    exists r w', utils.loop ctx operation attempts backoff n i err w = Ret r w'.
Proof.
  induction n as [| n IH]; intros i err w.
  - simpl. destruct (i <? attempts); eexists _, _; reflexivity.
  - destruct (Z_lt_le_dec i attempts) as [Hi | Hi].
    2:{ rewrite loop_exit by lia. eexists _, _. reflexivity. }
    destruct (Err ctx (now w)) as [e |] eqn:He.
    { rewrite (loop_cancelled _ _ _ _ n i err w e Hi He). eexists _, _. reflexivity. }
    destruct (operation_returns w) as ([e |] & w1 & Hop).
    + rewrite (loop_failure _ _ _ _ n i err w e w1 Hi He Hop).
      destruct (Int63n_positive (div64 backoff 4) w1 jitter_bound) as (j & w2 & -> & _).
      destruct (select_returns (add64 (mul64 backoff (shl64 1 i)) j) w2)
        as ([|] & w3 & ->).
      * apply IH.
      * eexists _, _. reflexivity.
    + rewrite (loop_success _ _ _ _ n i err w w1 Hi He Hop). eexists _, _. reflexivity.
Qed.

End LoopReturns.

(** X4.  [sendEmailOnce] never panics: whenever it reads [gs.token],
    [Authenticate] has just returned nil and a token is there.  With a
    backoff of at least 4ns, [SendEmail] never panics either, whatever
    the number of retries and whatever the network answers. *)
Theorem SendEmail_never_panics :
  forall (L : GoLib) (ctx : Context) (from : string) (to : list string)
         (subject : string) (body : list Byte.byte) (w : World sender.GraphSender),
    (exists r w', sender.sendEmailOnce ctx from to subject body w = Ret r w')
    /\ (4 <= sender.backoff (heap w) <= MaxInt64 ->
        exists r w', sender.SendEmail ctx from to subject body w = Ret r w').
Proof.
  intros L ctx from to subject body w. split.
  - destruct (sendEmailOnce_shape ctx from to subject body w) as (r & w' & Hrun & _).
    exists r, w'. exact Hrun.
  - intros Hb. unfold sender.SendEmail, utils.DoWithBackoff.
    apply loop_returns.
    + intros w0. destruct (sendEmailOnce_shape ctx from to subject body w0)
        as (r & w' & Hrun & _).
      exists r, w'. exact Hrun.
    + apply div64_large_backoff. exact Hb.
Qed.

Lemma SendEmail_never_panics_witness :
  exists r w',
    sender.SendEmail (H := scenario.lib) Background "a@x.com" ["b@y.com"] "hello" []
      (fixtures.online 0 [fixtures.answered 500 "500 Internal Server Error" ""]
         scenario.graph) = Ret r w'.
Proof.
  apply (proj2 (SendEmail_never_panics scenario.lib Background "a@x.com" ["b@y.com"]
                  "hello" []
                  (fixtures.online 0 [fixtures.answered 500 "500 Internal Server Error" ""]
                     scenario.graph))).
  vm_compute. split; discriminate.
Defined.

Lemma Authenticate_fresh {L : GoLib} (ctx : Context) (w : World sender.GraphSender)
    (tok : sender.AuthToken) :
  sender.token (heap w) = Some tok ->
  1 * Minute < sender.ExpiresAt tok - now w ->
  sender.Authenticate ctx w = Ret None w.
Proof.
  intros Htok Hfresh. unfold sender.Authenticate, sender.Until. rewrite Htok.
  destruct (Z.ltb_spec (1 * Minute) (satSub (sender.ExpiresAt tok) (now w))) as [_ | Hn];
    [reflexivity |].
  exfalso. rewrite Z.mul_1_l in *. apply satSub_gt_minute in Hfresh. lia.
Qed.

(** X5.  With a fresh token in the cache, [sendEmailOnce] hands exactly
    one request to the network and leaves the sender as it is: a POST to
    the [sendMail] URL of the configured mailbox, or of the client's
    sender when no mailbox is configured, with the cached token as
    bearer, carrying the message whose sender is that same address and
    whose recipients are the given ones in order. *)
Theorem sendEmailOnce_request :
  forall (L : GoLib) (ctx : Context) (from : string) (to : list string)
         (subject : string) (body data : list Byte.byte)
         (w : World sender.GraphSender) (tok : sender.AuthToken)
         (sender_ apiUrl : string),
    sender.token (heap w) = Some tok ->
    1 * Minute < sender.ExpiresAt tok - now w ->
    sender_ = (if negb (String.eqb (sender.mailbox (heap w)) "")
               then sender.mailbox (heap w) else from) ->
    apiUrl = "https://graph.microsoft.com/v1.0/users/" ++ url_PathEscape sender_
             ++ "/sendMail" ->
    url_Parse apiUrl = None ->
    json_Marshal_SendEmailRequest (sender.makeEmailRequest sender_ to subject body)
    = inr data ->
    (exists r w' d,
        sender.sendEmailOnce ctx from to subject body w = Ret r w'
        /\ heap w' = heap w
        /\ wire w' = mkRequest "POST" apiUrl
                       [ ("Content-Type", "application/json");
                         ("Authorization", "Bearer " ++ sender.Token tok) ]
                       data d :: wire w)
    /\ Address (From (Message_ (sender.makeEmailRequest sender_ to subject body))) = sender_
    /\ map Address (ToRecipients (Message_ (sender.makeEmailRequest sender_ to subject body)))
       = to.
Proof.
  intros L ctx from to subject body data w tok sender_ apiUrl Htok Hfresh -> -> Hurl Hm.
  split; [| split; [reflexivity |]].
  - destruct (sendEmailOnce_authenticated ctx from to subject body w w tok
                (Authenticate_fresh ctx w tok Htok Hfresh) Htok)
      as (r & w' & Hrun & Hheap & _ & _ & Hshape).
    destruct (Hshape data Hurl Hm) as (d & Hwire).
    exists r, w', d. auto.
  - simpl. rewrite map_map. simpl. apply map_id.
Qed.

Lemma sendEmailOnce_request_witness :
  exists r w' d,
    sender.sendEmailOnce (H := scenario.lib) Background "a@x.com" ["b@y.com"] "hello" []
      (fixtures.online 0 [fixtures.answered 202 "202 Accepted" ""]
         (fixtures.withToken (2 * Minute))) = Ret r w'
    /\ heap w' = fixtures.withToken (2 * Minute)
    /\ wire w' = [ mkRequest "POST" "https://graph.microsoft.com/v1.0/users/a@x.com/sendMail"
                     [ ("Content-Type", "application/json");
                       ("Authorization", "Bearer cached") ] [] d ].
Proof.
  apply (proj1 (sendEmailOnce_request scenario.lib Background "a@x.com" ["b@y.com"] "hello"
                  [] []
                  (fixtures.online 0 [fixtures.answered 202 "202 Accepted" ""]
                     (fixtures.withToken (2 * Minute)))
                  (sender.mkAuthToken "cached" (2 * Minute))
                  "a@x.com" "https://graph.microsoft.com/v1.0/users/a@x.com/sendMail"
                  eq_refl eq_refl eq_refl eq_refl eq_refl eq_refl)).
Defined.

(** X6.  [SendEmail] reports success only if it was given no attempt
    ([retries <= 0]) or if the network answered 202 to one of its
    requests. *)
Theorem SendEmail_nil_only_if_accepted :
  forall (L : GoLib) (ctx : Context) (from : string) (to : list string)
         (subject : string) (body : list Byte.byte) (w w' : World sender.GraphSender),
    sender.SendEmail ctx from to subject body w = Ret None w' ->
    sender.retries (heap w) <= 0
    \/ exists o resp, In o (net w) /\ answer o = inr resp /\ StatusCode resp = 202.
Proof.
  intros L ctx from to subject body w w' Hrun.
  unfold sender.SendEmail, utils.DoWithBackoff in Hrun.
  assert (Hop : forall w0 r w1,
             suffix (net w0) (net w) ->
             sender.sendEmailOnce ctx from to subject body w0 = Ret r w1 ->
             suffix (net w1) (net w)).
  { intros w0 r w1 Hw0 Hop.
    destruct (sendEmailOnce_shape ctx from to subject body w0) as (r' & w1' & Hrun' & Hsuf & _).
    rewrite Hop in Hrun'. injection Hrun' as <- <-. etrans; eassumption. }
  destruct (loop_origin ctx (sender.sendEmailOnce ctx from to subject body)
              (sender.retries (heap w)) (sender.backoff (heap w))
              (fun w0 => suffix (net w0) (net w))
              (fun w0 t Hw0 => Hw0) (fun w0 r Hw0 => Hw0) (fun w0 b Hw0 => Hw0)
              (fun w0 d Hw0 => Hw0) Hop
              (Z.to_nat (sender.retries (heap w))) 0 None w None w'
              (reflexivity (net w)) Hrun) as [_ Ho].
  destruct Ho as [(_ & _ & Hexit) | [(_ & w0 & Hw0 & Hnil) | [(Hr & _) | (e & w0 & w1 & Hr & _)]]];
    try discriminate.
  - left. lia.
  - right.
    destruct (sendEmailOnce_shape ctx from to subject body w0)
      as (r' & w1' & Hrun' & _ & _ & Hacc).
    rewrite Hnil in Hrun'. injection Hrun' as <- <-.
    destruct (Hacc eq_refl) as (o & resp & Hin & Hans & Hst).
    exists o, resp. split; [| auto].
    destruct Hw0 as [k ->]. apply in_or_app. right. exact Hin.
Qed.

Lemma SendEmail_nil_only_if_accepted_witness :
  sender.retries (heap (fixtures.online 0 [fixtures.answered 202 "202 Accepted" ""]
                          (fixtures.withToken (2 * Minute)))) <= 0
  \/ exists o resp,
       In o (net (fixtures.online 0 [fixtures.answered 202 "202 Accepted" ""]
                    (fixtures.withToken (2 * Minute))))
       /\ answer o = inr resp /\ StatusCode resp = 202.
Proof.
  apply (SendEmail_nil_only_if_accepted scenario.lib Background "a@x.com" ["b@y.com"]
           "hello" []
           (fixtures.online 0 [fixtures.answered 202 "202 Accepted" ""]
              (fixtures.withToken (2 * Minute)))
           (mkWorld 5 [] [] []
              [ mkRequest "POST" "https://graph.microsoft.com/v1.0/users/a@x.com/sendMail"
                  [ ("Content-Type", "application/json");
                    ("Authorization", "Bearer cached") ] [] (Some (10 * Second)) ]
              [] (fixtures.withToken (2 * Minute)))).
  vm_compute. reflexivity.
Defined.

(** A token comes out of [getAuthToken] at the instant the answer
    arrives, and the answer is then taken off the network. *)
Lemma getAuthToken_instant {L : GoLib} (ctx : Context) (w w' : World sender.GraphSender)
    (tok : sender.AuthToken) :
  sender.getAuthToken ctx w = Ret (inr tok) w' ->
  exists o os, net w = o :: os /\ now w' = now w + Z.max 0 (latency o).
Proof.
  unfold sender.getAuthToken.
  destruct (sender.NewRequestWithContext _ _ _ _) as [err | req]; [discriminate |].
  unfold bind.
  destruct (sender.Do _ _ _ w) as [[err | resp] w1 | msg w1] eqn:HDo; try discriminate.
  assert (Hw1 : exists o os, net w = o :: os /\ now w1 = now w + Z.max 0 (latency o)).
  { revert HDo. unfold sender.Do. simpl. destruct (net w) as [| o os]; [discriminate |].
    intros HDo. exists o, os. split; [reflexivity |]. revert HDo.
    destruct (done_at _) as [c |]; [destruct (_ <=? _); [discriminate |] |];
      intros Heq; injection Heq as _ <-; reflexivity. }
  destruct (negb (StatusCode resp =? 200)); [discriminate |].
  destruct (ReadAllLimit (Body resp) (Z.shiftl 1 20)) as [[body [err |]] rest];
    [discriminate |].
  destruct (json_Unmarshal_AuthTokenResponse body) as [err | tokenResp]; [discriminate |].
  intros Heq. injection Heq as _ <-. exact Hw1.
Qed.

(** X7.  When [Authenticate] succeeds by asking for a token, the network
    answered 200 with a body that reads and decodes, and the token it
    stores is the decoded one, expiring at the instant the answer
    arrived plus the decoded [expires_in] in seconds.  If that lifetime
    is more than a minute, a second [Authenticate] right after is
    answered from the cache; if it is a minute or less (or wraps around
    to that), the token is never reused: every later [Authenticate] goes
    through the token request again, and the request goes out whenever
    the token URL parses. *)
Theorem Authenticate_token_lifetime :
  forall (L : GoLib) (ctx : Context) (w w' : World sender.GraphSender),
    (forall tok, sender.token (heap w) = Some tok ->
                 sender.ExpiresAt tok - now w <= 1 * Minute) ->
    sender.Authenticate ctx w = Ret None w' ->
    exists o os resp body rest tokenResp,
      net w = o :: os /\ answer o = inr resp /\ StatusCode resp = 200
      /\ ReadAllLimit (Body resp) (Z.shiftl 1 20) = (body, None, rest)
      /\ json_Unmarshal_AuthTokenResponse body = inr tokenResp
      /\ now w' = now w + Z.max 0 (latency o)
      /\ heap w' = sender.setToken
                     (Some (sender.mkAuthToken (AccessToken tokenResp)
                              (now w' + mul64 (ExpiresIn tokenResp) Second)))
                     (heap w)
      /\ (1 * Minute < mul64 (ExpiresIn tokenResp) Second ->
          forall ctx2, sender.Authenticate ctx2 w' = Ret None w')
      /\ (mul64 (ExpiresIn tokenResp) Second <= 1 * Minute ->
          forall ctx2 w2,
            heap w2 = heap w' -> now w' <= now w2 ->
            exists r2 w2',
              sender.getAuthTokenWithTimeout ctx2 (10 * Second) w2 = Ret r2 w2'
              /\ sender.Authenticate ctx2 w2
                 = match r2 with
                   | inl err => Ret (Some (Wrapf "authentication failed: %w" err)) w2'
                   | inr tok => Ret None (setHeap (sender.setToken (Some tok) (heap w2')) w2')
                   end
              /\ (url_Parse ("https://login.microsoftonline.com/"
                             ++ sender.tenantID (heap w) ++ "/oauth2/v2.0/token") = None ->
                  exists d,
                    wire w2'
                    = mkRequest "POST"
                        ("https://login.microsoftonline.com/"
                         ++ sender.tenantID (heap w) ++ "/oauth2/v2.0/token")
                        [ ("Content-Type", "application/x-www-form-urlencoded") ]
                        (list_byte_of_string
                           (url_Encode [ ("grant_type", "client_credentials");
                                         ("scope", "https://graph.microsoft.com/.default");
                                         ("client_id", sender.clientID (heap w));
                                         ("client_secret", sender.clientSecret (heap w)) ]))
                        (Some d) :: wire w2)).
Proof.
  intros L ctx w w' Hstale Hrun.
  assert (Hrefresh :
    exists tok w1,
      sender.getAuthToken (WithTimeout ctx (10 * Second) (now w)) w = Ret (inr tok) w1
      /\ w' = setHeap (sender.setToken (Some tok) (heap w1)) w1).
  { revert Hrun. unfold sender.Authenticate, sender.Until.
    destruct (sender.token (heap w)) as [tok |] eqn:Htok.
    - destruct (Z.ltb_spec (1 * Minute) (satSub (sender.ExpiresAt tok) (now w))) as [Hf | _].
      + exfalso. rewrite Z.mul_1_l in Hf. apply satSub_gt_minute in Hf.
        specialize (Hstale tok eq_refl). lia.
      + unfold bind, sender.getAuthTokenWithTimeout.
        destruct (sender.getAuthToken _ w) as [[err | tok1] w1 | msg w1]; try discriminate.
        intros Heq. injection Heq as <-. exists tok1, w1. split; reflexivity.
    - unfold bind, sender.getAuthTokenWithTimeout.
      destruct (sender.getAuthToken _ w) as [[err | tok1] w1 | msg w1]; try discriminate.
      intros Heq. injection Heq as <-. exists tok1, w1. split; reflexivity. }
  destruct Hrefresh as (tok & w1 & Hget & ->).
  destruct (getAuthToken_success _ _ _ _ Hget)
    as (o & os & resp & body & rest & tokenResp & Hnet & Hans & Hst & Hread & Hjson & ->).
  destruct (getAuthToken_instant _ _ _ _ Hget) as (o' & os' & Hnet' & Hnow).
  rewrite Hnet in Hnet'. injection Hnet' as <- <-.
  destruct (getAuthToken_shape (WithTimeout ctx (10 * Second) (now w)) w)
    as (r0 & w0 & Hget0 & Hheap1 & _).
  rewrite Hget in Hget0. injection Hget0 as <- <-.
  assert (Hheap : heap (setHeap (sender.setToken
                                   (Some (sender.mkAuthToken (AccessToken tokenResp)
                                            (now w1 + mul64 (ExpiresIn tokenResp) Second)))
                                   (heap w1)) w1)
                  = sender.setToken
                      (Some (sender.mkAuthToken (AccessToken tokenResp)
                               (now w1 + mul64 (ExpiresIn tokenResp) Second)))
                      (heap w))
    by (simpl; rewrite Hheap1; reflexivity).
  set (w' := setHeap _ w1) in *.
  assert (Hnow' : now w' = now w1) by reflexivity.
  exists o, os, resp, body, rest, tokenResp.
  split; [exact Hnet |]. split; [exact Hans |]. split; [exact Hst |].
  split; [exact Hread |]. split; [exact Hjson |].
  split; [rewrite Hnow'; exact Hnow |].
  split; [rewrite Hnow'; exact Hheap |]. split.
  - intros Hlong ctx2.
    apply (Authenticate_fresh ctx2 w'
             (sender.mkAuthToken (AccessToken tokenResp)
                (now w1 + mul64 (ExpiresIn tokenResp) Second))).
    + rewrite Hheap. reflexivity.
    + rewrite Hnow'. simpl. lia.
  - intros Hshort ctx2 w2 Hsame Hlater.
    destruct (WithTimeout_deadline ctx2 (10 * Second) (now w2)) as (c0 & Hc0 & _).
    destruct (getAuthToken_under_deadline (WithTimeout ctx2 (10 * Second) (now w2)) w2 c0 Hc0)
      as (r2 & w2' & Hget2 & _ & _ & Hwire).
    exists r2, w2'. split; [exact Hget2 |]. split.
    + unfold sender.Authenticate, sender.Until. rewrite Hsame, Hheap. simpl.
      destruct (Z.ltb_spec (1 * Minute)
                  (satSub (now w1 + mul64 (ExpiresIn tokenResp) Second) (now w2)))
        as [Hf | _].
      * exfalso. rewrite Z.mul_1_l in *. apply satSub_gt_minute in Hf. lia.
      * unfold bind.
        change (sender.getAuthTokenWithTimeout ctx2 (10 * Second) w2)
          with (sender.getAuthToken (WithTimeout ctx2 (10 * Second) (now w2)) w2).
        rewrite Hget2. destruct r2; reflexivity.
    + intros Hurl. rewrite Hsame, Hheap in Hwire. simpl in Hwire.
      rewrite Hurl in Hwire. destruct Hwire as (d & Hw & _). exists d. exact Hw.
Qed.

Lemma Authenticate_token_lifetime_witness :
  sender.token
    (heap (fixtures.after
             (sender.Authenticate (H := fixtures.web) Background
                (fixtures.online 0 [fixtures.answered 200 "200 OK" "3600"] scenario.graph))))
  = Some (sender.mkAuthToken "tok" (5 + 3600 * Second)).
Proof.
  destruct (Authenticate_token_lifetime fixtures.web Background
              (fixtures.online 0 [fixtures.answered 200 "200 OK" "3600"] scenario.graph)
              (fixtures.after
                 (sender.Authenticate (H := fixtures.web) Background
                    (fixtures.online 0 [fixtures.answered 200 "200 OK" "3600"]
                       scenario.graph))))
    as (o & os & resp & body & rest & tokenResp
        & Hnet & Hans & _ & Hread & Hjson & Hnow & Hheap & _).
  - intros tok Htok. discriminate Htok.
  - vm_compute. reflexivity.
  - rewrite Hheap, Hnow. injection Hnet as <- _. injection Hans as <-.
    injection Hread as <- _. injection Hjson as <-. reflexivity.
Defined.

(** ** The session: what a connection can reach *)

Lemma TrimLeft_head (s cutset : string) :
  match TrimLeft s cutset with
  | EmptyString => True
  | String c _ => inCutset cutset c = false
  end.
Proof.
  induction s as [| c rest IH]; simpl; [exact I |].
  destruct (inCutset cutset c) eqn:Hc; [exact IH | exact Hc].
Qed.

Lemma TrimLeft_fixed (s cutset : string) :
  match s with
  | EmptyString => True
  | String c _ => inCutset cutset c = false
  end ->
  TrimLeft s cutset = s.
Proof. destruct s as [| c rest]; simpl; [reflexivity |]. intros ->. reflexivity. Qed.

Lemma TrimRight_head (s cutset : string) (c : Ascii.ascii) (rest : string) :
  s = String c rest -> inCutset cutset c = false ->
  exists rest', TrimRight s cutset = String c rest'.
Proof.
  intros -> Hc. simpl. destruct (TrimRight rest cutset) as [| c' rest'].
  - rewrite Hc. eexists. reflexivity.
  - eexists. reflexivity.
Qed.

Lemma TrimRight_cons (c : Ascii.ascii) (rest cutset : string) :
  TrimRight (String c rest) cutset
  = match TrimRight rest cutset with
    | EmptyString => if inCutset cutset c then EmptyString else String c EmptyString
    | rest' => String c rest'
    end.
Proof. reflexivity. Qed.

Lemma TrimRight_idempotent (s cutset : string) :
  TrimRight (TrimRight s cutset) cutset = TrimRight s cutset.
Proof.
  induction s as [| c rest IH]; [reflexivity |].
  rewrite TrimRight_cons.
  destruct (TrimRight rest cutset) as [| c' rest'] eqn:Hr.
  - destruct (inCutset cutset c) eqn:Hc; [reflexivity |].
    rewrite TrimRight_cons. simpl. rewrite Hc. reflexivity.
  - rewrite TrimRight_cons, IH. reflexivity.
Qed.

(** Trimming what is trimmed changes nothing. *)
Lemma Trim_idempotent (s cutset : string) :
  Trim (Trim s cutset) cutset = Trim s cutset.
Proof.
  unfold Trim. pose proof (TrimLeft_head s cutset) as Hhead.
  destruct (TrimLeft s cutset) as [| c rest] eqn:Hl; [reflexivity |].
  destruct (TrimRight_head (String c rest) cutset c rest eq_refl Hhead) as (rest' & Hr).
  rewrite Hr. rewrite TrimLeft_fixed by exact Hhead.
  rewrite <- Hr. apply TrimRight_idempotent.
Qed.

Section SessionReach.
Context {L : GoLib}.
Context {A : Type}.

Lemma run_invariant (P : receiver.Session A -> Prop) :
  (forall s c w, P s -> P (receiver.step s c w)) ->
  forall cs s, P s -> P (receiver.run s cs).
Proof.
  intros Hstep cs. induction cs as [| [c w] cs IH]; intros s Hs; simpl; [exact Hs |].
  apply IH, Hstep, Hs.
Qed.

(** [Mail] leaves the session as it is, or records a sender that came
    through the gate, is not empty and passes the sender policy. *)
Lemma Mail_cases (s : receiver.Session A) (from : string) (w : World A) :
  snd (receiver.Mail s from w) = s
  \/ (snd (receiver.Mail s from w) = receiver.setEmailFrom (Trim from "<>") s
      /\ config.RequireAuth (receiver.configListener s) && negb (receiver.authenticated s)
         = false
      /\ Trim from "<>" <> ""
      /\ (receiver.policySet (config.ValidFrom (receiver.configGlobal s)) = true ->
          receiver.policyValid (config.ValidFrom (receiver.configGlobal s)) (Trim from "<>")
          = true)).
Proof.
  unfold receiver.Mail.
  destruct (_ && negb (receiver.authenticated s)) eqn:Hgate; [left; reflexivity |].
  destruct (Err _ _); [left; reflexivity |].
  destruct (Z.eqb_spec (slen (Trim from "<>")) 0) as [Hz | Hz]; [left; reflexivity |].
  destruct (receiver.policySet _ && negb _) eqn:Hpol; [left; reflexivity |].
  right. split; [reflexivity |]. split; [reflexivity |]. split.
  - intros Heq. rewrite Heq in Hz. apply Hz. reflexivity.
  - intros Hset. rewrite Hset in Hpol. simpl in Hpol.
    apply negb_false_iff in Hpol. exact Hpol.
Qed.

Lemma Rcpt_cases (s : receiver.Session A) (to : string) (w : World A) :
  snd (receiver.Rcpt s to w) = s
  \/ (snd (receiver.Rcpt s to w)
      = receiver.setEmailTo (receiver.emailTo s ++ [Trim to "<>"]) s
      /\ config.RequireAuth (receiver.configListener s) && negb (receiver.authenticated s)
         = false
      /\ Trim to "<>" <> ""
      /\ (receiver.policySet (config.ValidTo (receiver.configGlobal s)) = true ->
          receiver.policyValid (config.ValidTo (receiver.configGlobal s)) (Trim to "<>")
          = true)).
Proof.
  unfold receiver.Rcpt.
  destruct (_ && negb (receiver.authenticated s)) eqn:Hgate; [left; reflexivity |].
  destruct (Err _ _); [left; reflexivity |].
  destruct (Z.eqb_spec (slen (Trim to "<>")) 0) as [Hz | Hz]; [left; reflexivity |].
  destruct (receiver.policySet _ && negb _) eqn:Hpol; [left; reflexivity |].
  destruct (_ >=? _); [left; reflexivity |].
  right. split; [reflexivity |]. split; [reflexivity |]. split.
  - intros Heq. rewrite Heq in Hz. apply Hz. reflexivity.
  - intros Hset. rewrite Hset in Hpol. simpl in Hpol.
    apply negb_false_iff in Hpol. exact Hpol.
Qed.

(** What a command can do to a session: nothing, authenticate it,
    record a sender, add a recipient, or reset the envelope. *)
Lemma step_cases (s : receiver.Session A) (c : receiver.command) (w : World A) :
  receiver.step s c w = s
  \/ receiver.step s c w = receiver.setAuthenticated true s
  \/ (exists from, receiver.step s c w = snd (receiver.Mail s from w))
  \/ (exists to, receiver.step s c w = snd (receiver.Rcpt s to w))
  \/ receiver.step s c w = receiver.Reset s.
Proof.
  destruct c as [mech identity username password | from | to |]; simpl.
  - destruct (receiver.Auth s mech w) as [[[|] |] e]; simpl; auto.
    unfold receiver.authPlain. destruct (auth.Check _ _ _ _); simpl; auto.
  - right. right. left. exists from. reflexivity.
  - right. right. right. left. exists to. reflexivity.
  - right. right. right. right. reflexivity.
Qed.

End SessionReach.


Ltac settle_auth :=
  first [ discriminate
        | congruence
        | intros (? & ? & [? | ?]); congruence
        | intros (? & ? & ?); congruence
        | intros _; repeat split; auto; fail ].

(** X8.  Under a live context, [Auth] hands out the PLAIN server exactly
    when the listener requires authentication, the mechanism asked for
    is ["PLAIN"] and the mode is [plain] or [plain-any]; the ANONYMOUS
    server exactly when the listener requires authentication, the
    mechanism is ["ANONYMOUS"] and the mode is [anonymous]; and in every
    other case it refuses with [ErrAuthUnsupported].  A listener that
    does not require authentication accepts no mechanism at all. *)
Theorem Auth_accepts :
  forall (A : Type) (s : receiver.Session A) (mech : string) (w : World A),
    Err (receiver.ctx s) (now w) = None ->
    (receiver.Auth s mech w = (Some receiver.PlainServer, None)
     <-> config.RequireAuth (receiver.configListener s) = true
         /\ mech = "PLAIN"
         /\ (config.Mode (config.Auth (receiver.configGlobal s)) = "plain"
             \/ config.Mode (config.Auth (receiver.configGlobal s)) = "plain-any"))
    /\ (receiver.Auth s mech w = (Some receiver.AnonymousServer, None)
        <-> config.RequireAuth (receiver.configListener s) = true
            /\ mech = "ANONYMOUS"
            /\ config.Mode (config.Auth (receiver.configGlobal s)) = "anonymous")
    /\ (receiver.Auth s mech w = (Some receiver.PlainServer, None)
        \/ receiver.Auth s mech w = (Some receiver.AnonymousServer, None)
        \/ receiver.Auth s mech w = (None, Some ErrAuthUnsupported)).
Proof.
  intros A s mech w Hlive. unfold receiver.Auth, receiver.AuthMechanisms.
  rewrite Hlive.
  unfold config.AuthDisabled, config.AuthPlainAny, config.AuthPlain, config.AuthAnonymous,
    receiver.sasl_Plain, receiver.sasl_Anonymous.
  destruct (config.RequireAuth (receiver.configListener s)); simpl;
    [| split; [| split]; [split; settle_auth | split; settle_auth | auto]].
  set (mode := config.Mode (config.Auth (receiver.configGlobal s))).
  destruct (String.eqb_spec mode "disabled") as [Hd | Hd];
    [simpl; split; [| split]; [split; settle_auth | split; settle_auth | auto] |].
  destruct (String.eqb_spec mech "PLAIN") as [Hmp | Hmp];
    destruct (String.eqb_spec mech "ANONYMOUS") as [Hma | Hma];
    try congruence;
    (destruct (String.eqb_spec mode "plain-any") as [Hpa | Hpa];
     [| destruct (String.eqb_spec mode "plain") as [Hp | Hp];
        [| destruct (String.eqb_spec mode "anonymous") as [Han | Han]]]);
    simpl;
    repeat match goal with
           | |- context [String.eqb ?a ?b] =>
               destruct (String.eqb_spec a b); try congruence; simpl
           end;
    (split; [| split]; [split; settle_auth | split; settle_auth | auto]).
Qed.

Lemma Auth_accepts_witness :
  receiver.Auth (scenario.session Background true 1024 100) "PLAIN" (scenario.quiet 0 tt)
  = (Some receiver.PlainServer, None)
  /\ receiver.Auth (scenario.session Background false 1024 100) "PLAIN" (scenario.quiet 0 tt)
     = (None, Some ErrAuthUnsupported).
Proof.
  split.
  - apply (proj1 (Auth_accepts unit (scenario.session Background true 1024 100) "PLAIN"
                    (scenario.quiet 0 tt) eq_refl)).
    repeat split. left. reflexivity.
  - destruct (proj2 (proj2 (Auth_accepts unit (scenario.session Background false 1024 100)
                              "PLAIN" (scenario.quiet 0 tt) eq_refl)))
      as [Hp | [Ha | Hn]]; [discriminate Hp | discriminate Ha | exact Hn].
Defined.

Section SessionInvariants.
Context {L : GoLib}.
Context {A : Type}.

Lemma step_keeps_listener (s : receiver.Session A) (c : receiver.command) (w : World A) :
  receiver.configListener (receiver.step s c w) = receiver.configListener s
  /\ receiver.configGlobal (receiver.step s c w) = receiver.configGlobal s.
Proof.
  destruct (step_cases s c w) as [-> | [-> | [(from & ->) | [(to & ->) | ->]]]];
    try (split; reflexivity).
  - destruct (Mail_cases s from w) as [-> | (-> & _)]; split; reflexivity.
  - destruct (Rcpt_cases s to w) as [-> | (-> & _)]; split; reflexivity.
Qed.

Lemma step_authenticated (s : receiver.Session A) (c : receiver.command) (w : World A) :
  receiver.authenticated s = true -> receiver.authenticated (receiver.step s c w) = true.
Proof.
  intros Hs.
  destruct (step_cases s c w) as [-> | [-> | [(from & ->) | [(to & ->) | ->]]]];
    try assumption; try reflexivity.
  - destruct (Mail_cases s from w) as [-> | (-> & _)]; assumption.
  - destruct (Rcpt_cases s to w) as [-> | (-> & _)]; assumption.
Qed.

Lemma step_gate (s : receiver.Session A) (c : receiver.command) (w : World A) :
  config.RequireAuth (receiver.configListener s) = true ->
  (receiver.authenticated s = false ->
   receiver.emailFrom s = "" /\ receiver.emailTo s = []) ->
  receiver.authenticated (receiver.step s c w) = false ->
  receiver.emailFrom (receiver.step s c w) = "" /\ receiver.emailTo (receiver.step s c w) = [].
Proof.
  intros Hreq Hs.
  destruct (step_cases s c w) as [-> | [-> | [(from & ->) | [(to & ->) | ->]]]].
  - exact Hs.
  - discriminate.
  - destruct (Mail_cases s from w) as [-> | (-> & Hgate & _)]; [exact Hs |].
    simpl. intros Hun. rewrite Hreq, Hun in Hgate. discriminate.
  - destruct (Rcpt_cases s to w) as [-> | (-> & Hgate & _)]; [exact Hs |].
    simpl. intros Hun. rewrite Hreq, Hun in Hgate. discriminate.
  - intros _. split; reflexivity.
Qed.

End SessionInvariants.

(** X9.  No command of a connection takes authentication away: a session
    that is authenticated stays so through any run of commands, resets
    included.  And on a listener that requires authentication, a session
    that starts without an envelope holds neither a sender nor a
    recipient for as long as it is not authenticated. *)
Theorem Session_authentication_gate :
  forall (L : GoLib) (A : Type) (s : receiver.Session A)
         (cs : list (receiver.command * World A)),
    (receiver.authenticated s = true -> receiver.authenticated (receiver.run s cs) = true)
    /\ (config.RequireAuth (receiver.configListener s) = true ->
        receiver.emailFrom s = "" -> receiver.emailTo s = [] ->
        receiver.authenticated (receiver.run s cs) = false ->
        receiver.emailFrom (receiver.run s cs) = ""
        /\ receiver.emailTo (receiver.run s cs) = []).
Proof.
  intros L A s cs. split.
  - apply (run_invariant (fun s0 : receiver.Session A => receiver.authenticated s0 = true)).
    intros s0 c w. apply step_authenticated.
  - intros Hreq Hfrom Hto.
    pose proof (run_invariant
                  (fun s0 : receiver.Session A =>
                     config.RequireAuth (receiver.configListener s0) = true
                             /\ (receiver.authenticated s0 = false ->
                                 receiver.emailFrom s0 = "" /\ receiver.emailTo s0 = []))) as Hinv.
    apply Hinv.
    + intros s0 c w [Hr Hg]. split.
      * rewrite (proj1 (step_keeps_listener s0 c w)). exact Hr.
      * apply step_gate; assumption.
    + split; [exact Hreq | auto].
Qed.

Lemma Session_authentication_gate_witness :
  receiver.emailFrom
    (receiver.run (H := scenario.lib) (scenario.session Background true 1024 100)
       [ (receiver.CAuth "PLAIN" "" "alice" "wrong", scenario.quiet 0 tt);
         (receiver.CMail "<a@x.com>", scenario.quiet 1 tt);
         (receiver.CRcpt "<b@y.com>", scenario.quiet 2 tt) ]) = ""
  /\ receiver.emailTo
       (receiver.run (H := scenario.lib) (scenario.session Background true 1024 100)
          [ (receiver.CAuth "PLAIN" "" "alice" "wrong", scenario.quiet 0 tt);
            (receiver.CMail "<a@x.com>", scenario.quiet 1 tt);
            (receiver.CRcpt "<b@y.com>", scenario.quiet 2 tt) ]) = [].
Proof.
  apply (proj2 (Session_authentication_gate scenario.lib unit
                  (scenario.session Background true 1024 100)
                  [ (receiver.CAuth "PLAIN" "" "alice" "wrong", scenario.quiet 0 tt);
                    (receiver.CMail "<a@x.com>", scenario.quiet 1 tt);
                    (receiver.CRcpt "<b@y.com>", scenario.quiet 2 tt) ]));
    reflexivity.
Defined.

(** X10.  Every address a session records has come through the checks:
    through any run of commands, a recorded sender is not empty, has no
    angle bracket left at either end and passes the sender policy when
    one is set, and so does every recorded recipient with the recipient
    policy. *)
Theorem Session_records_checked_addresses :
  forall (L : GoLib) (A : Type) (s : receiver.Session A)
         (cs : list (receiver.command * World A)),
    receiver.emailFrom s = "" -> receiver.emailTo s = [] ->
    (receiver.emailFrom (receiver.run s cs) = ""
     \/ (Trim (receiver.emailFrom (receiver.run s cs)) "<>" = receiver.emailFrom (receiver.run s cs)
         /\ (receiver.policySet (config.ValidFrom (receiver.configGlobal s)) = true ->
             receiver.policyValid (config.ValidFrom (receiver.configGlobal s))
               (receiver.emailFrom (receiver.run s cs)) = true)))
    /\ Forall (fun to =>
                 to <> "" /\ Trim to "<>" = to
                 /\ (receiver.policySet (config.ValidTo (receiver.configGlobal s)) = true ->
                     receiver.policyValid (config.ValidTo (receiver.configGlobal s)) to = true))
              (receiver.emailTo (receiver.run s cs)).
Proof.
  intros L A s cs Hfrom Hto.
  set (g := receiver.configGlobal s).
  pose proof (run_invariant
    (fun s0 : receiver.Session A =>
       receiver.configGlobal s0 = g
       /\ (receiver.emailFrom s0 = ""
           \/ (Trim (receiver.emailFrom s0) "<>" = receiver.emailFrom s0
               /\ (receiver.policySet (config.ValidFrom g) = true ->
                   receiver.policyValid (config.ValidFrom g) (receiver.emailFrom s0) = true)))
       /\ Forall (fun to =>
                    to <> "" /\ Trim to "<>" = to
                    /\ (receiver.policySet (config.ValidTo g) = true ->
                        receiver.policyValid (config.ValidTo g) to = true))
                 (receiver.emailTo s0))) as Hinv.
  apply Hinv.
  - clear. intros s0 c w (Hg & Hf & Ht).
    split; [rewrite (proj2 (step_keeps_listener s0 c w)); exact Hg |].
    destruct (step_cases s0 c w) as [-> | [-> | [(from & ->) | [(to & ->) | ->]]]].
    + auto.
    + auto.
    + destruct (Mail_cases s0 from w) as [-> | (-> & _ & Hne & Hpol)]; [auto |].
      simpl. split; [| exact Ht]. right. split; [apply Trim_idempotent |].
      rewrite <- Hg. exact Hpol.
    + destruct (Rcpt_cases s0 to w) as [-> | (-> & _ & Hne & Hpol)]; [auto |].
      simpl. split; [exact Hf |]. apply Forall_app. split; [exact Ht |].
      constructor; [| constructor].
      split; [exact Hne |]. split; [apply Trim_idempotent |].
      rewrite <- Hg. exact Hpol.
    + simpl. split; [left; reflexivity | constructor].
  - split; [reflexivity |]. rewrite Hfrom, Hto. split; [left; reflexivity | constructor].
Qed.

Lemma Session_records_checked_addresses_witness :
  Forall (fun to => to <> "" /\ Trim to "<>" = to
                    /\ (receiver.policySet
                          (config.ValidTo (receiver.configGlobal
                                             (scenario.session Background false 1024 100)))
                        = true ->
                        receiver.policyValid (H := scenario.lib)
                          (config.ValidTo (receiver.configGlobal
                                             (scenario.session Background false 1024 100)))
                          to = true))
    (receiver.emailTo
       (receiver.run (H := scenario.lib) (scenario.session Background false 1024 100)
          [ (receiver.CRcpt "<<b@y.com>", scenario.quiet 0 tt);
            (receiver.CRcpt "<>", scenario.quiet 1 tt) ])).
Proof.
  apply (proj2 (Session_records_checked_addresses scenario.lib unit
                  (scenario.session Background false 1024 100)
                  [ (receiver.CRcpt "<<b@y.com>", scenario.quiet 0 tt);
                    (receiver.CRcpt "<>", scenario.quiet 1 tt) ]
                  eq_refl eq_refl)).
Defined.

(** ** Reading and delivering the message *)

(** X11.  A reader that fails within the size limit makes [Data] return
    the reader's error: nothing is parsed, nothing is handed to the
    sender, and the session and the world are as they were. *)
Theorem Data_read_error :
  forall (L : GoLib) (A : Type) (s : receiver.Session A) (M : Z) (w : World A)
         (r : Reader) (e : error),
    config.MaxSize (config.Limits (receiver.configGlobal s)) = M ->
    0 <= M < MaxInt64 ->
    config.RequireAuth (receiver.configListener s) && negb (receiver.authenticated s) = false ->
    Err (receiver.ctx s) (now w) = None ->
    len (content r) <= M ->
    rerr r = Some e ->
    receiver.Data s r w = Ret (Some e, s, mkReader [] (Some e)) w.
Proof.
  intros L A s M w r e HM Hrange Hgate Hlive Hlen Herr.
  unfold receiver.Data. rewrite Hgate, Hlive, HM, (add64_succ M Hrange).
  unfold ReadAllLimit.
  destruct (Z.leb_spec (M + 1) 0); [lia |].
  destruct (Z.leb_spec (M + 1) (len (content r))); [lia |].
  rewrite Herr. reflexivity.
Qed.

Lemma Data_read_error_witness :
  receiver.Data (H := scenario.lib) (scenario.session Background false 4 100)
    (mkReader [Byte.x68; Byte.x69] (Some (ErrLibrary "connection reset by peer")))
    (scenario.quiet 0 tt)
  = Ret (Some (ErrLibrary "connection reset by peer"),
         scenario.session Background false 4 100,
         mkReader [] (Some (ErrLibrary "connection reset by peer")))
        (scenario.quiet 0 tt).
Proof.
  apply (Data_read_error scenario.lib unit (scenario.session Background false 4 100) 4
           (scenario.quiet 0 tt)
           (mkReader [Byte.x68; Byte.x69] (Some (ErrLibrary "connection reset by peer")))
           (ErrLibrary "connection reset by peer"));
    try reflexivity.
  - unfold MaxInt64. lia.
  - unfold len. simpl. lia.
Defined.

(** X12.  With [MaxSize] at the largest [int64], the limit
    [int64(MaxSize) + 1] wraps around to a negative number: [Data] reads
    nothing from the reader, whatever it holds, and hands the sender an
    empty message. *)
Theorem Data_MaxSize_overflow :
  forall (L : GoLib) (A : Type) (s : receiver.Session A) (w : World A) (r : Reader),
    config.MaxSize (config.Limits (receiver.configGlobal s)) = MaxInt64 ->
    config.RequireAuth (receiver.configListener s) && negb (receiver.authenticated s) = false ->
    Err (receiver.ctx s) (now w) = None ->
    receiver.Data s r w
    = bind (receiver.deliver s []) (fun res => ret (res, r)) w.
Proof.
  intros L A s w r HM Hgate Hlive.
  unfold receiver.Data. rewrite Hgate, Hlive, HM. reflexivity.
Qed.

Lemma Data_MaxSize_overflow_witness :
  receiver.Data (H := scenario.lib) (scenario.session Background false MaxInt64 100)
    (mkReader [Byte.x68; Byte.x69] None) (scenario.quiet 0 tt)
  = bind (receiver.deliver (H := scenario.lib) (scenario.session Background false MaxInt64 100) [])
         (fun res => ret (res, mkReader [Byte.x68; Byte.x69] None)) (scenario.quiet 0 tt).
Proof.
  apply (Data_MaxSize_overflow scenario.lib unit
           (scenario.session Background false MaxInt64 100) (scenario.quiet 0 tt)
           (mkReader [Byte.x68; Byte.x69] None)); reflexivity.
Defined.

(** Whatever the message looks like, [deliver] calls the sender with the
    sender and the recipients the session holds. *)
Lemma deliver_envelope {L : GoLib} {A : Type} (s : receiver.Session A)
    (data : list Byte.byte) :
  exists subject body,
    receiver.deliver s data
    = bind (sender.SendEmail_ (config.Sender (receiver.configSender s))
              (receiver.ctx s) (receiver.emailFrom s) (receiver.emailTo s) subject body)
           (fun err => ret (err, receiver.setEmailBody body
                                   (receiver.setEmailSubject subject s))).
Proof.
  unfold receiver.deliver.
  destruct (mail_ReadMessage data) as [err | msg].
  - destruct (subjectRe_FindSubmatch data) as [m1 |]; eexists _, _; reflexivity.
  - destruct (ReadAll (msg_Body msg)) as [bodyBytes [err |]]; eexists _, _; reflexivity.
Qed.

(** X13.  [MAIL], [RCPT], [DATA] in a row: when the sender and the
    recipient are let through and the message fits, [Data] calls the
    configured sender with the session's context, the sender address and
    the recipient address without their angle brackets, and returns what
    the sender returns. *)
Theorem envelope_reaches_sender :
  forall (L : GoLib) (A : Type) (s : receiver.Session A) (from to : string)
         (r : Reader) (w1 w2 w3 : World A) (M : Z),
    config.RequireAuth (receiver.configListener s) && negb (receiver.authenticated s) = false ->
    Err (receiver.ctx s) (now w1) = None ->
    Err (receiver.ctx s) (now w3) = None ->
    Trim from "<>" <> "" ->
    receiver.policySet (config.ValidFrom (receiver.configGlobal s))
    && negb (receiver.policyValid (config.ValidFrom (receiver.configGlobal s)) (Trim from "<>"))
    = false ->
    receiver.admissible s to w2 = true ->
    receiver.emailTo s = [] ->
    1 <= config.MaxRecipients (config.Limits (receiver.configGlobal s)) ->
    config.MaxSize (config.Limits (receiver.configGlobal s)) = M ->
    0 <= M < MaxInt64 ->
    len (content r) <= M -> rerr r = None ->
    exists subject body,
      receiver.Data (receiver.run s [ (receiver.CMail from, w1); (receiver.CRcpt to, w2) ]) r w3
      = bind (sender.SendEmail_ (config.Sender (receiver.configSender s))
                (receiver.ctx s) (Trim from "<>") [Trim to "<>"] subject body)
             (fun err =>
                ret (err,
                     receiver.setEmailBody body
                       (receiver.setEmailSubject subject
                          (receiver.run s [ (receiver.CMail from, w1);
                                            (receiver.CRcpt to, w2) ])),
                     mkReader [] None)) w3.
Proof.
  intros L A s from to r w1 w2 w3 M Hgate Hl1 Hl3 Hfrom Hpol Hadm Hempty HN HM Hrange Hlen Hok.
  assert (Hmail : receiver.Mail s from w1 = (None, receiver.setEmailFrom (Trim from "<>") s)).
  { unfold receiver.Mail. rewrite Hgate, Hl1, Hpol.
    destruct (Z.eqb_spec (slen (Trim from "<>")) 0) as [Hz | _]; [| reflexivity].
    exfalso. apply Hfrom. unfold slen in Hz.
    destruct (Trim from "<>"); [reflexivity | simpl in Hz; lia]. }
  assert (Hrcpt : receiver.Rcpt (receiver.setEmailFrom (Trim from "<>") s) to w2
                  = (None, receiver.setEmailTo [Trim to "<>"]
                             (receiver.setEmailFrom (Trim from "<>") s))).
  { rewrite Rcpt_admitted.
    - simpl. rewrite Hempty. reflexivity.
    - exact Hadm.
    - simpl. rewrite Hempty. unfold len. simpl. lia. }
  simpl receiver.run. rewrite Hmail. simpl snd. rewrite Hrcpt. simpl snd.
  set (s2 := receiver.setEmailTo [Trim to "<>"] (receiver.setEmailFrom (Trim from "<>") s)).
  destruct (deliver_envelope s2 (content r)) as (subject & body & Hdel).
  exists subject, body.
  unfold receiver.Data. simpl receiver.configListener. simpl receiver.authenticated.
  simpl receiver.ctx. simpl receiver.configGlobal.
  rewrite Hgate, Hl3, HM, (add64_succ M Hrange). unfold ReadAllLimit.
  destruct (Z.leb_spec (M + 1) 0); [lia |].
  destruct (Z.leb_spec (M + 1) (len (content r))); [lia |].
  rewrite Hok, Z.gtb_ltb.
  destruct (Z.ltb_spec M (len (content r))); [lia |].
  rewrite Hdel. unfold bind. simpl.
  destruct (sender.SendEmail_ _ _ _ _ _ _ w3); reflexivity.
Qed.

Lemma envelope_reaches_sender_witness :
  exists subject body,
    receiver.Data (H := scenario.lib)
      (receiver.run (H := scenario.lib) (scenario.session Background false 1024 100)
         [ (receiver.CMail "<a@x.com>", scenario.quiet 0 tt);
           (receiver.CRcpt "<b@y.com>", scenario.quiet 1 tt) ])
      (mkReader [Byte.x68; Byte.x69] None) (scenario.quiet 2 tt)
    = bind (sender.SendEmail_ scenario.nullSender Background "a@x.com" ["b@y.com"]
              subject body)
           (fun err =>
              ret (err,
                   receiver.setEmailBody body
                     (receiver.setEmailSubject subject
                        (receiver.run (H := scenario.lib)
                           (scenario.session Background false 1024 100)
                           [ (receiver.CMail "<a@x.com>", scenario.quiet 0 tt);
                             (receiver.CRcpt "<b@y.com>", scenario.quiet 1 tt) ])),
                   mkReader [] None)) (scenario.quiet 2 tt).
Proof.
  apply (envelope_reaches_sender scenario.lib unit (scenario.session Background false 1024 100)
           "<a@x.com>" "<b@y.com>" (mkReader [Byte.x68; Byte.x69] None)
           (scenario.quiet 0 tt) (scenario.quiet 1 tt) (scenario.quiet 2 tt) 1024);
    try reflexivity.
  - discriminate.
  - simpl. lia.
  - unfold MaxInt64. lia.
  - unfold len. simpl. lia.
Defined.

(** ** Addresses in the configuration *)

From Stdlib Require Import Ascii.

Lemma slen_app (a b : string) : slen (a ++ b) = slen a + slen b.
Proof.
  unfold slen. induction a as [| c a IH]; [reflexivity |].
  change (String c a ++ b) with (String c (a ++ b)).
  cbn [String.length]. rewrite !Nat2Z.inj_succ. lia.
Qed.

Lemma slen_zero (s : string) : slen s = 0 <-> s = "".
Proof.
  unfold slen. destruct s; simpl; split; intros Heq; try reflexivity; try lia; discriminate.
Qed.

Lemma prefix_empty (s : string) : String.prefix "" s = true.
Proof. destruct s; reflexivity. Qed.

Lemma prefix_at_cons (c : Ascii.ascii) (rest : string) :
  String.prefix "@" (String c rest) = Ascii.eqb c "@"%char.
Proof.
  change (String.prefix "@" (String c rest))
    with (if Ascii.ascii_dec "@"%char c then String.prefix "" rest else false).
  destruct (Ascii.ascii_dec "@"%char c) as [<- | Hne].
  - rewrite prefix_empty. reflexivity.
  - destruct (Ascii.eqb_spec c "@"%char) as [-> | _]; [destruct Hne |]; reflexivity.
Qed.

Lemma Index_at_cons (c : Ascii.ascii) (rest : string) :
  parse.Index (String c rest) "@"
  = if Ascii.eqb c "@"%char then 0
    else if parse.Index rest "@" =? -1 then -1 else parse.Index rest "@" + 1.
Proof.
  change (parse.Index (String c rest) "@")
    with (if String.prefix "@" (String c rest) then 0
          else if parse.Index rest "@" =? -1 then -1 else parse.Index rest "@" + 1).
  rewrite prefix_at_cons. reflexivity.
Qed.

Lemma Index_at_split (s : string) :
  parse.Index s "@" = -1
  \/ exists l d, s = l ++ String "@"%char d /\ parse.Index s "@" = slen l
                 /\ parse.Index l "@" = -1.
Proof.
  induction s as [| c rest IH]; [left; reflexivity |].
  rewrite Index_at_cons. destruct (Ascii.eqb_spec c "@"%char) as [-> | Hc].
  - right. exists "", rest. repeat split.
  - destruct IH as [-> | (l & d & -> & Hk & Hl)]; [left; reflexivity |].
    right. exists (String c l), d. split; [reflexivity |]. split.
    + rewrite Hk. destruct (Z.eqb_spec (slen l) (-1)) as [Hm | _];
        [unfold slen in Hm; lia | unfold slen; simpl; lia].
    + rewrite Index_at_cons, Hl. destruct (Ascii.eqb_spec c "@"%char); [contradiction | reflexivity].
Qed.

Lemma Index_at_app (l d : string) :
  parse.Index l "@" = -1 -> parse.Index (l ++ String "@"%char d) "@" = slen l.
Proof.
  induction l as [| c l IH].
  - intros _. change ("" ++ String "@"%char d) with (String "@"%char d).
    rewrite Index_at_cons. reflexivity.
  - change (String c l ++ String "@"%char d) with (String c (l ++ String "@"%char d)).
    rewrite !Index_at_cons. destruct (Ascii.eqb c "@"%char); [discriminate |].
    destruct (Z.eqb_spec (parse.Index l "@") (-1)) as [Hl | Hl].
    + intros _. rewrite (IH Hl).
      destruct (Z.eqb_spec (slen l) (-1)) as [Hm | _];
        [unfold slen in Hm; lia | unfold slen; simpl; lia].
    + intros Hk. destruct (Index_at_split l) as [Hn | (l0 & d0 & _ & Hk0 & _)];
        [contradiction |].
      rewrite Hk0 in Hk. unfold slen in Hk. lia.
Qed.

(** X14.  [isValidEmail] accepts exactly the strings of 3 to 254 bytes
    that have something before their first ['@'] and something after it:
    whatever follows the first ['@'] is not looked at, so ["a@@"] and
    ["a@b@c"] pass. *)
Theorem isValidEmail_spec :
  forall email : string,
    parse.isValidEmail email = true
    <-> 3 <= slen email <= 254
        /\ exists l d, email = l ++ "@" ++ d /\ l <> "" /\ d <> ""
                       /\ parse.Contains l "@" = false.
Proof.
  intros email. unfold parse.isValidEmail, parse.Contains. split.
  - destruct (Z.ltb_spec (slen email) 3); [discriminate |].
    rewrite Z.gtb_ltb. destruct (Z.ltb_spec 254 (slen email)); [discriminate |]. simpl.
    destruct (Index_at_split email) as [-> | (l & d & Heq & Hk & Hl)]; [discriminate |].
    rewrite Hk.
    destruct (Z.eqb_spec (slen l) (-1)); [discriminate |].
    destruct (Z.eqb_spec (slen l) 0) as [| Hl0]; [discriminate |].
    destruct (Z.eqb_spec (slen l) (slen email - 1)) as [| Hlast]; [discriminate |].
    intros _. split; [lia |]. exists l, d. split; [exact Heq |].
    split; [intros ->; apply Hl0; reflexivity |]. split.
    + intros ->. apply Hlast. rewrite Heq, slen_app. unfold slen. simpl. lia.
    + rewrite Hl. reflexivity.
  - intros (Hlen & l & d & -> & Hl & Hd & Hno).
    change (l ++ "@" ++ d) with (l ++ String "@"%char d) in *.
    destruct (Z.ltb_spec (slen (l ++ String "@"%char d)) 3); [lia |].
    rewrite Z.gtb_ltb. destruct (Z.ltb_spec 254 (slen (l ++ String "@"%char d))); [lia |].
    simpl orb. cbv iota.
    assert (Hidx : parse.Index l "@" = -1).
    { destruct (Index_at_split l) as [Hn | (l0 & d0 & _ & Hk & _)]; [exact Hn |].
      rewrite Hk in Hno. unfold slen in Hno.
      destruct (Z.leb_spec 0 (Z.of_nat (String.length l0))); [discriminate | lia]. }
    rewrite (Index_at_app l d Hidx).
    assert (Hl0 : slen l <> 0) by (intros Hz; apply Hl, slen_zero, Hz).
    assert (Hd0 : slen d <> 0) by (intros Hz; apply Hd, slen_zero, Hz).
    assert (Hpos : 0 <= slen l) by (unfold slen; lia).
    destruct (Z.eqb_spec (slen l) (-1)); [lia |].
    destruct (Z.eqb_spec (slen l) 0); [lia |].
    destruct (Z.eqb_spec (slen l) (slen (l ++ String "@"%char d) - 1)) as [Hlast |]; [| reflexivity].
    rewrite slen_app in Hlast. unfold slen in Hlast, Hd0. simpl in Hlast. lia.
Qed.

(** ** Validation *)

Section ValidateFacts.
Context {N : NetLib}.

(** A listener as [Validate] wants it. *)
Lemma checkListeners_None (ls : list validate.Listener) :
  forall (i : nat) (seenNames : gmap string nat) (seenPorts : gmap Z string),
    validate.checkListeners ls i seenNames seenPorts = None ->
    Forall (fun l =>
              config.Name (validate.base l) <> ""
              /\ config.Port (validate.base l) <> 0
              /\ seenNames !! config.Name (validate.base l) = None
              /\ seenPorts !! config.Port (validate.base l) = None
              /\ (config.Type_ (validate.base l) = "smtp"
                  \/ ((config.Type_ (validate.base l) = "smtps"
                       \/ config.Type_ (validate.base l) = "starttls")
                      /\ exists tls, validate.TLS l = Some tls
                                     /\ validate.CertFile tls <> ""
                                     /\ validate.KeyFile tls <> ""))) ls
    /\ NoDup (map (fun l => config.Name (validate.base l)) ls)
    /\ NoDup (map (fun l => config.Port (validate.base l)) ls).
Proof.
  induction ls as [| l rest IH]; intros i seenNames seenPorts Hcheck.
  - repeat split; constructor.
  - simpl in Hcheck.
    destruct (String.eqb_spec (config.Name (validate.base l)) "") as [| Hname];
      [discriminate |].
    destruct (seenNames !! config.Name (validate.base l)) eqn:Hsn; [discriminate |].
    destruct (Z.eqb_spec (config.Port (validate.base l)) 0) as [| Hport]; [discriminate |].
    destruct (seenPorts !! config.Port (validate.base l)) eqn:Hsp; [discriminate |].
    assert (Hrest : validate.checkListeners rest (S i)
                      (<[config.Name (validate.base l) := i]> seenNames)
                      (<[config.Port (validate.base l) := config.Name (validate.base l)]>
                         seenPorts) = None
                    /\ (config.Type_ (validate.base l) = "smtp"
                        \/ ((config.Type_ (validate.base l) = "smtps"
                             \/ config.Type_ (validate.base l) = "starttls")
                            /\ exists tls, validate.TLS l = Some tls
                                           /\ validate.CertFile tls <> ""
                                           /\ validate.KeyFile tls <> ""))).
    { revert Hcheck. unfold validate.ListenerSMTP, validate.ListenerSMTPS,
        validate.ListenerSTARTTLS.
      destruct (String.eqb_spec (config.Type_ (validate.base l)) "smtp") as [Ht | Ht];
        [intros Hc; split; [exact Hc | left; exact Ht] |].
      destruct (String.eqb_spec (config.Type_ (validate.base l)) "smtps") as [Hs | Hs];
        destruct (String.eqb_spec (config.Type_ (validate.base l)) "starttls") as [Hst | Hst];
        simpl; try discriminate;
        (destruct (validate.TLS l) as [tls |]; [| discriminate];
         destruct (String.eqb_spec (validate.CertFile tls) "") as [| Hcert];
           [discriminate |];
         destruct (String.eqb_spec (validate.KeyFile tls) "") as [| Hkey];
           [discriminate |];
         simpl; intros Hc; split; [exact Hc |]; right; split; [auto |];
         exists tls; auto). }
    destruct Hrest as [Hrest Htype].
    destruct (IH _ _ _ Hrest) as (Hall & Hnames & Hports).
    assert (Hfresh : Forall (fun l' =>
                               config.Name (validate.base l') <> config.Name (validate.base l)
                               /\ config.Port (validate.base l') <> config.Port (validate.base l))
                            rest).
    { eapply Forall_impl; [exact Hall |]. intros l' (_ & _ & Hn & Hp & _).
      apply lookup_insert_None in Hn. apply lookup_insert_None in Hp.
      split; [intros Heq; apply (proj2 Hn); symmetry; exact Heq
             | intros Heq; apply (proj2 Hp); symmetry; exact Heq]. }
    split; [| split].
    + constructor; [auto |].
      eapply Forall_impl; [exact Hall |]. intros l' (H1 & H2 & Hn & Hp & H5).
      apply lookup_insert_None in Hn. apply lookup_insert_None in Hp.
      destruct Hn as [Hn _]. destruct Hp as [Hp _]. auto.
    + simpl. constructor; [| exact Hnames].
      rewrite list_elem_of_In, in_map_iff. intros (l' & Heq & Hin).
      rewrite Forall_forall in Hfresh. apply list_elem_of_In in Hin.
      destruct (Hfresh l' Hin) as [Hn _]. apply Hn. exact Heq.
    + simpl. constructor; [| exact Hports].
      rewrite list_elem_of_In, in_map_iff. intros (l' & Heq & Hin).
      rewrite Forall_forall in Hfresh. apply list_elem_of_In in Hin.
      destruct (Hfresh l' Hin) as [_ Hp]. apply Hp. exact Heq.
Qed.

(** The phases of a [Validate] that succeeds. *)
Lemma Validate_phases (c c' : validate.RecvConfig) :
  validate.Validate c = (None, c') ->
  validate.Listeners c <> []
  /\ validate.checkListeners (validate.Listeners c) 0 ∅ ∅ = None
  /\ exists c1 c2,
       validate.validateAuth c = (None, c1)
       /\ validate.validatePolicy c1 = None
       /\ validate.validateAllowed c1 = (None, c2)
       /\ validate.validateLimits c2 = (None, c').
Proof.
  unfold validate.Validate.
  destruct (Z.eqb_spec (len (validate.Listeners c)) 0) as [| Hlen]; [discriminate |].
  destruct (validate.checkListeners _ _ _ _) eqn:Hls; [discriminate |].
  destruct (validate.validateAuth c) as [[e |] c1] eqn:Hauth; [discriminate |].
  destruct (validate.validatePolicy c1) eqn:Hpol; [discriminate |].
  destruct (validate.validateAllowed c1) as [[e |] c2] eqn:Hallowed; [discriminate |].
  intros Hlim. split; [| split; [reflexivity |]].
  - intros Hnil. rewrite Hnil in Hlen. apply Hlen. reflexivity.
  - exists c1, c2. auto.
Qed.

Lemma validateAuth_frame (c c1 : validate.RecvConfig) :
  validate.validateAuth c = (None, c1) ->
  exists a, c1 = validate.setGlobal (validate.setAuthenticator a (validate.Global c)) c.
Proof.
  unfold validate.validateAuth.
  destruct (_ || _ || _).
  - intros Heq. injection Heq as <-. eexists. reflexivity.
  - destruct (String.eqb _ config.AuthPlain); [| discriminate].
    destruct (_ =? 0); [discriminate |].
    destruct (validate.fillCreds _ _ _); [discriminate |].
    intros Heq. injection Heq as <-. eexists. reflexivity.
Qed.

Lemma parseAllowed_None (ips : list string) :
  forall (i : nat) (nets nets' : list net.IPNet),
    validate.parseAllowed ips i nets = (None, nets') ->
    exists parsed,
      nets' = (nets ++ parsed)%list
      /\ Forall2 (fun ip n => ip <> "" /\ parse.ParseNet ip = inr n) ips parsed.
Proof.
  induction ips as [| ip rest IH]; intros i nets nets' Hrun; simpl in Hrun.
  - injection Hrun as <-. exists []. split; [symmetry; apply app_nil_r | constructor].
  - destruct (String.eqb_spec ip "") as [| Hne]; [discriminate |].
    destruct (parse.ParseNet ip) as [err | n] eqn:Hparse; [discriminate |].
    destruct (IH _ _ _ Hrun) as (parsed & -> & Hall).
    exists (n :: parsed). split; [rewrite <- app_assoc; reflexivity |].
    constructor; auto.
Qed.

Lemma validateAllowed_frame (c c2 : validate.RecvConfig) :
  validate.validateAllowed c = (None, c2) ->
  validate.Global c2 = validate.Global c
  /\ validate.Listeners c2 = validate.Listeners c
  /\ ((validate.AllowedIPs c = []
       /\ validate.AllowedNets c2
          = [ net.mkIPNet net_IPv4zero (net_CIDRMask 0 32);
              net.mkIPNet net_IPv6zero (net_CIDRMask 0 128) ])
      \/ (validate.AllowedIPs c <> []
          /\ exists parsed,
               validate.AllowedNets c2 = (validate.AllowedNets c ++ parsed)%list
               /\ Forall2 (fun ip n => ip <> "" /\ parse.ParseNet ip = inr n)
                          (validate.AllowedIPs c) parsed)).
Proof.
  unfold validate.validateAllowed.
  destruct (validate.AllowedIPs c) as [| ip rest] eqn:Hips.
  - simpl. intros Heq. injection Heq as <-. split; [reflexivity |].
    split; [reflexivity |]. left. auto.
  - assert (Hpos : (0 <? len (ip :: rest)) = true).
    { unfold len. simpl. apply Z.ltb_lt. lia. }
    rewrite Hpos.
    destruct (validate.parseAllowed (ip :: rest) 0 (validate.AllowedNets c)) as [e nets] eqn:Hp.
    intros Heq. injection Heq as -> <-. split; [reflexivity |].
    split; [reflexivity |]. right.
    split; [discriminate |]. apply (parseAllowed_None _ _ _ _ Hp).
Qed.

(** What [validateLimits] leaves: each limit as it was when positive,
    its default when it was zero. *)
Lemma validateLimits_None (c c' : validate.RecvConfig) :
  validate.validateLimits c = (None, c') ->
  let l := config.Limits (validate.Global c) in
  0 <= config.MaxSize l /\ 0 <= config.MaxRecipients l /\ 0 <= config.Timeout l
  /\ c' = validate.setGlobal
            (validate.setLimits
               (config.mkRecvLimits
                  (if config.MaxSize l =? 0 then 25 * 1024 * 1024 else config.MaxSize l)
                  (if config.MaxRecipients l =? 0 then 100 else config.MaxRecipients l)
                  (if config.Timeout l =? 0 then 10 * Second else config.Timeout l))
               (validate.Global c)) c.
Proof.
  unfold validate.validateLimits. simpl.
  destruct (Z.ltb_spec (config.MaxSize (config.Limits (validate.Global c))) 0);
    [discriminate |].
  destruct (Z.ltb_spec (config.MaxRecipients (config.Limits (validate.Global c))) 0);
    [discriminate |].
  destruct (Z.ltb_spec (config.Timeout (config.Limits (validate.Global c))) 0);
    [discriminate |].
  intros Heq. injection Heq as <-. repeat split; assumption.
Qed.

Lemma checkEntries_None (field : string) (valid : string -> bool) (entries : list string) :
  forall i, validate.checkEntries field valid entries i = None ->
            Forall (fun e => e <> "" /\ valid e = true) entries.
Proof.
  induction entries as [| e rest IH]; intros i Hrun; simpl in Hrun; [constructor |].
  destruct (String.eqb_spec e "") as [| Hne]; [discriminate |].
  destruct (valid e) eqn:Hv; [| discriminate]. simpl in Hrun.
  constructor; [auto | apply (IH _ Hrun)].
Qed.

(** The map [fillCreds] builds holds, for each user, the password of the
    last credential with that name. *)
Lemma fillCreds_inr (cs : list config.Credential) :
  forall (i : nat) (m m' : gmap string string),
    validate.fillCreds cs i m = inr m' ->
    Forall (fun c => config.Username c <> "" /\ config.Password c <> "") cs
    /\ forall u p,
         m' !! u = Some p
         <-> (exists pre cred post,
                 cs = (pre ++ cred :: post)%list
                 /\ config.Username cred = u /\ config.Password cred = p
                 /\ Forall (fun c => config.Username c <> u) post)
             \/ (Forall (fun c => config.Username c <> u) cs /\ m !! u = Some p).
Proof.
  induction cs as [| c0 rest IH]; intros i m m' Hrun; simpl in Hrun.
  - injection Hrun as <-. split; [constructor |]. intros u p. split.
    + intros Hm. right. split; [constructor | exact Hm].
    + intros [(pre & cred & post & Heq & _) | (_ & Hm)]; [| exact Hm].
      destruct pre; discriminate Heq.
  - destruct (String.eqb_spec (config.Username c0) "") as [| Hu]; [discriminate |].
    destruct (String.eqb_spec (config.Password c0) "") as [| Hp]; [discriminate |].
    simpl in Hrun. destruct (IH _ _ _ Hrun) as (Hall & Hlook).
    split; [constructor; auto |]. intros u p. rewrite Hlook. split.
    + intros [(pre & cred & post & -> & Hcu & Hcp & Hpost) | (Hrest & Hins)].
      * left. exists (c0 :: pre), cred, post. auto.
      * destruct (decide (config.Username c0 = u)) as [Heq | Hne].
        -- rewrite Heq, lookup_insert_eq in Hins. injection Hins as Hpw.
           left. exists [], c0, rest. auto.
        -- rewrite lookup_insert_ne in Hins by exact Hne.
           right. split; [constructor; assumption | exact Hins].
    + intros [(pre & cred & post & Heq & Hcu & Hcp & Hpost) | (Hrest & Hm)].
      * destruct pre as [| c1 pre]; simpl in Heq; injection Heq as -> ->.
        -- right. split; [exact Hpost |]. rewrite Hcu, Hcp. apply lookup_insert_eq.
        -- left. exists pre, cred, post. auto.
      * inversion Hrest as [| ? ? Hne Hrest']; subst.
        right. split; [exact Hrest' |]. rewrite lookup_insert_ne by exact Hne. exact Hm.
Qed.

End ValidateFacts.

(** X15.  A configuration that [Validate] accepts has at least one
    listener; the listeners' names are all different and none is empty;
    their ports are all different and none is 0; and each listener is of
    type [smtp], or of type [smtps] or [starttls] with a certificate
    file and a key file.  [Validate] leaves the listeners as they are. *)
Theorem Validate_listeners :
  forall (N : NetLib) (c c' : validate.RecvConfig),
    validate.Validate c = (None, c') ->
    validate.Listeners c <> []
    /\ validate.Listeners c' = validate.Listeners c
    /\ NoDup (map (fun l => config.Name (validate.base l)) (validate.Listeners c))
    /\ NoDup (map (fun l => config.Port (validate.base l)) (validate.Listeners c))
    /\ Forall (fun l =>
                 config.Name (validate.base l) <> ""
                 /\ config.Port (validate.base l) <> 0
                 /\ (config.Type_ (validate.base l) = "smtp"
                     \/ ((config.Type_ (validate.base l) = "smtps"
                          \/ config.Type_ (validate.base l) = "starttls")
                         /\ exists tls, validate.TLS l = Some tls
                                        /\ validate.CertFile tls <> ""
                                        /\ validate.KeyFile tls <> "")))
              (validate.Listeners c).
Proof.
  intros N c c' Hv.
  destruct (Validate_phases c c' Hv) as (Hne & Hls & c1 & c2 & Hauth & _ & Hallowed & Hlim).
  destruct (checkListeners_None _ _ _ _ Hls) as (Hall & Hnames & Hports).
  destruct (validateAuth_frame c c1 Hauth) as (a & ->).
  destruct (validateAllowed_frame _ c2 Hallowed) as (_ & Hl2 & _).
  destruct (validateLimits_None c2 c' Hlim) as (_ & _ & _ & ->).
  split; [exact Hne |]. split; [exact Hl2 |]. split; [exact Hnames |].
  split; [exact Hports |].
  eapply Forall_impl; [exact Hall |]. intros l (H1 & H2 & _ & _ & H5). auto.
Qed.

Lemma Validate_listeners_witness :
  NoDup (map (fun l => config.Port (validate.base l)) (validate.Listeners fixtures.recv))
  /\ validate.Listeners fixtures.validated = validate.Listeners fixtures.recv.
Proof.
  destruct (Validate_listeners fixtures.netlib fixtures.recv fixtures.validated eq_refl)
    as (_ & Hsame & _ & Hports & _).
  split; [exact Hports | exact Hsame].
Defined.

(** X16.  [Validate] accepts no negative limit.  A limit given as 0
    stands for its default (25 MiB, 100 recipients, 10 seconds) and any
    other limit is kept, so that after validation every limit is at
    least 1: a limit of zero recipients or zero bytes cannot be
    configured. *)
Theorem Validate_limits :
  forall (N : NetLib) (c c' : validate.RecvConfig),
    validate.Validate c = (None, c') ->
    0 <= config.MaxSize (config.Limits (validate.Global c))
    /\ 0 <= config.MaxRecipients (config.Limits (validate.Global c))
    /\ 0 <= config.Timeout (config.Limits (validate.Global c))
    /\ config.MaxSize (config.Limits (validate.Global c'))
       = (if config.MaxSize (config.Limits (validate.Global c)) =? 0
          then 26214400 else config.MaxSize (config.Limits (validate.Global c)))
    /\ config.MaxRecipients (config.Limits (validate.Global c'))
       = (if config.MaxRecipients (config.Limits (validate.Global c)) =? 0
          then 100 else config.MaxRecipients (config.Limits (validate.Global c)))
    /\ config.Timeout (config.Limits (validate.Global c'))
       = (if config.Timeout (config.Limits (validate.Global c)) =? 0
          then 10 * Second else config.Timeout (config.Limits (validate.Global c)))
    /\ 1 <= config.MaxSize (config.Limits (validate.Global c'))
    /\ 1 <= config.MaxRecipients (config.Limits (validate.Global c'))
    /\ 1 <= config.Timeout (config.Limits (validate.Global c')).
Proof.
  intros N c c' Hv.
  destruct (Validate_phases c c' Hv) as (_ & _ & c1 & c2 & Hauth & _ & Hallowed & Hlim).
  destruct (validateAuth_frame c c1 Hauth) as (a & ->).
  destruct (validateAllowed_frame _ c2 Hallowed) as (Hg2 & _).
  destruct (validateLimits_None c2 c' Hlim) as (H1 & H2 & H3 & ->).
  rewrite Hg2 in *. simpl in *.
  repeat split; try assumption; try reflexivity.
  - destruct (Z.eqb_spec (config.MaxSize (config.Limits (validate.Global c))) 0); lia.
  - destruct (Z.eqb_spec (config.MaxRecipients (config.Limits (validate.Global c))) 0); lia.
  - destruct (Z.eqb_spec (config.Timeout (config.Limits (validate.Global c))) 0);
      unfold Second; lia.
Qed.

Lemma Validate_limits_witness :
  config.MaxSize (config.Limits (validate.Global fixtures.validated)) = 26214400
  /\ config.MaxRecipients (config.Limits (validate.Global fixtures.validated)) = 100.
Proof.
  destruct (Validate_limits fixtures.netlib fixtures.recv fixtures.validated eq_refl)
    as (_ & _ & _ & Hsize & Hrcpt & _).
  split; [exact Hsize | exact Hrcpt].
Defined.

(** X17.  After a [Validate] that succeeds, the authenticator is the one
    the mode calls for.  In the modes [disabled], [anonymous] and
    [plain-any] it lets every pair through.  In the mode [plain] there
    is at least one credential, none has an empty name or password, and
    [Check] accepts a pair exactly when the last credential listed under
    that name has that password: of two credentials with one name, the
    later one counts. *)
Theorem Validate_authenticator :
  forall (N : NetLib) (c c' : validate.RecvConfig)
         (cmp : string -> string -> option error),
    validate.Validate c = (None, c') ->
    ((config.Mode (config.Auth (validate.Global c)) = "disabled"
      \/ config.Mode (config.Auth (validate.Global c)) = "anonymous"
      \/ config.Mode (config.Auth (validate.Global c)) = "plain-any")
     /\ forall u p, auth.Check cmp (config.Authenticator (validate.Global c')) u p = true)
    \/ (config.Mode (config.Auth (validate.Global c)) = "plain"
        /\ config.Credentials (config.Auth (validate.Global c)) <> []
        /\ Forall (fun cred => config.Username cred <> "" /\ config.Password cred <> "")
                  (config.Credentials (config.Auth (validate.Global c)))
        /\ forall u p,
             auth.Check cmp (config.Authenticator (validate.Global c')) u p = true
             <-> exists pre cred post,
                   config.Credentials (config.Auth (validate.Global c))
                   = (pre ++ cred :: post)%list
                   /\ config.Username cred = u /\ config.Password cred = p
                   /\ Forall (fun c0 => config.Username c0 <> u) post).
Proof.
  intros N c c' cmp Hv.
  destruct (Validate_phases c c' Hv) as (_ & _ & c1 & c2 & Hauth & _ & Hallowed & Hlim).
  destruct (validateAllowed_frame _ c2 Hallowed) as (Hg2 & _).
  destruct (validateLimits_None c2 c' Hlim) as (_ & _ & _ & ->).
  simpl. rewrite Hg2. clear Hg2 Hallowed Hlim Hv c2.
  revert Hauth. unfold validate.validateAuth.
  unfold config.AuthDisabled, config.AuthAnonymous, config.AuthPlainAny, config.AuthPlain.
  set (mode := config.Mode (config.Auth (validate.Global c))).
  destruct (String.eqb_spec mode "disabled") as [Hd | Hd];
    [| destruct (String.eqb_spec mode "anonymous") as [Ha | Ha];
       [| destruct (String.eqb_spec mode "plain-any") as [Hpa | Hpa]]]; simpl;
    try (intros Heq; injection Heq as <-; left; split; [auto | reflexivity]).
  destruct (String.eqb_spec mode "plain") as [Hp | Hp]; [| discriminate].
  destruct (Z.eqb_spec (len (config.Credentials (config.Auth (validate.Global c)))) 0)
    as [| Hlen]; [discriminate |].
  destruct (validate.fillCreds _ _ _) as [e | creds] eqn:Hfill; [discriminate |].
  intros Heq. injection Heq as <-. right.
  destruct (fillCreds_inr _ _ _ _ Hfill) as (Hall & Hlook).
  split; [exact Hp |]. split; [| split; [exact Hall |]].
  - intros Hnil. rewrite Hnil in Hlen. apply Hlen. reflexivity.
  - intros u p. simpl. specialize (Hlook u p). rewrite lookup_empty in Hlook.
    destruct (creds !! u) as [pw |] eqn:Hu.
    + rewrite String.eqb_eq. split.
      * intros ->. destruct (proj1 Hlook eq_refl) as [Hex | (_ & Hno)];
          [exact Hex | discriminate].
      * intros Hex. pose proof (proj2 Hlook (or_introl Hex)) as Heq.
        injection Heq as ->. reflexivity.
    + split; [discriminate |].
      intros Hex. discriminate (proj2 Hlook (or_introl Hex)).
Qed.

Lemma Validate_authenticator_witness :
  auth.Check (@bcrypt_CompareHashAndPassword scenario.lib)
    (config.Authenticator (validate.Global fixtures.validated)) "alice" "Passw0rd3" = true.
Proof.
  destruct (Validate_authenticator fixtures.netlib fixtures.recv fixtures.validated
              (@bcrypt_CompareHashAndPassword scenario.lib) eq_refl)
    as [([Hm | [Hm | Hm]] & _) | (_ & _ & _ & Hcheck)]; try discriminate Hm.
  apply Hcheck.
  exists [ config.mkCredential "alice" "Passw0rd1"; config.mkCredential "bob" "Passw0rd2" ],
         (config.mkCredential "alice" "Passw0rd3"), [].
  repeat split. constructor.
Defined.

(** X18.  After a [Validate] that succeeds the allow-list of networks is
    never empty.  Without [allowed_ips] it is the two networks of prefix
    length 0, all of IPv4 and all of IPv6; with [allowed_ips], each entry
    is not empty and parses with [ParseNet], and the networks parsed are
    appended in order. *)
Theorem Validate_allowed_nets :
  forall (N : NetLib) (c c' : validate.RecvConfig),
    validate.Validate c = (None, c') ->
    validate.AllowedNets c' <> []
    /\ ((validate.AllowedIPs c = []
         /\ validate.AllowedNets c'
            = [ net.mkIPNet net_IPv4zero (net_CIDRMask 0 32);
                net.mkIPNet net_IPv6zero (net_CIDRMask 0 128) ])
        \/ (validate.AllowedIPs c <> []
            /\ exists parsed,
                 validate.AllowedNets c' = (validate.AllowedNets c ++ parsed)%list
                 /\ Forall2 (fun ip n => ip <> "" /\ parse.ParseNet ip = inr n)
                            (validate.AllowedIPs c) parsed)).
Proof.
  intros N c c' Hv.
  destruct (Validate_phases c c' Hv) as (_ & _ & c1 & c2 & Hauth & _ & Hallowed & Hlim).
  destruct (validateAuth_frame c c1 Hauth) as (a & ->).
  destruct (validateAllowed_frame _ c2 Hallowed) as (_ & _ & Hnets).
  destruct (validateLimits_None c2 c' Hlim) as (_ & _ & _ & ->).
  simpl in *.
  assert (Hcases := Hnets).
  split; [| exact Hcases].
  destruct Hnets as [(_ & ->) | (Hne & parsed & -> & Hall)]; [discriminate |].
  intros Hnil. apply app_eq_nil in Hnil. destruct Hnil as [_ ->].
  inversion Hall as [Hips |]. apply Hne. symmetry. exact Hips.
Qed.

Lemma Validate_allowed_nets_witness :
  validate.AllowedNets fixtures.validated <> [].
Proof.
  exact (proj1 (Validate_allowed_nets fixtures.netlib fixtures.recv fixtures.validated eq_refl)).
Defined.

(** X19.  After a [Validate] that succeeds, every address of the sender
    and of the recipient policy passes [isValidEmail], and every domain
    of the two policies has between 1 and 253 bytes and a dot in it. *)
Theorem Validate_policy :
  forall (N : NetLib) (c c' : validate.RecvConfig),
    validate.Validate c = (None, c') ->
    Forall (fun a => parse.isValidEmail a = true)
           (config.Addresses (config.ValidFrom (validate.Global c))
            ++ config.Addresses (config.ValidTo (validate.Global c)))
    /\ Forall (fun d => 1 <= slen d <= 253 /\ parse.Contains d "." = true)
              (config.Domains (config.ValidFrom (validate.Global c))
               ++ config.Domains (config.ValidTo (validate.Global c))).
Proof.
  intros N c c' Hv.
  destruct (Validate_phases c c' Hv) as (_ & _ & c1 & c2 & Hauth & Hpol & _).
  destruct (validateAuth_frame c c1 Hauth) as (a & ->).
  revert Hpol. unfold validate.validatePolicy. simpl.
  destruct (validate.checkEntries _ _ _ _) eqn:H1; [discriminate |].
  destruct (validate.checkEntries "recv.valid_from.domains" _ _ _) eqn:H2; [discriminate |].
  destruct (validate.checkEntries "recv.valid_to.addresses" _ _ _) eqn:H3; [discriminate |].
  intros H4.
  apply checkEntries_None in H1, H2, H3, H4.
  assert (Hdom : forall d, d <> "" /\ parse.isValidDomain d = true ->
                           1 <= slen d <= 253 /\ parse.Contains d "." = true).
  { intros d (_ & Hd). revert Hd. unfold parse.isValidDomain.
    destruct (Z.ltb_spec (slen d) 1); [discriminate |].
    rewrite Z.gtb_ltb. destruct (Z.ltb_spec 253 (slen d)); [discriminate |]. simpl.
    destruct (parse.Contains d "."); [| discriminate]. intros _. split; [lia | reflexivity]. }
  split; apply Forall_app; split.
  - eapply Forall_impl; [exact H1 |]. intros e (_ & He). exact He.
  - eapply Forall_impl; [exact H3 |]. intros e (_ & He). exact He.
  - eapply Forall_impl; [exact H2 |]. exact Hdom.
  - eapply Forall_impl; [exact H4 |]. exact Hdom.
Qed.

Lemma Validate_policy_witness :
  Forall (fun a => parse.isValidEmail a = true)
         (config.Addresses (config.ValidFrom (validate.Global fixtures.recv))
          ++ config.Addresses (config.ValidTo (validate.Global fixtures.recv))).
Proof.
  exact (proj1 (Validate_policy fixtures.netlib fixtures.recv fixtures.validated eq_refl)).
Defined.

(** ** Admission of a connection *)

(** X20.  [NewSession] turns away an address that is not a TCP address
    with [ErrSourceIPInvalid], and a TCP address that none of the allowed
    networks contains with [ErrSourceIPDisallowed], before it asks for a
    session identifier.  A session it hands out is for a TCP address
    that one of the networks contains (or the list is empty); it carries
    the listener's context and configuration, is not authenticated and
    holds no envelope. *)
Theorem NewSession_admission :
  forall (N : NetLib) (A : Type) (l : listener.Listener A) (raddr : net.Addr)
         (newRandom : error + string),
    (forall text, raddr = net.OtherAddr text ->
                  listener.NewSession l raddr newRandom = inl ErrSourceIPInvalid)
    /\ (forall ip port,
          raddr = net.TCPAddr ip port -> listener.AllowedNets l <> [] ->
          (forall n, In n (listener.AllowedNets l) -> net_Contains n ip = false) ->
          listener.NewSession l raddr newRandom = inl ErrSourceIPDisallowed)
    /\ (forall s,
          listener.NewSession l raddr newRandom = inr s ->
          exists ip port id,
            raddr = net.TCPAddr ip port /\ newRandom = inr id
            /\ (listener.AllowedNets l = []
                \/ exists n, In n (listener.AllowedNets l) /\ net_Contains n ip = true)
            /\ s = receiver.newSession (listener.ctx l) id (net_Addr_String raddr)
                     (listener.configListener l) (listener.configSender l)
                     (listener.configGlobal l)
            /\ receiver.authenticated s = false
            /\ receiver.emailFrom s = "" /\ receiver.emailTo s = []).
Proof.
  intros N A l raddr newRandom. split; [| split].
  - intros text ->. reflexivity.
  - intros ip port -> Hne Hnone. unfold listener.NewSession.
    destruct (listener.AllowedNets l) as [| n0 rest] eqn:Hnets; [destruct Hne; reflexivity |].
    assert (Hpos : (0 <? len (n0 :: rest)) = true)
      by (unfold len; simpl; apply Z.ltb_lt; lia).
    rewrite Hpos.
    assert (Hex : existsb (fun a => net_Contains a ip) (n0 :: rest) = false).
    { apply not_true_is_false. intros Hex. apply existsb_exists in Hex.
      destruct Hex as (n & Hin & Hc). rewrite (Hnone n Hin) in Hc. discriminate. }
    rewrite Hex. reflexivity.
  - intros s. unfold listener.NewSession.
    destruct raddr as [ip port | text]; [| discriminate].
    destruct (listener.AllowedNets l) as [| n0 rest] eqn:Hnets.
    + simpl. destruct newRandom as [err | id]; [discriminate |].
      intros Heq. injection Heq as <-. exists ip, port, id. repeat split. left. reflexivity.
    + assert (Hpos : (0 <? len (n0 :: rest)) = true)
        by (unfold len; simpl; apply Z.ltb_lt; lia).
      rewrite Hpos.
      destruct (existsb (fun a => net_Contains a ip) (n0 :: rest)) eqn:Hex; [| discriminate].
      simpl. destruct newRandom as [err | id]; [discriminate |].
      intros Heq. injection Heq as <-. exists ip, port, id. repeat split.
      right. apply existsb_exists in Hex. exact Hex.
Qed.

Lemma NewSession_admission_witness :
  listener.NewSession (H := fixtures.netlib)
    (listener.mkListener Background (scenario.listener true)
       (config.mkSendConfig unit scenario.nullSender) (scenario.global 1024 100)
       [ net.mkIPNet [Byte.x0a; Byte.x00; Byte.x00; Byte.x01] [] ])
    (net.TCPAddr [Byte.xc0; Byte.x00; Byte.x02; Byte.x07] 50211)
    (inr "6f1c")
  = inl ErrSourceIPDisallowed.
Proof.
  apply (proj1 (proj2 (NewSession_admission fixtures.netlib unit
                         (listener.mkListener Background (scenario.listener true)
                            (config.mkSendConfig unit scenario.nullSender)
                            (scenario.global 1024 100)
                            [ net.mkIPNet [Byte.x0a; Byte.x00; Byte.x00; Byte.x01] [] ])
                         (net.TCPAddr [Byte.xc0; Byte.x00; Byte.x02; Byte.x07] 50211)
                         (inr "6f1c")))
               [Byte.xc0; Byte.x00; Byte.x02; Byte.x07] 50211 eq_refl).
  - discriminate.
  - intros n [<- | []]. reflexivity.
Defined.

(** X21.  From the configuration file to the session: for a
    configuration that [Validate] accepts and a connection that a
    listener built from it admits, the remote address lies in one of the
    validated networks, the recipient limit is at least 1, and no run of
    commands makes the session hold more recipients than the limit. *)
Theorem validated_session_limits :
  forall (N : NetLib) (L : GoLib) (A : Type) (c c' : validate.RecvConfig)
         (lctx : Context) (cl : config.ListenerConfig) (cs : config.SendConfig A)
         (raddr : net.Addr) (newRandom : error + string) (s : receiver.Session A)
         (cmds : list (receiver.command * World A)),
    validate.Validate c = (None, c') ->
    listener.NewSession (listener.NewListener lctx cl cs c') raddr newRandom = inr s ->
    (exists ip port n,
        raddr = net.TCPAddr ip port
        /\ In n (validate.AllowedNets c') /\ net_Contains n ip = true)
    /\ 1 <= config.MaxRecipients (config.Limits (receiver.configGlobal s))
    /\ len (receiver.emailTo (receiver.run s cmds))
       <= config.MaxRecipients (config.Limits (receiver.configGlobal s)).
Proof.
  intros N L A c c' lctx cl cs raddr newRandom s cmds Hv Hnew.
  destruct (Validate_phases c c' Hv) as (_ & _ & c1 & c2 & Hauth & _ & Hallowed & Hlim).
  pose proof (validateLimits_None c2 c' Hlim) as Hl. cbv zeta in Hl.
  destruct Hl as (_ & H2 & _ & Hc').
  assert (Hrcpt : 1 <= config.MaxRecipients (config.Limits (validate.Global c'))).
  { rewrite Hc'. unfold validate.setGlobal, validate.setLimits.
    cbn [validate.Global config.Limits config.MaxRecipients].
    destruct (Z.eqb_spec (config.MaxRecipients (config.Limits (validate.Global c2))) 0); lia. }
  assert (Hnets : validate.AllowedNets c' <> []).
  { rewrite Hc'. simpl.
    destruct (validateAllowed_frame _ c2 Hallowed)
      as (_ & _ & [(_ & ->) | (Hne & parsed & -> & Hall)]); [discriminate |].
    intros Hnil. apply app_eq_nil in Hnil. destruct Hnil as [_ ->].
    inversion Hall as [Hips |]. apply Hne. symmetry. exact Hips. }
  revert Hnew. unfold listener.NewSession, listener.NewListener. simpl.
  destruct raddr as [ip port | text]; [| discriminate].
  destruct (validate.AllowedNets c') as [| n0 rest] eqn:Hn; [destruct Hnets; reflexivity |].
  assert (Hpos : (0 <? len (n0 :: rest)) = true)
    by (unfold len; simpl; apply Z.ltb_lt; lia).
  rewrite Hpos.
  destruct (existsb (fun a => net_Contains a ip) (n0 :: rest)) eqn:Hex; [| discriminate].
  simpl. destruct newRandom as [err | id]; [discriminate |].
  intros Heq. injection Heq as <-. split; [| split].
  - apply existsb_exists in Hex. destruct Hex as (n & Hin & Hc).
    exists ip, port, n. auto.
  - exact Hrcpt.
  - apply (run_within_limit cmds _
             (config.MaxRecipients (config.Limits (validate.Global c'))));
      [lia | reflexivity |].
    unfold len. simpl. lia.
Qed.

Lemma validated_session_limits_witness :
  1 <= config.MaxRecipients
         (config.Limits
            (receiver.configGlobal
               (receiver.newSession (A := unit) Background "6f1c" "tcp" (scenario.listener true)
                  (config.mkSendConfig unit scenario.nullSender)
                  (validate.Global fixtures.validated)))).
Proof.
  exact (proj1 (proj2 (validated_session_limits fixtures.netlib scenario.lib unit
                         fixtures.recv fixtures.validated Background (scenario.listener true)
                         (config.mkSendConfig unit scenario.nullSender)
                         (net.TCPAddr [Byte.x00; Byte.x00; Byte.x00; Byte.x00] 50211)
                         (inr "6f1c")
                         (receiver.newSession (A := unit) Background "6f1c" "tcp"
                            (scenario.listener true)
                            (config.mkSendConfig unit scenario.nullSender)
                            (validate.Global fixtures.validated))
                         [] eq_refl eq_refl))).
Defined.
